(** * GpuRenderTargetSystem: a shallow embedding of the WebGPU render-target system

    Source: src/rendering/renderers/gpu/renderTarget/GpuRenderTargetSystem.ts

    The system is stateful JavaScript: it owns two caches, a stack and a
    handful of fields, mutates objects it shares with the rest of the
    renderer, and may throw.  The embedding is a state-and-exception monad
    over an explicit store; a throw keeps the store as it was at the point
    of the throw, as in JavaScript. *)

From Stdlib Require Import ZArith Lia Qcanon.
From stdpp Require Import base option numbers countable gmap functions list.

Local Open Scope Z_scope.

(** ** Data model *)

(** A JavaScript [number] that carries a size, a scale factor or a colour
    component.  Exact rationals: the code only stores and compares them. *)
Abbreviation number := Qc.

(** [RGBAArray = [number, number, number, number]] *)
Definition RGBAArray : Type := number * number * number * number.

(** [const DEFAULT_CLEAR_COLOR = [0, 0, 0, 0];] *)
Definition DEFAULT_CLEAR_COLOR : RGBAArray := (0%Qc, 0%Qc, 0%Qc, 0%Qc).

(** The object [canvas.getContext('webgpu')] hands out.  Whether
    [configure] throws on it is decided by the browser and the device
    (an unsupported format, a lost device...), so it is data here. *)
Record GPUCanvasContext := {
  ctx_id : nat;
  configure_throws : bool;
}.

Global Instance GPUCanvasContext_eq_dec : EqDecision GPUCanvasContext.
Proof. solve_decision. Defined.

(** What a [TextureSource] wraps in [source.resource].
    - [HTMLCanvasElement c]: passes [instanceof HTMLCanvasElement];
      [getContext('webgpu')] answers [c] ([None] is JavaScript's [null],
      the answer for a canvas already bound to another context type);
    - [OffscreenCanvas c]: has a [getContext] method but is not an
      [HTMLCanvasElement];
    - [PlainResource]: anything else (an image, a video, [null],
      [undefined]): there is no [getContext] to call. *)
Inductive Resource :=
| HTMLCanvasElement (webgpu : option GPUCanvasContext)
| OffscreenCanvas (webgpu : option GPUCanvasContext)
| PlainResource.

(** The fields of [TextureSource] the system reads or writes.
    [depthStencil] is a reference to a [Texture]. *)
Record TextureSource := {
  resource : Resource;
  antialias : bool;
  src_width : number;
  src_height : number;
  resolution : number;
  sampleCount : Z;
  depthStencil : option nat;
}.

(** [Texture]: the system only follows [texture.source]. *)
Record Texture := {
  source : nat;
}.

(** Modelled from the spec: the class [RenderTarget] is imported from
    [shared/renderTarget/RenderTarget], which is not part of the sources at
    hand.  The spec gives it a unique identifier, an ordered sequence of
    colour attachments, an optional depth/stencil attachment, a width and a
    height, a root flag and a projection matrix.  A render target is
    addressed by its unique identifier [uid], which is therefore the key of
    the store and not a field. *)
Record RenderTarget := {
  colorTextures : list nat;
  depthTexture : option nat;
  isRoot : bool;
  width : number;
  height : number;
  projectionMatrix : nat;
}.

Inductive GPULoadOp := LoadOp_load | LoadOp_clear.
Inductive GPUStoreOp := StoreOp_store | StoreOp_discard.

(** The texture views a pass descriptor can name, by the call that makes
    them. *)
Inductive GPUTextureView :=
| CanvasTextureView (context : GPUCanvasContext)
    (* context.getCurrentTexture().createView() *)
| TextureView (texture : nat)
    (* renderer.texture.getTextureView(texture) *)
| MsaaTextureView (gpuRenderTarget : nat) (i : nat)
    (* renderer.texture.getTextureView(gpuRenderTarget.msaaTextures[i]) *)
| GpuSourceView (source : nat).
    (* renderer.texture.getGpuSource(source).createView() *)

Record GPURenderPassColorAttachment := {
  view : GPUTextureView;
  resolveTarget : option GPUTextureView;
  clearValue : RGBAArray;
  storeOp : GPUStoreOp;
  loadOp : GPULoadOp;
}.

Record GPURenderPassDepthStencilAttachment := {
  ds_view : GPUTextureView;
  stencilStoreOp : GPUStoreOp;
  stencilLoadOp : GPULoadOp;
}.

Record GPURenderPassDescriptor := {
  colorAttachments : list GPURenderPassColorAttachment;
  depthStencilAttachment : option GPURenderPassDepthStencilAttachment;
}.

(** Modelled from the spec: the class [GpuRenderTarget] is imported from
    [./GpuRenderTarget], which is not part of the sources at hand.  The spec
    gives it per-attachment native surface contexts, per-attachment
    multisample textures, the current sample count (4 with MSAA, 1
    otherwise), the cached width and height and the most recently built
    pass descriptor.  [contexts] and [msaaTextures] are JavaScript arrays
    written by index, so they may have holes: they are finite maps from
    the index.  A stored context may be [null].  The multisample
    [TextureSource]s are created by the system and referenced from their
    slot only, so each slot holds the object itself.  [msaa] is falsy until
    it is first written; [gpu_width] and [gpu_height] are [undefined] until
    the first resize. *)
Record GpuRenderTarget := {
  contexts : gmap nat (option GPUCanvasContext);
  msaaTextures : gmap nat TextureSource;
  msaa : bool;
  msaaSamples : Z;
  gpu_width : option number;
  gpu_height : option number;
  descriptor : option GPURenderPassDescriptor;
}.

(** [new GpuRenderTarget()] *)
Definition GpuRenderTarget_new : GpuRenderTarget := {|
  contexts := ∅;
  msaaTextures := ∅;
  msaa := false;
  msaaSamples := 1;
  gpu_width := None;
  gpu_height := None;
  descriptor := None;
|}.

(** [type RenderSurface = ICanvas | BindableTexture | RenderTarget].
    A surface is an object reference; [SurfUndefined] is the [undefined]
    that [pop] passes to [bind] when the stack has run empty. *)
Inductive RenderSurface :=
| SurfCanvas (canvas : nat)
| SurfTexture (texture : nat)
| SurfRenderTarget (uid : nat)
| SurfUndefined.

Global Instance RenderSurface_eq_dec : EqDecision RenderSurface.
Proof. solve_decision. Defined.

Global Instance RenderSurface_countable : Countable RenderSurface.
Proof.
  refine (inj_countable'
    (λ s, match s with
          | SurfCanvas c => inl (inl c)
          | SurfTexture t => inl (inr t)
          | SurfRenderTarget r => inr (inl r)
          | SurfUndefined => inr (inr ())
          end)
    (λ x, match x with
          | inl (inl c) => SurfCanvas c
          | inl (inr t) => SurfTexture t
          | inr (inl r) => SurfRenderTarget r
          | inr (inr _) => SurfUndefined
          end) _).
  by intros [].
Defined.

(** What the code can throw. *)
Inductive JsError :=
| TypeError      (* a property of null or undefined, or a call of a non-function *)
| DOMException.  (* what [GPUCanvasContext.configure] raises *)

Global Instance JsError_eq_dec : EqDecision JsError.
Proof. solve_decision. Defined.

(** Calls into the collaborators of the system (encoder, pipeline, runner,
    canvas contexts, console) and the two constructors the system runs, in
    the order they happen. *)
Inductive Event :=
| EncoderStart
| BeginRenderPass (renderTarget gpuRenderTarget : nat)
| SetMultisampleCount (samples : Z)
| OnRenderTargetChange (renderTarget : nat)
| Configure (context : option GPUCanvasContext)
| ConsoleError (e : JsError)
| NewRenderTarget (renderSurface : RenderSurface) (uid : nat)
| NewGpuRenderTarget (uid gpuRenderTarget : nat).

Global Instance Event_eq_dec : EqDecision Event.
Proof. solve_decision. Defined.

(** The type [GPU] is declared in [../GpuDeviceSystem], which is not part
    of the sources at hand; the system stores the object it is given and
    reads [gpu.device] only. *)
Record GPU := {
  device : nat;
}.

(** ** The store *)

Record State := {
  (* objects shared with the rest of the renderer *)
  sources : nat → TextureSource;
  textures : nat → Texture;
  renderTargets : nat → RenderTarget;
  next_uid : nat;
  (* the GpuRenderTarget objects, by address *)
  gpuRenderTargets : nat → GpuRenderTarget;
  next_gpu : nat;
  (* the fields of GpuRenderTargetSystem *)
  rootRenderTarget : option nat;
  rootProjectionMatrix : nat;
  renderTarget : option nat;
  renderSurfaceToRenderTargetHash : gmap RenderSurface nat;
  gpuRenderTargetHash : gmap nat nat;
  renderTargetStack : list nat;
  gpu : option GPU;  (* undefined until contextChange *)
  (* what the collaborators have seen so far *)
  trace : list Event;
}.

(** Field updates of the store: [upd_f g st] is [st] with field [f]
    replaced by [g (f st)]. *)

Definition upd_sources (f : (nat → TextureSource) → (nat → TextureSource)) (st : State) : State :=
  {| sources := f (sources st);
     textures := textures st;
     renderTargets := renderTargets st;
     next_uid := next_uid st;
     gpuRenderTargets := gpuRenderTargets st;
     next_gpu := next_gpu st;
     rootRenderTarget := rootRenderTarget st;
     rootProjectionMatrix := rootProjectionMatrix st;
     renderTarget := renderTarget st;
     renderSurfaceToRenderTargetHash := renderSurfaceToRenderTargetHash st;
     gpuRenderTargetHash := gpuRenderTargetHash st;
     renderTargetStack := renderTargetStack st;
     gpu := gpu st;
     trace := trace st |}.

Definition upd_renderTargets (f : (nat → RenderTarget) → (nat → RenderTarget)) (st : State) : State :=
  {| sources := sources st;
     textures := textures st;
     renderTargets := f (renderTargets st);
     next_uid := next_uid st;
     gpuRenderTargets := gpuRenderTargets st;
     next_gpu := next_gpu st;
     rootRenderTarget := rootRenderTarget st;
     rootProjectionMatrix := rootProjectionMatrix st;
     renderTarget := renderTarget st;
     renderSurfaceToRenderTargetHash := renderSurfaceToRenderTargetHash st;
     gpuRenderTargetHash := gpuRenderTargetHash st;
     renderTargetStack := renderTargetStack st;
     gpu := gpu st;
     trace := trace st |}.

Definition upd_next_uid (f : (nat) → (nat)) (st : State) : State :=
  {| sources := sources st;
     textures := textures st;
     renderTargets := renderTargets st;
     next_uid := f (next_uid st);
     gpuRenderTargets := gpuRenderTargets st;
     next_gpu := next_gpu st;
     rootRenderTarget := rootRenderTarget st;
     rootProjectionMatrix := rootProjectionMatrix st;
     renderTarget := renderTarget st;
     renderSurfaceToRenderTargetHash := renderSurfaceToRenderTargetHash st;
     gpuRenderTargetHash := gpuRenderTargetHash st;
     renderTargetStack := renderTargetStack st;
     gpu := gpu st;
     trace := trace st |}.

Definition upd_gpuRenderTargets (f : (nat → GpuRenderTarget) → (nat → GpuRenderTarget)) (st : State) : State :=
  {| sources := sources st;
     textures := textures st;
     renderTargets := renderTargets st;
     next_uid := next_uid st;
     gpuRenderTargets := f (gpuRenderTargets st);
     next_gpu := next_gpu st;
     rootRenderTarget := rootRenderTarget st;
     rootProjectionMatrix := rootProjectionMatrix st;
     renderTarget := renderTarget st;
     renderSurfaceToRenderTargetHash := renderSurfaceToRenderTargetHash st;
     gpuRenderTargetHash := gpuRenderTargetHash st;
     renderTargetStack := renderTargetStack st;
     gpu := gpu st;
     trace := trace st |}.

Definition upd_next_gpu (f : (nat) → (nat)) (st : State) : State :=
  {| sources := sources st;
     textures := textures st;
     renderTargets := renderTargets st;
     next_uid := next_uid st;
     gpuRenderTargets := gpuRenderTargets st;
     next_gpu := f (next_gpu st);
     rootRenderTarget := rootRenderTarget st;
     rootProjectionMatrix := rootProjectionMatrix st;
     renderTarget := renderTarget st;
     renderSurfaceToRenderTargetHash := renderSurfaceToRenderTargetHash st;
     gpuRenderTargetHash := gpuRenderTargetHash st;
     renderTargetStack := renderTargetStack st;
     gpu := gpu st;
     trace := trace st |}.

Definition upd_rootRenderTarget (f : (option nat) → (option nat)) (st : State) : State :=
  {| sources := sources st;
     textures := textures st;
     renderTargets := renderTargets st;
     next_uid := next_uid st;
     gpuRenderTargets := gpuRenderTargets st;
     next_gpu := next_gpu st;
     rootRenderTarget := f (rootRenderTarget st);
     rootProjectionMatrix := rootProjectionMatrix st;
     renderTarget := renderTarget st;
     renderSurfaceToRenderTargetHash := renderSurfaceToRenderTargetHash st;
     gpuRenderTargetHash := gpuRenderTargetHash st;
     renderTargetStack := renderTargetStack st;
     gpu := gpu st;
     trace := trace st |}.

Definition upd_rootProjectionMatrix (f : (nat) → (nat)) (st : State) : State :=
  {| sources := sources st;
     textures := textures st;
     renderTargets := renderTargets st;
     next_uid := next_uid st;
     gpuRenderTargets := gpuRenderTargets st;
     next_gpu := next_gpu st;
     rootRenderTarget := rootRenderTarget st;
     rootProjectionMatrix := f (rootProjectionMatrix st);
     renderTarget := renderTarget st;
     renderSurfaceToRenderTargetHash := renderSurfaceToRenderTargetHash st;
     gpuRenderTargetHash := gpuRenderTargetHash st;
     renderTargetStack := renderTargetStack st;
     gpu := gpu st;
     trace := trace st |}.

Definition upd_renderTarget (f : (option nat) → (option nat)) (st : State) : State :=
  {| sources := sources st;
     textures := textures st;
     renderTargets := renderTargets st;
     next_uid := next_uid st;
     gpuRenderTargets := gpuRenderTargets st;
     next_gpu := next_gpu st;
     rootRenderTarget := rootRenderTarget st;
     rootProjectionMatrix := rootProjectionMatrix st;
     renderTarget := f (renderTarget st);
     renderSurfaceToRenderTargetHash := renderSurfaceToRenderTargetHash st;
     gpuRenderTargetHash := gpuRenderTargetHash st;
     renderTargetStack := renderTargetStack st;
     gpu := gpu st;
     trace := trace st |}.

Definition upd_renderSurfaceToRenderTargetHash (f : (gmap RenderSurface nat) → (gmap RenderSurface nat)) (st : State) : State :=
  {| sources := sources st;
     textures := textures st;
     renderTargets := renderTargets st;
     next_uid := next_uid st;
     gpuRenderTargets := gpuRenderTargets st;
     next_gpu := next_gpu st;
     rootRenderTarget := rootRenderTarget st;
     rootProjectionMatrix := rootProjectionMatrix st;
     renderTarget := renderTarget st;
     renderSurfaceToRenderTargetHash := f (renderSurfaceToRenderTargetHash st);
     gpuRenderTargetHash := gpuRenderTargetHash st;
     renderTargetStack := renderTargetStack st;
     gpu := gpu st;
     trace := trace st |}.

Definition upd_gpuRenderTargetHash (f : (gmap nat nat) → (gmap nat nat)) (st : State) : State :=
  {| sources := sources st;
     textures := textures st;
     renderTargets := renderTargets st;
     next_uid := next_uid st;
     gpuRenderTargets := gpuRenderTargets st;
     next_gpu := next_gpu st;
     rootRenderTarget := rootRenderTarget st;
     rootProjectionMatrix := rootProjectionMatrix st;
     renderTarget := renderTarget st;
     renderSurfaceToRenderTargetHash := renderSurfaceToRenderTargetHash st;
     gpuRenderTargetHash := f (gpuRenderTargetHash st);
     renderTargetStack := renderTargetStack st;
     gpu := gpu st;
     trace := trace st |}.

Definition upd_renderTargetStack (f : (list nat) → (list nat)) (st : State) : State :=
  {| sources := sources st;
     textures := textures st;
     renderTargets := renderTargets st;
     next_uid := next_uid st;
     gpuRenderTargets := gpuRenderTargets st;
     next_gpu := next_gpu st;
     rootRenderTarget := rootRenderTarget st;
     rootProjectionMatrix := rootProjectionMatrix st;
     renderTarget := renderTarget st;
     renderSurfaceToRenderTargetHash := renderSurfaceToRenderTargetHash st;
     gpuRenderTargetHash := gpuRenderTargetHash st;
     renderTargetStack := f (renderTargetStack st);
     gpu := gpu st;
     trace := trace st |}.

Definition upd_gpu (f : (option GPU) → (option GPU)) (st : State) : State :=
  {| sources := sources st;
     textures := textures st;
     renderTargets := renderTargets st;
     next_uid := next_uid st;
     gpuRenderTargets := gpuRenderTargets st;
     next_gpu := next_gpu st;
     rootRenderTarget := rootRenderTarget st;
     rootProjectionMatrix := rootProjectionMatrix st;
     renderTarget := renderTarget st;
     renderSurfaceToRenderTargetHash := renderSurfaceToRenderTargetHash st;
     gpuRenderTargetHash := gpuRenderTargetHash st;
     renderTargetStack := renderTargetStack st;
     gpu := f (gpu st);
     trace := trace st |}.

Definition upd_trace (f : (list Event) → (list Event)) (st : State) : State :=
  {| sources := sources st;
     textures := textures st;
     renderTargets := renderTargets st;
     next_uid := next_uid st;
     gpuRenderTargets := gpuRenderTargets st;
     next_gpu := next_gpu st;
     rootRenderTarget := rootRenderTarget st;
     rootProjectionMatrix := rootProjectionMatrix st;
     renderTarget := renderTarget st;
     renderSurfaceToRenderTargetHash := renderSurfaceToRenderTargetHash st;
     gpuRenderTargetHash := gpuRenderTargetHash st;
     renderTargetStack := renderTargetStack st;
     gpu := gpu st;
     trace := f (trace st) |}.

(** ** The monad: store passing with JavaScript exceptions *)

Inductive Result (A : Type) :=
| Ok (a : A)
| Throw (e : JsError).
Arguments Ok {A} a.
Arguments Throw {A} e.

Definition M (A : Type) : Type := State → Result A * State.

Global Instance M_ret : MRet M := λ A a st, (Ok a, st).

Global Instance M_bind : MBind M := λ A B f m st,
  match m st with
  | (Ok a, st') => f a st'
  | (Throw e, st') => (Throw e, st')
  end.

Definition throw {A} (e : JsError) : M A := λ st, (Throw e, st).

(** [try { m } catch (e) { handler(e) }] *)
Definition try_catch {A} (m : M A) (handler : JsError → M A) : M A := λ st,
  match m st with
  | (Ok a, st') => (Ok a, st')
  | (Throw e, st') => handler e st'
  end.

Definition get : M State := λ st, (Ok st, st).
Definition modify (f : State → State) : M unit := λ st, (Ok (), f st).
Definition emit (e : Event) : M unit := modify (upd_trace (λ t, t ++ [e])).

(** A write to a field of the [GpuRenderTarget] at address [g]. *)
Definition modify_gpu (g : nat) (f : GpuRenderTarget → GpuRenderTarget) : M unit :=
  modify (upd_gpuRenderTargets (λ h, <[g := f (h g)]> h)).

(** [array.forEach((x, i) => body)] *)
Fixpoint forEach_from {A} (i : nat) (l : list A) (body : A → nat → M unit) : M unit :=
  match l with
  | [] => mret ()
  | x :: l' => body x i;; forEach_from (S i) l' body
  end.

Definition forEach {A} (l : list A) (body : A → nat → M unit) : M unit :=
  forEach_from 0 l body.

(** ** Writes to single fields of the shared objects *)

Definition set_isRoot (b : bool) (rt : RenderTarget) : RenderTarget :=
  {| colorTextures := colorTextures rt; depthTexture := depthTexture rt;
     isRoot := b; width := width rt; height := height rt;
     projectionMatrix := projectionMatrix rt |}.

Definition set_sampleCount (n : Z) (s : TextureSource) : TextureSource :=
  {| resource := resource s; antialias := antialias s;
     src_width := src_width s; src_height := src_height s;
     resolution := resolution s; sampleCount := n;
     depthStencil := depthStencil s |}.

Definition set_contexts (f : gmap nat (option GPUCanvasContext) → gmap nat (option GPUCanvasContext))
    (g : GpuRenderTarget) : GpuRenderTarget :=
  {| contexts := f (contexts g); msaaTextures := msaaTextures g; msaa := msaa g;
     msaaSamples := msaaSamples g; gpu_width := gpu_width g;
     gpu_height := gpu_height g; descriptor := descriptor g |}.

Definition set_msaaTextures (f : gmap nat TextureSource → gmap nat TextureSource)
    (g : GpuRenderTarget) : GpuRenderTarget :=
  {| contexts := contexts g; msaaTextures := f (msaaTextures g); msaa := msaa g;
     msaaSamples := msaaSamples g; gpu_width := gpu_width g;
     gpu_height := gpu_height g; descriptor := descriptor g |}.

Definition set_msaa (b : bool) (g : GpuRenderTarget) : GpuRenderTarget :=
  {| contexts := contexts g; msaaTextures := msaaTextures g; msaa := b;
     msaaSamples := msaaSamples g; gpu_width := gpu_width g;
     gpu_height := gpu_height g; descriptor := descriptor g |}.

Definition set_msaaSamples (n : Z) (g : GpuRenderTarget) : GpuRenderTarget :=
  {| contexts := contexts g; msaaTextures := msaaTextures g; msaa := msaa g;
     msaaSamples := n; gpu_width := gpu_width g;
     gpu_height := gpu_height g; descriptor := descriptor g |}.

Definition set_size (w h : number) (g : GpuRenderTarget) : GpuRenderTarget :=
  {| contexts := contexts g; msaaTextures := msaaTextures g; msaa := msaa g;
     msaaSamples := msaaSamples g; gpu_width := Some w;
     gpu_height := Some h; descriptor := descriptor g |}.

Definition set_descriptor (d : GPURenderPassDescriptor) (g : GpuRenderTarget) : GpuRenderTarget :=
  {| contexts := contexts g; msaaTextures := msaaTextures g; msaa := msaa g;
     msaaSamples := msaaSamples g; gpu_width := gpu_width g;
     gpu_height := gpu_height g; descriptor := Some d |}.

(** ** Constructors and methods of the collaborating classes *)

(** Modelled from the spec: the constructor of [TextureSource] is not part
    of the sources at hand.  [new TextureSource({width, height,
    sampleCount})] keeps the three options it is given; the fields the
    call leaves out are a source without a resource, without antialiasing
    and at resolution 1. *)
Definition TextureSource_new (w h : number) (samples : Z) : TextureSource :=
  {| resource := PlainResource; antialias := false;
     src_width := w; src_height := h; resolution := 1%Qc;
     sampleCount := samples; depthStencil := None |}.

(** Modelled from the spec: [TextureSource.resize] is not part of the
    sources at hand.  The spec has a multisample buffer resized "to match
    its corresponding color attachment's width, height, and resolution". *)
Definition TextureSource_resize (w h res : number) (s : TextureSource) : TextureSource :=
  {| resource := resource s; antialias := antialias s;
     src_width := w; src_height := h; resolution := res;
     sampleCount := sampleCount s; depthStencil := depthStencil s |}.

(** Modelled from the spec: the constructor of [RenderTarget] is not part
    of the sources at hand.  [new RenderTarget({colorTextures,
    depthTexture})] takes the next unique identifier, is not a root, and
    has the dimensions of its first colour attachment ("a RenderTarget's
    dimensions must always equal the dimensions of its first color
    attachment"); its projection matrix is its own.  [next_uid] is the
    identifier the next render target gets; the world is expected to keep
    it above the identifiers in use, and no property below depends on
    that. *)
Definition RenderTarget_new (colors : list nat) (depth : option nat) : M nat := λ st,
  let uid := next_uid st in
  let first := (λ t, sources st (source (textures st t))) <$> head colors in
  let rt := {| colorTextures := colors; depthTexture := depth; isRoot := false;
               width := from_option src_width 0%Qc first;
               height := from_option src_height 0%Qc first;
               projectionMatrix := uid |} in
  (Ok uid, upd_next_uid S (upd_renderTargets (λ h, <[uid := rt]> h) st)).

(** [context.configure({device: this.gpu.device, ...})].  On [null] the
    member access [context.configure] throws a TypeError.  The argument is
    evaluated before the call: while [contextChange] has not set
    [this.gpu], reading [this.gpu.device] throws a TypeError and no call
    is made.  Otherwise the call is made and throws or not.  The WebGPU
    constants of the other fields of the argument are taken to be there. *)
Definition configure (context : option GPUCanvasContext) : M unit :=
  match context with
  | None => throw TypeError
  | Some c =>
      st ← get;
      match gpu st with
      | None => throw TypeError
      | Some _ =>
          emit (Configure context);;
          if configure_throws c then throw DOMException else mret ()
      end
  end.

(** [resource.getContext('webgpu')] *)
Definition getContext (r : Resource) : M (option GPUCanvasContext) :=
  match r with
  | HTMLCanvasElement c | OffscreenCanvas c => mret c
  | PlainResource => throw TypeError
  end.

(** Modelled from the spec: the getter [renderTarget.colorTexture] belongs
    to the class [RenderTarget]; it is the first colour attachment.
    Reading [.source] of a missing one throws. *)
Definition colorTexture_source (uid : nat) : M TextureSource := λ st,
  match head (colorTextures (renderTargets st uid)) with
  | Some t => (Ok (sources st (source (textures st t))), st)
  | None => (Throw TypeError, st)
  end.

(** ** GpuRenderTargetSystem *)

(** [private initRenderTarget(renderSurface)] *)
Definition initRenderTarget (renderSurface : RenderSurface) : M nat :=
  renderTarget ←
    match renderSurface with
    | SurfRenderTarget r => mret (Some r)
    | SurfTexture t =>
        st ← get;
        r ← RenderTarget_new [t] (depthStencil (sources st (source (textures st t))));
        emit (NewRenderTarget renderSurface r);;
        mret (Some r)
    | _ => mret None
    end;
  match renderTarget with
  | None => throw TypeError  (* renderTarget.isRoot = true, on null *)
  | Some r =>
      modify (upd_renderTargets (λ h, <[r := set_isRoot true (h r)]> h));;
      modify (upd_renderSurfaceToRenderTargetHash (λ m, <[renderSurface := r]> m));;
      mret r
  end.

(** [getRenderTarget(renderSurface)] *)
Definition getRenderTarget (renderSurface : RenderSurface) : M nat :=
  st ← get;
  match renderSurfaceToRenderTargetHash st !! renderSurface with
  | Some r => mret r
  | None => initRenderTarget renderSurface
  end.

(** The body of the [forEach] in [initGpuRenderTarget]. *)
Definition initGpuRenderTarget_attachment (uid g : nat) (colorTexture i : nat) : M unit :=
  st ← get;
  let src := sources st (source (textures st colorTexture)) in
  match resource src with
  | HTMLCanvasElement _ =>
      first ← colorTexture_source uid;
      context ← getContext (resource first);
      try_catch (configure context) (λ e, emit (ConsoleError e));;
      modify_gpu g (set_contexts (λ cs, <[i := context]> cs))
  | _ => mret ()
  end;;
  modify_gpu g (set_msaa (antialias src));;
  if antialias src then
    modify_gpu g (set_msaaTextures (λ ms, <[i := TextureSource_new 0%Qc 0%Qc 4]> ms))
  else mret ().

(** [private initGpuRenderTarget(renderTarget)] *)
Definition initGpuRenderTarget (uid : nat) : M nat :=
  modify (upd_renderTargets (λ h, <[uid := set_isRoot true (h uid)]> h));;
  st ← get;
  let g := next_gpu st in
  modify (λ st, upd_next_gpu S (upd_gpuRenderTargets (λ h, <[g := GpuRenderTarget_new]> h) st));;
  emit (NewGpuRenderTarget uid g);;
  forEach (colorTextures (renderTargets st uid)) (initGpuRenderTarget_attachment uid g);;
  st ← get;
  (if msaa (gpuRenderTargets st g) then
     modify_gpu g (set_msaaSamples 4);;
     match depthTexture (renderTargets st uid) with
     | Some d =>
         modify (upd_sources (λ h,
           <[source (textures st d) := set_sampleCount 4 (h (source (textures st d)))]> h))
     | None => mret ()
     end
   else mret ());;
  modify (upd_gpuRenderTargetHash (λ m, <[uid := g]> m));;
  mret g.

(** [private getGpuRenderTarget(renderTarget)] *)
Definition getGpuRenderTarget (uid : nat) : M nat :=
  st ← get;
  match gpuRenderTargetHash st !! uid with
  | Some g => mret g
  | None => initGpuRenderTarget uid
  end.

(** The body of the [forEach] in [resizeGpuRenderTarget]. *)
Definition resizeGpuRenderTarget_attachment (g : nat) (colorTexture i : nat) : M unit :=
  st ← get;
  match msaaTextures (gpuRenderTargets st g) !! i with
  | Some msaaTexture =>
      let src := sources st (source (textures st colorTexture)) in
      modify_gpu g (set_msaaTextures (λ ms,
        <[i := TextureSource_resize (src_width src) (src_height src) (resolution src) msaaTexture]> ms))
  | None => mret ()
  end.

(** [private resizeGpuRenderTarget(renderTarget)] *)
Definition resizeGpuRenderTarget (uid : nat) : M unit :=
  g ← getGpuRenderTarget uid;
  st ← get;
  modify_gpu g (set_size (width (renderTargets st uid)) (height (renderTargets st uid)));;
  if msaa (gpuRenderTargets st g) then
    forEach (colorTextures (renderTargets st uid)) (resizeGpuRenderTarget_attachment g)
  else mret ().

(** The callback of the [map] in [getDescriptor]. *)
Definition colorAttachment (st : State) (g : nat) (loadOp : GPULoadOp)
    (clearValue : option RGBAArray) (i : nat) (texture : nat) : GPURenderPassColorAttachment :=
  let gpuRenderTarget := gpuRenderTargets st g in
  let view :=
    match contexts gpuRenderTarget !! i with
    | Some (Some context) => CanvasTextureView context
    | _ => TextureView texture
    end in
  let '(view, resolveTarget) :=
    match msaaTextures gpuRenderTarget !! i with
    | Some _ => (MsaaTextureView g i, Some view)
    | None => (view, None)
    end in
  {| view := view;
     resolveTarget := resolveTarget;
     clearValue := default DEFAULT_CLEAR_COLOR clearValue;
     storeOp := StoreOp_store;
     loadOp := loadOp |}.

(** [getDescriptor(renderTarget, clear, clearValue)] *)
Definition getDescriptor (uid : nat) (clear : bool) (clearValue : option RGBAArray)
    : M GPURenderPassDescriptor :=
  g ← getGpuRenderTarget uid;
  st ← get;
  let loadOp := if clear then LoadOp_clear else LoadOp_load in
  let colorAttachments :=
    imap (colorAttachment st g loadOp clearValue) (colorTextures (renderTargets st uid)) in
  let depthStencilAttachment :=
    match depthTexture (renderTargets st uid) with
    | Some d =>
        Some {| ds_view := GpuSourceView (source (textures st d));
                stencilStoreOp := StoreOp_store;
                stencilLoadOp := loadOp |}
    | None => None
    end in
  mret {| colorAttachments := colorAttachments;
          depthStencilAttachment := depthStencilAttachment |}.

(** [bind(renderSurface, clear = true, clearColor?)] *)
Definition bind (renderSurface : RenderSurface) (clear : option bool)
    (clearColor : option RGBAArray) : M nat :=
  let clear := default true clear in
  r ← getRenderTarget renderSurface;
  modify (upd_renderTarget (λ _, Some r));;
  g ← getGpuRenderTarget r;
  st ← get;
  (if decide (Some (width (renderTargets st r)) ≠ gpu_width (gpuRenderTargets st g)
              ∨ Some (height (renderTargets st r)) ≠ gpu_height (gpuRenderTargets st g))
   then resizeGpuRenderTarget r
   else mret ());;
  descriptor ← getDescriptor r clear clearColor;
  modify_gpu g (set_descriptor descriptor);;
  emit (BeginRenderPass r g);;
  st ← get;
  emit (SetMultisampleCount (msaaSamples (gpuRenderTargets st g)));;
  emit (OnRenderTargetChange r);;
  mret r.

(** [push(renderSurface, clear = true, clearColor?)] *)
Definition push (renderSurface : RenderSurface) (clear : option bool)
    (clearColor : option RGBAArray) : M nat :=
  r ← bind renderSurface clear clearColor;
  modify (upd_renderTargetStack (λ s, s ++ [r]));;
  mret r.

(** The surface [this.renderTargetStack[this.renderTargetStack.length - 1]]
    names. *)
Definition top_surface (stack : list nat) : RenderSurface :=
  match last stack with
  | Some r => SurfRenderTarget r
  | None => SurfUndefined
  end.

(** [pop()] *)
Definition pop : M unit :=
  modify (upd_renderTargetStack (λ s, removelast s));;
  st ← get;
  bind (top_surface (renderTargetStack st)) (Some false) None;;
  mret ().

(** [start(rootRenderSurface, clear = true, clearColor?)] *)
Definition start (rootRenderSurface : RenderSurface) (clear : option bool)
    (clearColor : option RGBAArray) : M unit :=
  r ← getRenderTarget rootRenderSurface;
  modify (upd_rootRenderTarget (λ _, Some r));;
  st ← get;
  modify (upd_rootProjectionMatrix (λ _, projectionMatrix (renderTargets st r)));;
  modify (upd_renderTargetStack (λ _, []));;
  emit EncoderStart;;
  push rootRenderSurface (Some (default true clear)) clearColor;;
  mret ().

(** [restart()] *)
Definition restart : M unit :=
  st ← get;
  bind (from_option SurfRenderTarget SurfUndefined (rootRenderTarget st)) (Some false) None;;
  mret ().

(** [protected contextChange(gpu)] *)
Definition contextChange (gpu : GPU) : M unit :=
  modify (upd_gpu (λ _, Some gpu)).

(** [new GpuRenderTargetSystem(renderer)], in a world that holds the given
    texture sources, textures and render targets: empty caches, an empty
    stack, no root target, no GPU yet, and collaborators that have seen
    nothing. *)
Definition GpuRenderTargetSystem_new (srcs : nat → TextureSource) (texs : nat → Texture)
    (rts : nat → RenderTarget) (uid : nat) : State :=
  {| sources := srcs; textures := texs; renderTargets := rts; next_uid := uid;
     gpuRenderTargets := λ _, GpuRenderTarget_new; next_gpu := 0;
     rootRenderTarget := None; rootProjectionMatrix := 0;
     renderTarget := None;
     renderSurfaceToRenderTargetHash := ∅;
     gpuRenderTargetHash := ∅;
     renderTargetStack := [];
     gpu := None;
     trace := [] |}.

(** The rest of the renderer at work between two calls: it may create,
    replace and resize texture sources, textures and render targets as it
    likes; the one thing it is taken not to do is to clear the root flag
    of a render target.  The private fields of the system are out of its
    reach. *)
Definition external (srcs : nat → TextureSource) (texs : nat → Texture)
    (rts : nat → RenderTarget) (uid : nat) (st : State) : State :=
  {| sources := srcs;
     textures := texs;
     renderTargets := λ r,
       if isRoot (renderTargets st r) then set_isRoot true (rts r) else rts r;
     next_uid := uid;
     gpuRenderTargets := gpuRenderTargets st;
     next_gpu := next_gpu st;
     rootRenderTarget := rootRenderTarget st;
     rootProjectionMatrix := rootProjectionMatrix st;
     renderTarget := renderTarget st;
     renderSurfaceToRenderTargetHash := renderSurfaceToRenderTargetHash st;
     gpuRenderTargetHash := gpuRenderTargetHash st;
     renderTargetStack := renderTargetStack st;
     gpu := gpu st;
     trace := trace st |}.

(** What can happen to the system from the outside: a call of a public
    method or of one of the two lookups, the rest of the renderer
    changing the world, or the renderer handing over the GPU. *)
Inductive Call :=
| CallStart (rootRenderSurface : RenderSurface) (clear : option bool) (clearColor : option RGBAArray)
| CallBind (renderSurface : RenderSurface) (clear : option bool) (clearColor : option RGBAArray)
| CallPush (renderSurface : RenderSurface) (clear : option bool) (clearColor : option RGBAArray)
| CallPop
| CallRestart
| CallGetRenderTarget (renderSurface : RenderSurface)
| CallGetGpuRenderTarget (uid : nat)
| CallGetDescriptor (uid : nat) (clear : bool) (clearValue : option RGBAArray)
| CallExternal (srcs : nat → TextureSource) (texs : nat → Texture)
    (rts : nat → RenderTarget) (uid : nat)
| CallContextChange (gpu : GPU).

(** The store after a call; a caller that catches what the call throws goes
    on with the store the throw left behind. *)
Definition call (c : Call) (st : State) : State :=
  match c with
  | CallStart s cl cc => (start s cl cc st).2
  | CallBind s cl cc => (bind s cl cc st).2
  | CallPush s cl cc => (push s cl cc st).2
  | CallPop => (pop st).2
  | CallRestart => (restart st).2
  | CallGetRenderTarget s => (getRenderTarget s st).2
  | CallGetGpuRenderTarget r => (getGpuRenderTarget r st).2
  | CallGetDescriptor r cl cv => (getDescriptor r cl cv st).2
  | CallExternal srcs texs rts uid => external srcs texs rts uid st
  | CallContextChange gpu => (contextChange gpu st).2
  end.

Definition calls (cs : list Call) (st : State) : State :=
  foldl (λ st c, call c st) st cs.

(** The stores the system can be in: a fresh system, then any calls and
    any changes of the world. *)
Inductive reachable : State → Prop :=
| reachable_new srcs texs rts uid :
    reachable (GpuRenderTargetSystem_new srcs texs rts uid)
| reachable_call c st :
    reachable st → reachable (call c st).

(** How often the trace records the construction of a render target for a
    surface, and of a backend target for a render target. *)
Definition is_construction (s : RenderSurface) (e : Event) : bool :=
  match e with
  | NewRenderTarget s' _ => bool_decide (s' = s)
  | _ => false
  end.

Definition is_setup (uid : nat) (e : Event) : bool :=
  match e with
  | NewGpuRenderTarget uid' _ => bool_decide (uid' = uid)
  | _ => false
  end.

Definition constructions (s : RenderSurface) (t : list Event) : nat :=
  length (filter (λ e, is_construction s e) t).

Definition setups (uid : nat) (t : list Event) : nat :=
  length (filter (λ e, is_setup uid e) t).

(** ** Vocabulary of the specification *)

(** Whether an event is one of the two constructor calls. *)
Definition is_new (e : Event) : bool :=
  match e with
  | NewRenderTarget _ _ | NewGpuRenderTarget _ _ => true
  | _ => false
  end.

(** The render target a surface can stand for: a render target stands for
    itself and a texture for the target that wraps it; a canvas and
    [undefined] stand for none. *)
Definition resolves (s : RenderSurface) (r : nat) : Prop :=
  match s with
  | SurfRenderTarget r0 => r0 = r
  | SurfTexture _ => True
  | _ => False
  end.

(** What no step of the system undoes: cache entries stay, root flags stay,
    every new cache entry is a root that its key resolves to, what is
    pushed has a backend target, and a constructor only runs for a key its
    cache did not have, for a surface once. *)
Record evolves (st st' : State) : Prop := {
  ev_hash : ∀ s r,
    renderSurfaceToRenderTargetHash st !! s = Some r →
    renderSurfaceToRenderTargetHash st' !! s = Some r;
  ev_gpuHash : ∀ r g,
    gpuRenderTargetHash st !! r = Some g → gpuRenderTargetHash st' !! r = Some g;
  ev_root : ∀ r,
    isRoot (renderTargets st r) = true → isRoot (renderTargets st' r) = true;
  ev_hash_new : ∀ s r,
    renderSurfaceToRenderTargetHash st' !! s = Some r →
    renderSurfaceToRenderTargetHash st !! s = Some r
    ∨ (isRoot (renderTargets st' r) = true ∧ resolves s r);
  ev_gpuHash_new : ∀ r g,
    gpuRenderTargetHash st' !! r = Some g →
    gpuRenderTargetHash st !! r = Some g ∨ isRoot (renderTargets st' r) = true;
  ev_stack : ∀ r,
    r ∈ renderTargetStack st' →
    r ∈ renderTargetStack st ∨ is_Some (gpuRenderTargetHash st' !! r);
  ev_trace : ∃ evs,
    trace st' = trace st ++ evs ∧
    (∀ s r, NewRenderTarget s r ∈ evs →
            renderSurfaceToRenderTargetHash st !! s = None
            ∧ is_Some (renderSurfaceToRenderTargetHash st' !! s)) ∧
    (∀ s, (constructions s evs ≤ 1)%nat) ∧
    (∀ r g, NewGpuRenderTarget r g ∈ evs → gpuRenderTargetHash st !! r = None);
}.

(** What holds in every store the system can be in. *)
Record invariant (st : State) : Prop := {
  inv_hash : ∀ s r,
    renderSurfaceToRenderTargetHash st !! s = Some r →
    isRoot (renderTargets st r) = true ∧ resolves s r;
  inv_gpuHash : ∀ r g,
    gpuRenderTargetHash st !! r = Some g → isRoot (renderTargets st r) = true;
  inv_stack : ∀ r,
    r ∈ renderTargetStack st → is_Some (gpuRenderTargetHash st !! r);
  inv_trace : ∀ s, (constructions s (trace st) ≤ 1)%nat;
  inv_unconstructed : ∀ s,
    renderSurfaceToRenderTargetHash st !! s = None → constructions s (trace st) = 0%nat;
}.

(** What the backend side of the system leaves alone: looking up, setting
    up and resizing a backend target, and building a descriptor, change no
    texture, no attachment list and no dimension; of a texture source they
    change the sample count only. *)
Definition rt_shape (rt : RenderTarget) :=
  (colorTextures rt, depthTexture rt, width rt, height rt, projectionMatrix rt).

Definition src_shape (s : TextureSource) :=
  (resource s, antialias s, src_width s, src_height s, resolution s, depthStencil s).

Record stable (st st' : State) : Prop := {
  st_textures : textures st' = textures st;
  st_renderTargets : ∀ r, rt_shape (renderTargets st' r) = rt_shape (renderTargets st r);
  st_sources : ∀ s, src_shape (sources st' s) = src_shape (sources st s);
  st_hash : renderSurfaceToRenderTargetHash st' = renderSurfaceToRenderTargetHash st;
  st_stack : renderTargetStack st' = renderTargetStack st;
  st_renderTarget : renderTarget st' = renderTarget st;
  st_rootRenderTarget : rootRenderTarget st' = rootRenderTarget st;
}.

(** The two [forEach] loops write to backend targets and talk to canvas
    contexts and the console; they touch nothing else and construct
    nothing. *)
Record quiet (st st' : State) : Prop := {
  q_sources : sources st' = sources st;
  q_textures : textures st' = textures st;
  q_renderTargets : renderTargets st' = renderTargets st;
  q_next_uid : next_uid st' = next_uid st;
  q_next_gpu : next_gpu st' = next_gpu st;
  q_rootRenderTarget : rootRenderTarget st' = rootRenderTarget st;
  q_rootProjectionMatrix : rootProjectionMatrix st' = rootProjectionMatrix st;
  q_renderTarget : renderTarget st' = renderTarget st;
  q_hash : renderSurfaceToRenderTargetHash st' = renderSurfaceToRenderTargetHash st;
  q_gpuHash : gpuRenderTargetHash st' = gpuRenderTargetHash st;
  q_stack : renderTargetStack st' = renderTargetStack st;
  q_gpu : gpu st' = gpu st;
  q_trace : ∃ evs, trace st' = trace st ++ evs ∧ Forall (λ e, is_new e = false) evs;
}.

(** The stack is what it was. *)
Definition keeps_stack : relation State :=
  λ st st', renderTargetStack st' = renderTargetStack st.

(** A relation between the store before and the store after that every
    step of a computation keeps, whether it returns or throws. *)
Definition respects (R : relation State) {A} (m : M A) : Prop :=
  ∀ st, R st (m st).2.

(** [initGpuRenderTarget] in three parts: the store when the loop over the
    colour attachments starts, the loop, and what the statements after the
    loop make of the store the loop ends in. *)
Definition initGpuRenderTarget_begin (uid : nat) (st : State) : State :=
  upd_trace (λ t, t ++ [NewGpuRenderTarget uid (next_gpu st)])
    (upd_next_gpu S
       (upd_gpuRenderTargets (λ h, <[next_gpu st := GpuRenderTarget_new]> h)
          (upd_renderTargets (λ h, <[uid := set_isRoot true (h uid)]> h) st))).

Definition initGpuRenderTarget_end (uid g : nat) (st : State) : State :=
  upd_gpuRenderTargetHash (λ m, <[uid := g]> m)
    (if msaa (gpuRenderTargets st g) then
       let st' := upd_gpuRenderTargets (λ h, <[g := set_msaaSamples 4 (h g)]> h) st in
       match depthTexture (renderTargets st uid) with
       | Some d =>
           upd_sources (λ h,
             <[source (textures st d) := set_sampleCount 4 (h (source (textures st d)))]> h) st'
       | None => st'
       end
     else st).

(** [bind] after its lookups: the store once the descriptor [d] is
    recorded on the backend target at [g] and the pass has begun. *)
Definition bind_end (r g : nat) (d : GPURenderPassDescriptor) (st : State) : State :=
  upd_trace (λ t, t ++ [BeginRenderPass r g;
                        SetMultisampleCount (msaaSamples (gpuRenderTargets st g));
                        OnRenderTargetChange r])
    (upd_gpuRenderTargets (λ h, <[g := set_descriptor d (h g)]> h) st).

(** The descriptor [getDescriptor] builds in a store whose backend target
    for [uid] is at [g]. *)
Definition descriptor_of (st : State) (uid g : nat) (clear : bool)
    (clearValue : option RGBAArray) : GPURenderPassDescriptor :=
  let loadOp := if clear then LoadOp_clear else LoadOp_load in
  {| colorAttachments :=
       imap (colorAttachment st g loadOp clearValue) (colorTextures (renderTargets st uid));
     depthStencilAttachment :=
       match depthTexture (renderTargets st uid) with
       | Some d =>
           Some {| ds_view := GpuSourceView (source (textures st d));
                   stencilStoreOp := StoreOp_store;
                   stencilLoadOp := loadOp |}
       | None => None
       end |}.

(** The texture source behind a colour attachment. *)
Definition source_of (st : State) (texture : nat) : TextureSource :=
  sources st (source (textures st texture)).

(** Whether [bind] finds the cached size of the backend target out of date. *)
Definition size_differs (st : State) (r g : nat) : Prop :=
  Some (width (renderTargets st r)) ≠ gpu_width (gpuRenderTargets st g)
  ∨ Some (height (renderTargets st r)) ≠ gpu_height (gpuRenderTargets st g).

(** What the guarded [configure] statement throws on what [getContext]
    answered, if it throws: the TypeError of a [null] context or of a
    [this.gpu] that is not set yet, or what the call itself throws. *)
Definition configure_error (gpu : option GPU) (context : option GPUCanvasContext)
    : option JsError :=
  match context, gpu with
  | Some c, Some _ => if configure_throws c then Some DOMException else None
  | _, _ => Some TypeError
  end.

(** What [renderTarget.colorTexture.source.resource.getContext('webgpu')]
    answers where the call can be made. *)
Definition first_context (st : State) (uid : nat) : option GPUCanvasContext :=
  match head (colorTextures (renderTargets st uid)) with
  | Some t =>
      match resource (source_of st t) with
      | HTMLCanvasElement c | OffscreenCanvas c => c
      | PlainResource => None
      end
  | None => None
  end.

Definition is_canvas (r : Resource) : bool :=
  match r with
  | HTMLCanvasElement _ => true
  | _ => false
  end.

(** What one iteration of the loop of [initGpuRenderTarget] that returns
    makes of the backend target, and what it tells the context and the
    console. *)
Definition attachment_setup (st : State) (uid t i : nat) (G : GpuRenderTarget)
    : GpuRenderTarget :=
  let src := source_of st t in
  let G1 := if is_canvas (resource src)
            then set_contexts (λ cs, <[i := first_context st uid]> cs) G
            else G in
  let G2 := set_msaa (antialias src) G1 in
  if antialias src
  then set_msaaTextures (λ ms, <[i := TextureSource_new 0%Qc 0%Qc 4]> ms) G2
  else G2.

Definition attachment_events (st : State) (uid t : nat) : list Event :=
  if is_canvas (resource (source_of st t)) then
    match first_context st uid, gpu st with
    | Some c, Some _ =>
        Configure (Some c) ::
        (if configure_throws c then [ConsoleError DOMException] else [])
    | _, _ => [ConsoleError TypeError]
    end
  else [].

(** The multisample textures and the [msaa] flag the loop of
    [initGpuRenderTarget] leaves behind, and the multisample texture the
    loop of [resizeGpuRenderTarget] leaves at an index. *)
Definition init_msaaTextures (st : State) (colors : list nat) (i : nat)
    : option TextureSource :=
  match colors !! i with
  | Some t =>
      if antialias (source_of st t) then Some (TextureSource_new 0%Qc 0%Qc 4) else None
  | None => None
  end.

Definition init_msaa (st : State) (colors : list nat) : bool :=
  from_option (λ t, antialias (source_of st t)) false (last colors).

Definition resized_msaaTexture (st : State) (colors : list nat)
    (old : gmap nat TextureSource) (i : nat) : option TextureSource :=
  match colors !! i, old !! i with
  | Some t, Some m =>
      let src := source_of st t in
      Some (TextureSource_resize (src_width src) (src_height src) (resolution src) m)
  | _, o => o
  end.


(** The fields of a backend target a resize leaves alone. *)
Definition gpu_rest (G : GpuRenderTarget) :=
  (contexts G, msaa G, msaaSamples G, descriptor G).

(** ** A small world to run the system in

    Texture [n] has source [n].  Source 0 is a canvas whose context can be
    configured, source 2 a canvas whose context cannot; sources 1 and 2
    ask for antialiasing.  Render target 0 mixes an antialiased and a
    plain attachment, 1 is antialiased with a depth texture, 2 is plain,
    3 draws to the canvas that cannot be configured, and 4 has a canvas
    as its second colour attachment behind a plain first one.  [sample]
    is the system as constructed, [sample_ready] the system after
    [contextChange]. *)
Definition sample_context (throws : bool) : GPUCanvasContext :=
  {| ctx_id := if throws then 1 else 0; configure_throws := throws |}.

Definition sample_source (r : Resource) (aa : bool) : TextureSource :=
  {| resource := r; antialias := aa;
     src_width := Qc_of_Z 8; src_height := Qc_of_Z 6; resolution := 1%Qc;
     sampleCount := 1; depthStencil := None |}.

Definition sample_sources (n : nat) : TextureSource :=
  match n with
  | 0%nat => sample_source (HTMLCanvasElement (Some (sample_context false))) false
  | 1%nat => sample_source PlainResource true
  | 2%nat => sample_source (HTMLCanvasElement (Some (sample_context true))) true
  | _ => sample_source PlainResource false
  end.

Definition sample_textures (n : nat) : Texture := {| source := n |}.

Definition sample_renderTargets (n : nat) : RenderTarget :=
  {| colorTextures :=
       match n with
       | 0%nat => [1%nat; 3%nat]
       | 1%nat => [1%nat]
       | 2%nat => [3%nat]
       | 3%nat => [2%nat]
       | 4%nat => [3%nat; 0%nat]
       | _ => []
       end;
     depthTexture := match n with 1%nat => Some 4%nat | _ => None end;
     isRoot := false;
     width := Qc_of_Z 8; height := Qc_of_Z 6;
     projectionMatrix := n |}.

Definition sample : State :=
  GpuRenderTargetSystem_new sample_sources sample_textures sample_renderTargets 10.

(** The same world once the renderer has handed over the GPU. *)
Definition sample_gpu : GPU := {| device := 0 |}.

Definition sample_ready : State := call (CallContextChange sample_gpu) sample.

Definition red : RGBAArray := (1%Qc, 0%Qc, 0%Qc, 1%Qc).

(** ** The read accessor and the copy *)

(** The native textures the system hands out, by the call that makes
    them. *)
Inductive GPUTexture :=
| CurrentTexture (context : GPUCanvasContext)
    (* context.getCurrentTexture() *)
| GpuSource (source : nat).
    (* renderer.texture.getGpuSource(source) *)

(** [getGpuColorTexture(renderTarget)].  Reading [.source] of a missing
    first colour texture throws. *)
Definition getGpuColorTexture (uid : nat) : M GPUTexture :=
  g ← getGpuRenderTarget uid;
  st ← get;
  match contexts (gpuRenderTargets st g) !! 0%nat with
  | Some (Some context) => mret (CurrentTexture context)
  | _ =>
      match colorTextures (renderTargets st uid) !! 0%nat with
      | Some t => mret (GpuSource (source (textures st t)))
      | None => throw TypeError
      end
  end.

(** One call of [commandEncoder.copyTextureToTexture(source, destination,
    size)]: [{texture, origin}], [{texture}] and [{width, height}]. *)
Record CopyTextureToTexture := {
  copy_texture : GPUTexture;
  copy_origin : number * number;
  copy_destination : GPUTexture;
  copy_size : number * number;
}.

(** [copyToTexture(sourceRenderSurfaceTexture, destinationTexture, origin,
    size)].  [renderer.renderTarget] is the system itself, which registers
    under the name 'renderTarget'.  The copies recorded by
    [renderer.encoder.commandEncoder] are passed in and handed back with
    the new one appended. *)
Definition copyToTexture (sourceRenderSurfaceTexture destinationTexture : nat)
    (origin size : number * number) (commandEncoder : list CopyTextureToTexture)
    : M (nat * list CopyTextureToTexture) :=
  baseGpuTexture ← getGpuColorTexture sourceRenderSurfaceTexture;
  st ← get;
  let backGpuTexture := GpuSource (source (textures st destinationTexture)) in
  mret (destinationTexture,
        commandEncoder ++ [{| copy_texture := baseGpuTexture;
                              copy_origin := origin;
                              copy_destination := backGpuTexture;
                              copy_size := size |}]).

(** ** More vocabulary *)

(** Backend targets are handed out from a counter: every registered one
    lies below it, and no two render targets share one. *)
Record gpu_fresh (st : State) : Prop := {
  gf_bound : ∀ r g, gpuRenderTargetHash st !! r = Some g → (g < next_gpu st)%nat;
  gf_inj : ∀ r1 r2 g,
    gpuRenderTargetHash st !! r1 = Some g → gpuRenderTargetHash st !! r2 = Some g →
    r1 = r2;
}.

Definition keeps_fresh : relation State := λ st st', gpu_fresh st → gpu_fresh st'.

(** Only the backend target at [g] is written. *)
Definition only_writes (g : nat) : relation State :=
  λ st st', ∀ g', g' ≠ g → gpuRenderTargets st' g' = gpuRenderTargets st g'.

(** Whether an event belongs to the beginning of a pass. *)
Definition is_pass (e : Event) : bool :=
  match e with
  | BeginRenderPass _ _ | SetMultisampleCount _ | OnRenderTargetChange _ => true
  | _ => false
  end.

(** No pass begins, nothing is pushed or popped, and the current target
    and the root target stay. *)
Record no_pass (st st' : State) : Prop := {
  np_stack : renderTargetStack st' = renderTargetStack st;
  np_renderTarget : renderTarget st' = renderTarget st;
  np_rootRenderTarget : rootRenderTarget st' = rootRenderTarget st;
  np_trace : ∃ evs, trace st' = trace st ++ evs ∧ Forall (λ e, is_pass e = false) evs;
}.

(** The root target is what it was. *)
Definition keeps_root : relation State :=
  λ st st', rootRenderTarget st' = rootRenderTarget st.

(** The view of a colour attachment before multisampling comes in: the
    canvas's current texture where a context was recorded, the texture's
    own view elsewhere. *)
Definition own_view (st : State) (uid t : nat) : GPUTextureView :=
  if is_canvas (resource (source_of st t)) then
    match first_context st uid with
    | Some c => CanvasTextureView c
    | None => TextureView t
    end
  else TextureView t.

(** The sample counts WebGPU is ever asked for here: no multisampling, or
    four samples. *)
Definition sample_count_ok (n : Z) : Prop := n = 1 ∨ n = 4.

Record samples_ok (st : State) : Prop := {
  so_gpu : ∀ g, sample_count_ok (msaaSamples (gpuRenderTargets st g));
  so_trace : ∀ n, SetMultisampleCount n ∈ trace st → sample_count_ok n;
}.

Definition keeps_samples : relation State :=
  λ st st', samples_ok st → samples_ok st'.

(** Every call but [start]. *)
Definition not_start (c : Call) : bool :=
  match c with
  | CallStart _ _ _ => false
  | _ => true
  end.

(** * Reasoning about the monad *)

Ltac munfold :=
  unfold mbind, M_bind, mret, M_ret, get, modify, emit, modify_gpu, throw in *.

Lemma mbind_unfold {A B} (m : M A) (f : A → M B) st :
  (m ≫= f) st =
  match m st with
  | (Ok a, st') => f a st'
  | (Throw e, st') => (Throw e, st')
  end.
Proof. reflexivity. Qed.

Lemma mbind_ok {A B} (m : M A) (f : A → M B) st b st' :
  (m ≫= f) st = (Ok b, st') →
  ∃ a st1, m st = (Ok a, st1) ∧ f a st1 = (Ok b, st').
Proof.
  rewrite mbind_unfold. destruct (m st) as [[a|e] st1]; [eauto | discriminate].
Qed.

(** The loop rule: an invariant that every iteration that returns carries
    one index further holds when the loop returns. *)
Lemma forEach_from_ok {A} (I : nat → State → Prop) (body : A → nat → M unit) l :
  ∀ i st st',
    forEach_from i l body st = (Ok (), st') →
    I i st →
    (∀ k x s s', l !! k = Some x → I (i + k)%nat s →
                 body x (i + k)%nat s = (Ok (), s') → I (S (i + k)) s') →
    I (i + length l)%nat st'.
Proof.
  induction l as [|x l IH]; intros i st st' Hrun Hi Hbody; simpl in Hrun.
  - inversion Hrun; subst. by rewrite Nat.add_0_r.
  - apply mbind_ok in Hrun as ([] & st1 & Hx & Hrest).
    simpl. rewrite <- Nat.add_succ_comm.
    apply (IH (S i) st1 st' Hrest).
    + specialize (Hbody 0%nat x st st1). rewrite Nat.add_0_r in Hbody. by apply Hbody.
    + intros k y s s' Hk Hs Hy. rewrite Nat.add_succ_comm in Hs, Hy |- *.
      by apply (Hbody (S k) y s s').
Qed.

(** A loop whose iterations all return returns. *)
Lemma forEach_from_total {A} (P : State → Prop) (body : A → nat → M unit) l :
  (∀ x i s, x ∈ l → P s → ∃ s', body x i s = (Ok (), s') ∧ P s') →
  ∀ i st, P st → ∃ st', forEach_from i l body st = (Ok (), st') ∧ P st'.
Proof.
  induction l as [|x l IH]; intros Hbody i st HP; simpl.
  - by exists st.
  - destruct (Hbody x i st) as (s' & Hx & HP'); [left|done|].
    destruct (IH (λ y j s Hy, Hbody y j s (list_elem_of_further _ _ _ Hy)) (S i) s' HP')
      as (st' & Hrest & HP'').
    exists st'. rewrite mbind_unfold, Hx. done.
Qed.

Section respects.
Context (R : relation State) `{!PreOrder R}.

Lemma respects_ret {A} (a : A) : respects R (mret a).
Proof. intros st. simpl. reflexivity. Qed.

Lemma respects_throw {A} e : respects R (@throw A e).
Proof. intros st. simpl. reflexivity. Qed.

Lemma respects_get : respects R get.
Proof. intros st. simpl. reflexivity. Qed.

Lemma respects_bind_at {A B} (m : M A) (f : A → M B) st :
  R st (m st).2 →
  (∀ a st1, m st = (Ok a, st1) → R st1 (f a st1).2) →
  R st ((m ≫= f) st).2.
Proof.
  intros Hm Hf. rewrite mbind_unfold.
  destruct (m st) as [[a|e] st1] eqn:E; simpl in *; [|done].
  etrans; [exact Hm|]. by apply Hf.
Qed.

Lemma respects_bind {A B} (m : M A) (f : A → M B) :
  respects R m → (∀ a, respects R (f a)) → respects R (m ≫= f).
Proof. intros Hm Hf st. apply respects_bind_at; [apply Hm|]. intros; apply Hf. Qed.

Lemma respects_try_catch {A} (m : M A) h :
  respects R m → (∀ e, respects R (h e)) → respects R (try_catch m h).
Proof.
  intros Hm Hh st. unfold try_catch. specialize (Hm st).
  destruct (m st) as [[a|e] st1]; simpl in *; [done|].
  etrans; [exact Hm|]. apply Hh.
Qed.

Lemma respects_forEach_from {A} (body : A → nat → M unit) l :
  (∀ x i, respects R (body x i)) → ∀ i, respects R (forEach_from i l body).
Proof.
  intros Hb. induction l as [|x l IH]; intros i; simpl.
  - apply respects_ret.
  - apply respects_bind; [apply Hb|]. intros _. apply IH.
Qed.

Lemma respects_modify f : (∀ st, R st (f st)) → respects R (modify f).
Proof. intros Hf st. apply Hf. Qed.
End respects.

(** Breaks a computation into its steps; [leaf] closes the goal a single
    write leaves. *)
Ltac respects_with leaf :=
  repeat match goal with
    | |- respects _ (mret _) => by (apply respects_ret; apply _)
    | |- respects _ (throw _) => by (apply respects_throw; apply _)
    | |- respects _ get => by (apply respects_get; apply _)
    | |- respects _ (mbind _ _) => (apply respects_bind; try apply _); [|intros ?]
    | |- respects _ (try_catch _ _) => (apply respects_try_catch; try apply _); [|intros ?]
    | |- respects _ (forEach_from _ _ _) => (apply respects_forEach_from; try apply _); intros ??
    | |- respects _ (modify _) => apply respects_modify; intros ?; leaf
    | |- respects _ (match ?x with _ => _ end) => destruct x
    end.

(** ** Counting constructor calls in a trace *)

Lemma constructions_app s t1 t2 :
  constructions s (t1 ++ t2) = (constructions s t1 + constructions s t2)%nat.
Proof. unfold constructions. by rewrite filter_app, length_app. Qed.

Lemma setups_app r t1 t2 :
  setups r (t1 ++ t2) = (setups r t1 + setups r t2)%nat.
Proof. unfold setups. by rewrite filter_app, length_app. Qed.

Lemma constructions_pos s t :
  (0 < constructions s t)%nat → ∃ r, NewRenderTarget s r ∈ t.
Proof.
  unfold constructions. intros H.
  destruct (filter _ t) as [|e l] eqn:E; [simpl in H; lia|].
  assert (e ∈ filter (λ e, is_construction s e) t) as [He Hin]%list_elem_of_filter
    by (rewrite E; left).
  destruct e; simpl in He; try done.
  apply bool_decide_unpack in He. subst. eauto.
Qed.

Lemma constructions_none s t :
  (∀ r, NewRenderTarget s r ∉ t) → constructions s t = 0%nat.
Proof.
  intros H. destruct (constructions s t) as [|n] eqn:E; [done|].
  destruct (constructions_pos s t) as [r Hr]; [lia|]. by destruct (H r).
Qed.

Lemma setups_none r t :
  (∀ g, NewGpuRenderTarget r g ∉ t) → setups r t = 0%nat.
Proof.
  unfold setups. intros H.
  destruct (filter _ t) as [|e l] eqn:E; [done|].
  assert (e ∈ filter (λ e, is_setup r e) t) as [He Hin]%list_elem_of_filter
    by (rewrite E; left).
  destruct e as [| ? ? | ? | ? | ? | ? | ? ? | r' g']; simpl in He; try done.
  apply bool_decide_unpack in He. subst. by destruct (H g').
Qed.

Lemma silent_constructions s t :
  Forall (λ e, is_new e = false) t → constructions s t = 0%nat.
Proof.
  intros H. apply constructions_none. intros r Hr.
  by apply (proj1 (Forall_forall _ _) H) in Hr.
Qed.

Lemma silent_setups r t :
  Forall (λ e, is_new e = false) t → setups r t = 0%nat.
Proof.
  intros H. apply setups_none. intros g Hg.
  by apply (proj1 (Forall_forall _ _) H) in Hg.
Qed.

Lemma no_events (st st' : State) :
  trace st' = trace st →
  ∃ evs,
    trace st' = trace st ++ evs ∧
    (∀ s r, NewRenderTarget s r ∈ evs →
            renderSurfaceToRenderTargetHash st !! s = None
            ∧ is_Some (renderSurfaceToRenderTargetHash st' !! s)) ∧
    (∀ s, (constructions s evs ≤ 1)%nat) ∧
    (∀ r g, NewGpuRenderTarget r g ∈ evs → gpuRenderTargetHash st !! r = None).
Proof.
  intros Ht. exists []. rewrite app_nil_r. split; [done|].
  split; [|split].
  - intros ?? H. inversion H.
  - intros s. unfold constructions. simpl. lia.
  - intros ?? H. inversion H.
Qed.

(** ** The three relations are preorders; [quiet] is the finest *)

Global Instance evolves_preorder : PreOrder evolves.
Proof.
  split.
  - intros st. split; eauto using no_events.
  - intros st1 st2 st3 H12 H23.
    destruct H12 as [h1 g1 r1 hn1 gn1 s1 (evs1 & t1 & c1 & n1 & u1)].
    destruct H23 as [h2 g2 r2 hn2 gn2 s2 (evs2 & t2 & c2 & n2 & u2)].
    split.
    + eauto.
    + eauto.
    + eauto.
    + intros s r H. destruct (hn2 s r H) as [H'|H']; [|by right].
      destruct (hn1 s r H') as [H''|[H'' ?]]; [by left | right; eauto].
    + intros r g H. destruct (gn2 r g H) as [H'|H']; [|by right].
      destruct (gn1 r g H') as [H''|H'']; [by left | right; eauto].
    + intros r H. destruct (s2 r H) as [H'|H']; [|by right].
      destruct (s1 r H') as [H''|[g H'']]; [by left | right; eauto].
    + exists (evs1 ++ evs2). rewrite t2, t1, app_assoc. split; [done|].
      split; [|split].
      * intros s r [H|H]%elem_of_app.
        -- destruct (c1 s r H) as [? [r' ?]]. eauto.
        -- destruct (c2 s r H) as [E ?]. split; [|done].
           destruct (renderSurfaceToRenderTargetHash st1 !! s) as [r'|] eqn:E1; [|done].
           apply h1 in E1. congruence.
      * intros s. rewrite constructions_app.
        pose proof (n1 s). pose proof (n2 s).
        destruct (constructions s evs1) as [|k1] eqn:E1; [lia|].
        destruct (constructions s evs2) as [|k2] eqn:E2; [lia|].
        destruct (constructions_pos s evs1) as [ra Ha]; [lia|].
        destruct (constructions_pos s evs2) as [rb Hb]; [lia|].
        destruct (c1 s ra Ha) as [_ [r' Hr']]. destruct (c2 s rb Hb) as [Hn _].
        congruence.
      * intros r g [H|H]%elem_of_app; [eauto|].
        specialize (u2 r g H).
        destruct (gpuRenderTargetHash st1 !! r) as [g'|] eqn:E; [|done].
        apply g1 in E. congruence.
Qed.

Global Instance stable_preorder : PreOrder stable.
Proof.
  split.
  - intros st. by split.
  - intros st1 st2 st3 [] []. split; intros; etrans; eauto.
Qed.

Global Instance quiet_preorder : PreOrder quiet.
Proof.
  split.
  - intros st. split; try done. exists []. by rewrite app_nil_r.
  - intros st1 st2 st3 [] []. split; try (etrans; eauto).
    destruct q_trace0 as (evs1 & E1 & H1). destruct q_trace1 as (evs2 & E2 & H2).
    exists (evs1 ++ evs2). rewrite E2, E1, app_assoc. split; [done|]. by apply Forall_app.
Qed.

Lemma quiet_stable st st' : quiet st st' → stable st st'.
Proof. intros []. split; intros; congruence. Qed.

Lemma quiet_evolves st st' : quiet st st' → evolves st st'.
Proof.
  intros [? ? Hr ? ? ? ? ? Hh Hg Hs ? (evs & Ht & Hsilent)].
  split; rewrite ?Hh, ?Hg, ?Hs, ?Hr; try (by eauto).
  exists evs. split; [done|].
  split; [|split].
  - intros s r H. by apply (proj1 (Forall_forall _ _) Hsilent) in H.
  - intros s. rewrite silent_constructions by done. lia.
  - intros r g H. by apply (proj1 (Forall_forall _ _) Hsilent) in H.
Qed.

(** A step that leaves caches, stack, trace and root flags alone. *)
Lemma evolves_same st st' :
  renderSurfaceToRenderTargetHash st' = renderSurfaceToRenderTargetHash st →
  gpuRenderTargetHash st' = gpuRenderTargetHash st →
  renderTargetStack st' = renderTargetStack st →
  trace st' = trace st →
  (∀ r, isRoot (renderTargets st' r) = isRoot (renderTargets st r)) →
  evolves st st'.
Proof.
  intros Hh Hg Hs Ht Hr. split; try (rewrite ?Hh, ?Hg, ?Hs, ?Hr; by eauto).
  by apply no_events.
Qed.

(** A step that only tells a collaborator something. *)
Lemma evolves_emit e st :
  is_new e = false → evolves st (upd_trace (λ t, t ++ [e]) st).
Proof.
  intros He. split; simpl; eauto.
  exists [e]. split; [done|].
  split; [|split].
  - intros a b H%list_elem_of_singleton. by subst.
  - intros s. rewrite silent_constructions; [lia|]. by constructor.
  - intros a b H%list_elem_of_singleton. by subst.
Qed.

Ltac evolves_leaf :=
  first [ by apply evolves_emit
        | apply evolves_same; intros; reflexivity ].

Ltac stable_leaf :=
  split; intros; simpl; unfold insert, fn_insert; try case_decide; subst; reflexivity.

Ltac quiet_leaf :=
  split; try reflexivity; simpl;
  first [ by (exists []; rewrite app_nil_r)
        | by (eexists [_]; split; [reflexivity | by repeat constructor]) ].

(** * The system, method by method *)

(** ** The loops *)

Lemma getContext_same r st : (getContext r st).2 = st.
Proof. by destruct r. Qed.

Lemma colorTexture_source_same uid st : (colorTexture_source uid st).2 = st.
Proof. unfold colorTexture_source. by destruct (head _). Qed.

Lemma configure_quiet context : respects quiet (configure context).
Proof. unfold configure, emit. respects_with quiet_leaf. Qed.

Lemma initGpuRenderTarget_attachment_quiet uid g t i :
  respects quiet (initGpuRenderTarget_attachment uid g t i).
Proof.
  unfold initGpuRenderTarget_attachment, emit, modify_gpu.
  respects_with quiet_leaf;
    try (intros st; rewrite ?getContext_same, ?colorTexture_source_same; reflexivity);
    try apply configure_quiet.
Qed.

Lemma resizeGpuRenderTarget_attachment_quiet g t i :
  respects quiet (resizeGpuRenderTarget_attachment g t i).
Proof. unfold resizeGpuRenderTarget_attachment, modify_gpu. respects_with quiet_leaf. Qed.

Lemma initGpuRenderTarget_loop_quiet uid g l st :
  quiet st (forEach l (initGpuRenderTarget_attachment uid g) st).2.
Proof.
  apply (respects_forEach_from quiet). apply initGpuRenderTarget_attachment_quiet.
Qed.

Lemma resizeGpuRenderTarget_loop_quiet g l st :
  quiet st (forEach l (resizeGpuRenderTarget_attachment g) st).2.
Proof.
  apply (respects_forEach_from quiet). apply resizeGpuRenderTarget_attachment_quiet.
Qed.

(** ** Setting up and looking up a backend target *)

Lemma initGpuRenderTarget_unfold uid st :
  initGpuRenderTarget uid st =
  match forEach (colorTextures (renderTargets st uid))
          (initGpuRenderTarget_attachment uid (next_gpu st))
          (initGpuRenderTarget_begin uid st) with
  | (Ok _, st4) => (Ok (next_gpu st), initGpuRenderTarget_end uid (next_gpu st) st4)
  | (Throw e, st4) => (Throw e, st4)
  end.
Proof.
  unfold initGpuRenderTarget, initGpuRenderTarget_begin, initGpuRenderTarget_end.
  munfold. simpl. rewrite fn_lookup_insert. simpl.
  destruct (forEach _ _ _) as [[[]|e] st4]; [|done].
  destruct (msaa _); [|done]. simpl.
  by destruct (depthTexture _).
Qed.

Lemma initGpuRenderTarget_begin_evolves uid st :
  gpuRenderTargetHash st !! uid = None →
  evolves st (initGpuRenderTarget_begin uid st).
Proof.
  intros Hnone. split; simpl; eauto.
  - intros r Hr. unfold insert, fn_insert. by case_decide; subst.
  - exists [NewGpuRenderTarget uid (next_gpu st)]. split; [done|].
    split; [|split].
    + intros a b H%list_elem_of_singleton. inversion H.
    + intros s. rewrite constructions_none; [lia|].
      intros r H%list_elem_of_singleton. inversion H.
    + intros a b H%list_elem_of_singleton. inversion H. by subst.
Qed.

Lemma initGpuRenderTarget_begin_stable uid st :
  stable st (initGpuRenderTarget_begin uid st).
Proof.
  split; simpl; try done.
  intros r. unfold insert, fn_insert. by case_decide; subst.
Qed.

Lemma initGpuRenderTarget_end_frame uid g st :
  let st' := initGpuRenderTarget_end uid g st in
  gpuRenderTargetHash st' = <[uid := g]> (gpuRenderTargetHash st)
  ∧ renderSurfaceToRenderTargetHash st' = renderSurfaceToRenderTargetHash st
  ∧ renderTargetStack st' = renderTargetStack st
  ∧ trace st' = trace st
  ∧ renderTargets st' = renderTargets st
  ∧ textures st' = textures st.
Proof.
  unfold initGpuRenderTarget_end.
  destruct (msaa _); [|done]. by destruct (depthTexture _).
Qed.

Lemma initGpuRenderTarget_end_evolves uid g st :
  gpuRenderTargetHash st !! uid = None →
  isRoot (renderTargets st uid) = true →
  evolves st (initGpuRenderTarget_end uid g st).
Proof.
  intros Hnone Hroot.
  destruct (initGpuRenderTarget_end_frame uid g st) as (Hg & Hh & Hs & Ht & Hr & _).
  split; try (by apply no_events); rewrite ?Hh, ?Hs, ?Hg, ?Hr; try (by eauto).
  - intros r g' Hl. destruct (decide (r = uid)) as [->|]; [congruence|].
    by rewrite lookup_insert_ne.
  - intros r g'. destruct (decide (r = uid)) as [->|].
    + intros _. by right.
    + rewrite lookup_insert_ne by done. by left.
Qed.

Lemma initGpuRenderTarget_end_stable uid g st :
  stable st (initGpuRenderTarget_end uid g st).
Proof.
  unfold initGpuRenderTarget_end.
  destruct (msaa _); [|by split]. destruct (depthTexture _); split; simpl; try done.
  intros s. unfold insert, fn_insert. by case_decide; subst.
Qed.

Lemma initGpuRenderTarget_evolves uid st :
  gpuRenderTargetHash st !! uid = None →
  evolves st (initGpuRenderTarget uid st).2.
Proof.
  intros Hnone. rewrite initGpuRenderTarget_unfold.
  pose proof (initGpuRenderTarget_loop_quiet uid (next_gpu st)
    (colorTextures (renderTargets st uid)) (initGpuRenderTarget_begin uid st)) as Hq.
  destruct (forEach _ _ _) as [[[]|e] st4]; simpl in *.
  - etrans; [by apply initGpuRenderTarget_begin_evolves|].
    etrans; [by apply quiet_evolves|].
    apply initGpuRenderTarget_end_evolves.
    + by rewrite (q_gpuHash _ _ Hq).
    + rewrite (q_renderTargets _ _ Hq). simpl. by rewrite fn_lookup_insert.
  - etrans; [by apply initGpuRenderTarget_begin_evolves|by apply quiet_evolves].
Qed.

Lemma initGpuRenderTarget_stable uid : respects stable (initGpuRenderTarget uid).
Proof.
  intros st. rewrite initGpuRenderTarget_unfold.
  pose proof (initGpuRenderTarget_loop_quiet uid (next_gpu st)
    (colorTextures (renderTargets st uid)) (initGpuRenderTarget_begin uid st))
    as Hq%quiet_stable.
  destruct (forEach _ _ _) as [[[]|e] st4]; simpl in *.
  - etrans; [apply initGpuRenderTarget_begin_stable|]. etrans; [exact Hq|].
    apply initGpuRenderTarget_end_stable.
  - etrans; [apply initGpuRenderTarget_begin_stable|exact Hq].
Qed.

Lemma initGpuRenderTarget_ok uid st g st' :
  initGpuRenderTarget uid st = (Ok g, st') →
  gpuRenderTargetHash st' !! uid = Some g.
Proof.
  rewrite initGpuRenderTarget_unfold.
  destruct (forEach _ _ _) as [[[]|e] st4]; [|done].
  intros [= <- <-].
  destruct (initGpuRenderTarget_end_frame uid (next_gpu st) st4) as (-> & _).
  apply lookup_insert_eq.
Qed.

Lemma getGpuRenderTarget_hit uid g st :
  gpuRenderTargetHash st !! uid = Some g →
  getGpuRenderTarget uid st = (Ok g, st).
Proof. intros H. unfold getGpuRenderTarget. munfold. by rewrite H. Qed.

Lemma getGpuRenderTarget_miss uid st :
  gpuRenderTargetHash st !! uid = None →
  getGpuRenderTarget uid st = initGpuRenderTarget uid st.
Proof. intros H. unfold getGpuRenderTarget. munfold. by rewrite H. Qed.

Lemma getGpuRenderTarget_evolves uid : respects evolves (getGpuRenderTarget uid).
Proof.
  intros st. destruct (gpuRenderTargetHash st !! uid) as [g|] eqn:E.
  - by rewrite (getGpuRenderTarget_hit _ _ _ E).
  - rewrite (getGpuRenderTarget_miss _ _ E). by apply initGpuRenderTarget_evolves.
Qed.

Lemma getGpuRenderTarget_stable uid : respects stable (getGpuRenderTarget uid).
Proof.
  intros st. destruct (gpuRenderTargetHash st !! uid) as [g|] eqn:E.
  - by rewrite (getGpuRenderTarget_hit _ _ _ E).
  - rewrite (getGpuRenderTarget_miss _ _ E). apply initGpuRenderTarget_stable.
Qed.

Lemma getGpuRenderTarget_ok uid st g st' :
  getGpuRenderTarget uid st = (Ok g, st') →
  gpuRenderTargetHash st' !! uid = Some g.
Proof.
  destruct (gpuRenderTargetHash st !! uid) as [g0|] eqn:E.
  - rewrite (getGpuRenderTarget_hit _ _ _ E). by intros [= <- <-].
  - rewrite (getGpuRenderTarget_miss _ _ E). apply initGpuRenderTarget_ok.
Qed.

Create HintDb respects.
#[local] Hint Resolve getGpuRenderTarget_evolves getGpuRenderTarget_stable : respects.

Ltac respects_auto leaf :=
  respects_with leaf; try (by eauto with respects).

(** ** Resizing a backend target and describing a pass *)

Lemma resizeGpuRenderTarget_evolves uid : respects evolves (resizeGpuRenderTarget uid).
Proof.
  unfold resizeGpuRenderTarget, forEach, modify_gpu. respects_auto evolves_leaf.
  intros st. apply quiet_evolves, resizeGpuRenderTarget_attachment_quiet.
Qed.

Lemma resizeGpuRenderTarget_stable uid : respects stable (resizeGpuRenderTarget uid).
Proof.
  unfold resizeGpuRenderTarget, forEach, modify_gpu. respects_auto stable_leaf.
  intros st. apply quiet_stable, resizeGpuRenderTarget_attachment_quiet.
Qed.

Lemma getDescriptor_evolves uid cl cv : respects evolves (getDescriptor uid cl cv).
Proof. unfold getDescriptor. respects_auto evolves_leaf. Qed.

Lemma getDescriptor_stable uid cl cv : respects stable (getDescriptor uid cl cv).
Proof. unfold getDescriptor. respects_auto stable_leaf. Qed.

Lemma getDescriptor_hit uid g cl cv st :
  gpuRenderTargetHash st !! uid = Some g →
  getDescriptor uid cl cv st = (Ok (descriptor_of st uid g cl cv), st).
Proof.
  intros H. unfold getDescriptor. rewrite mbind_unfold, (getGpuRenderTarget_hit _ _ _ H).
  reflexivity.
Qed.

#[local] Hint Resolve
  resizeGpuRenderTarget_evolves resizeGpuRenderTarget_stable
  getDescriptor_evolves getDescriptor_stable : respects.

(** ** Resolving a surface *)

Lemma initRenderTarget_evolves s st :
  renderSurfaceToRenderTargetHash st !! s = None →
  evolves st (initRenderTarget s st).2.
Proof.
  intros Hnone.
  assert (∀ (st1 : State) r evs,
    renderSurfaceToRenderTargetHash st1 = renderSurfaceToRenderTargetHash st →
    gpuRenderTargetHash st1 = gpuRenderTargetHash st →
    renderTargetStack st1 = renderTargetStack st →
    trace st1 = trace st ++ evs →
    (∀ s' r', NewRenderTarget s' r' ∈ evs → s' = s) →
    (length evs ≤ 1)%nat →
    (∀ r' g', NewGpuRenderTarget r' g' ∉ evs) →
    (∀ r', r' ≠ r → isRoot (renderTargets st r') = true →
           isRoot (renderTargets st1 r') = true) →
    resolves s r →
    evolves st
      (upd_renderSurfaceToRenderTargetHash (λ m, <[s := r]> m)
         (upd_renderTargets (λ h, <[r := set_isRoot true (h r)]> h) st1))) as Hgen.
  { intros st1 r evs Hh Hg Hs Ht Hc Hlen Hu Hr Hres.
    split; simpl; rewrite ?Hh, ?Hg, ?Hs, ?Ht.
    - intros s' r' Hl. destruct (decide (s' = s)) as [->|]; [congruence|].
      by rewrite lookup_insert_ne.
    - done.
    - intros r' Hr'. unfold insert at 1, fn_insert. case_decide; [by subst|]. by apply Hr.
    - intros s' r'. destruct (decide (s' = s)) as [->|].
      + rewrite lookup_insert_eq. intros [= <-]. right. by rewrite fn_lookup_insert.
      + rewrite lookup_insert_ne by done. by left.
    - by left.
    - by left.
    - exists evs. split; [done|]. split; [|split].
      + intros s' r' ->%Hc. split; [done|]. rewrite lookup_insert_eq. eauto.
      + intros s'. unfold constructions.
        etrans; [apply length_filter|done].
      + intros r' g' H. by destruct (Hu r' g'). }
  destruct s as [c|t|r|]; unfold initRenderTarget, RenderTarget_new; munfold; simpl.
  - reflexivity.
  - apply Hgen with (evs := [NewRenderTarget (SurfTexture t) (next_uid st)]); simpl; try done.
    + by intros s' r' [= -> ->]%list_elem_of_singleton.
    + by intros r' g' H%list_elem_of_singleton.
    + intros r' Hne. unfold insert, fn_insert. by case_decide.
  - apply Hgen with (evs := []); simpl; try done.
    + by rewrite app_nil_r.
    + intros s' r' H. inversion H.
    + lia.
    + intros r' g' H. inversion H.
  - reflexivity.
Qed.

Lemma getRenderTarget_hit s r st :
  renderSurfaceToRenderTargetHash st !! s = Some r →
  getRenderTarget s st = (Ok r, st).
Proof. intros H. unfold getRenderTarget. munfold. by rewrite H. Qed.

Lemma getRenderTarget_miss s st :
  renderSurfaceToRenderTargetHash st !! s = None →
  getRenderTarget s st = initRenderTarget s st.
Proof. intros H. unfold getRenderTarget. munfold. by rewrite H. Qed.

Lemma getRenderTarget_evolves s : respects evolves (getRenderTarget s).
Proof.
  intros st. destruct (renderSurfaceToRenderTargetHash st !! s) as [r|] eqn:E.
  - by rewrite (getRenderTarget_hit _ _ _ E).
  - rewrite (getRenderTarget_miss _ _ E). by apply initRenderTarget_evolves.
Qed.

Lemma initRenderTarget_ok s st r st' :
  initRenderTarget s st = (Ok r, st') →
  renderSurfaceToRenderTargetHash st' !! s = Some r.
Proof.
  destruct s as [c|t|r0|]; unfold initRenderTarget, RenderTarget_new; munfold; simpl;
    intros [= <- <-]; simpl; apply lookup_insert_eq.
Qed.

Lemma getRenderTarget_ok s st r st' :
  getRenderTarget s st = (Ok r, st') →
  renderSurfaceToRenderTargetHash st' !! s = Some r.
Proof.
  destruct (renderSurfaceToRenderTargetHash st !! s) as [r0|] eqn:E.
  - rewrite (getRenderTarget_hit _ _ _ E). by intros [= <- <-].
  - rewrite (getRenderTarget_miss _ _ E). apply initRenderTarget_ok.
Qed.

Lemma getRenderTarget_frame s st :
  let st' := (getRenderTarget s st).2 in
  renderTargetStack st' = renderTargetStack st
  ∧ rootRenderTarget st' = rootRenderTarget st
  ∧ renderTarget st' = renderTarget st
  ∧ gpuRenderTargetHash st' = gpuRenderTargetHash st
  ∧ gpuRenderTargets st' = gpuRenderTargets st
  ∧ sources st' = sources st
  ∧ textures st' = textures st.
Proof.
  unfold getRenderTarget, initRenderTarget, RenderTarget_new. munfold.
  destruct (renderSurfaceToRenderTargetHash st !! s); [done|].
  by destruct s.
Qed.

#[local] Hint Resolve getRenderTarget_evolves : respects.

(** ** One iteration of each loop *)

Lemma initGpuRenderTarget_attachment_ok uid g t i s s' :
  initGpuRenderTarget_attachment uid g t i s = (Ok (), s') →
  gpuRenderTargets s' g = attachment_setup s uid t i (gpuRenderTargets s g)
  ∧ (∀ g', g' ≠ g → gpuRenderTargets s' g' = gpuRenderTargets s g')
  ∧ trace s' = trace s ++ attachment_events s uid t.
Proof.
  unfold initGpuRenderTarget_attachment, attachment_setup, attachment_events,
    first_context, source_of, colorTexture_source, getContext, configure, try_catch.
  munfold.
  destruct (resource (sources s (source (textures s t)))) as [c|c|] eqn:Eres; simpl.
  2,3: destruct (antialias _); intros [= <-]; simpl;
       rewrite ?fn_lookup_insert, ?app_nil_r; (split; [done|]); (split; [|done]);
       intros g' Hg'; by rewrite ?fn_lookup_insert_ne.
  destruct (head _) as [t0|]; [|done].
  destruct (resource (sources s (source (textures s t0)))) as [c0|c0|]; [| |done].
  all: destruct c0 as [c0|]; simpl;
    [destruct (gpu s) as [dev|]; simpl; [destruct (configure_throws c0)|]|]; simpl.
  all: destruct (antialias _); intros [= <-]; simpl;
       rewrite ?fn_lookup_insert, ?app_nil_r, <- ?app_assoc; (split; [done|]); (split; [|done]);
       intros g' Hg'; by rewrite ?fn_lookup_insert_ne.
Qed.

Lemma initGpuRenderTarget_attachment_total uid g t i s :
  (is_canvas (resource (source_of s t)) = true →
   ∃ t0, head (colorTextures (renderTargets s uid)) = Some t0
         ∧ resource (source_of s t0) ≠ PlainResource) →
  ∃ s', initGpuRenderTarget_attachment uid g t i s = (Ok (), s').
Proof.
  unfold initGpuRenderTarget_attachment, source_of, colorTexture_source, getContext,
    configure, try_catch.
  munfold. intros Hfirst.
  destruct (resource (sources s (source (textures s t)))) as [c|c|] eqn:Eres; simpl.
  2,3: destruct (antialias _); eauto.
  destruct Hfirst as (t0 & -> & Hres); [done|].
  destruct (resource (sources s (source (textures s t0)))) as [c0|c0|]; [| |done].
  all: destruct c0 as [c0|]; simpl;
    [destruct (gpu s) as [dev|]; simpl; [destruct (configure_throws c0)|]|]; simpl.
  all: destruct (antialias _); eauto.
Qed.

Lemma attachment_setup_msaaSamples st uid t i G :
  msaaSamples (attachment_setup st uid t i G) = msaaSamples G.
Proof.
  unfold attachment_setup. destruct (antialias _), (is_canvas _); reflexivity.
Qed.

Lemma attachment_setup_msaa st uid t i G :
  msaa (attachment_setup st uid t i G) = antialias (source_of st t).
Proof.
  unfold attachment_setup. destruct (antialias _), (is_canvas _); reflexivity.
Qed.

Lemma attachment_setup_msaaTextures st uid t i G j :
  msaaTextures (attachment_setup st uid t i G) !! j =
  if decide (j = i) then
    (if antialias (source_of st t) then Some (TextureSource_new 0%Qc 0%Qc 4)
     else msaaTextures G !! j)
  else msaaTextures G !! j.
Proof.
  unfold attachment_setup.
  destruct (antialias _), (is_canvas _); simpl; case_decide; subst;
    rewrite ?lookup_insert_eq, ?lookup_insert_ne by done; reflexivity.
Qed.

Lemma attachment_setup_contexts st uid t i G j :
  contexts (attachment_setup st uid t i G) !! j =
  if decide (j = i) then
    (if is_canvas (resource (source_of st t)) then Some (first_context st uid)
     else contexts G !! j)
  else contexts G !! j.
Proof.
  unfold attachment_setup.
  destruct (antialias _), (is_canvas _); simpl; case_decide; subst;
    rewrite ?lookup_insert_eq, ?lookup_insert_ne by done; reflexivity.
Qed.

Lemma quiet_source_of st st' t : quiet st st' → source_of st' t = source_of st t.
Proof. intros []. unfold source_of. congruence. Qed.

Lemma quiet_first_context st st' uid :
  quiet st st' → first_context st' uid = first_context st uid.
Proof.
  intros H. unfold first_context. rewrite (q_renderTargets _ _ H).
  destruct (head _); [|done]. by rewrite (quiet_source_of _ _ _ H).
Qed.

Lemma quiet_step {A} (m : M A) st a st' :
  respects quiet m → m st = (Ok a, st') → quiet st st'.
Proof. intros Hm E. specialize (Hm st). by rewrite E in Hm. Qed.

(** ** The loop of [initGpuRenderTarget] *)

Lemma initGpuRenderTarget_loop_msaa uid g l sb s' :
  forEach l (initGpuRenderTarget_attachment uid g) sb = (Ok (), s') →
  msaaTextures (gpuRenderTargets sb g) = ∅ →
  msaaSamples (gpuRenderTargets s' g) = msaaSamples (gpuRenderTargets sb g)
  ∧ msaa (gpuRenderTargets s' g) =
      (if l is [] then msaa (gpuRenderTargets sb g) else init_msaa sb l)
  ∧ ∀ i, msaaTextures (gpuRenderTargets s' g) !! i = init_msaaTextures sb l i.
Proof.
  intros Hrun Hempty.
  pose (I := λ (k : nat) (s : State),
    quiet sb s
    ∧ msaaSamples (gpuRenderTargets s g) = msaaSamples (gpuRenderTargets sb g)
    ∧ msaa (gpuRenderTargets s g) =
        (if take k l is [] then msaa (gpuRenderTargets sb g) else init_msaa sb (take k l))
    ∧ ∀ i, msaaTextures (gpuRenderTargets s g) !! i =
           if decide (i < k)%nat then init_msaaTextures sb l i else None).
  assert (I (0 + length l)%nat s') as (Hq & Hs & Hm & Ht).
  { apply (forEach_from_ok I _ l 0%nat sb s' Hrun).
    - split; [done|]. split; [done|]. rewrite take_0. split; [done|].
      intros i. rewrite Hempty, lookup_empty. by case_decide; [lia|].
    - intros k x s s1 Hk (Hq & Hs & Hm & Ht) Hbody. simpl in *.
      pose proof (quiet_step _ _ _ _ (initGpuRenderTarget_attachment_quiet uid g x k) Hbody)
        as Hq1.
      apply initGpuRenderTarget_attachment_ok in Hbody as (Hg & _ & _).
      split; [by etrans|]. rewrite Hg.
      rewrite attachment_setup_msaaSamples, attachment_setup_msaa.
      rewrite (quiet_source_of _ _ _ Hq).
      split; [done|]. split.
      + rewrite (take_S_r _ _ _ Hk). unfold init_msaa. rewrite last_snoc. simpl.
        by destruct (take k l).
      + intros i. rewrite attachment_setup_msaaTextures, Ht, (quiet_source_of _ _ _ Hq).
        unfold init_msaaTextures.
        repeat case_decide; subst; try lia; rewrite ?Hk; try done.
        all: by destruct (antialias _). }
  simpl in *. rewrite firstn_all in Hm.
  split; [done|]. split; [done|].
  intros i. rewrite Ht. case_decide; [done|].
  unfold init_msaaTextures. by rewrite lookup_ge_None_2 by lia.
Qed.

Lemma initGpuRenderTarget_loop_contexts uid g l sb s' :
  forEach l (initGpuRenderTarget_attachment uid g) sb = (Ok (), s') →
  ∀ i t, l !! i = Some t → is_canvas (resource (source_of sb t)) = true →
    contexts (gpuRenderTargets s' g) !! i = Some (first_context sb uid)
    ∧ ∀ e, configure_error (gpu sb) (first_context sb uid) = Some e → ConsoleError e ∈ trace s'.
Proof.
  intros Hrun.
  pose (I := λ (k : nat) (s : State),
    quiet sb s
    ∧ ∀ i t, (i < k)%nat → l !! i = Some t → is_canvas (resource (source_of sb t)) = true →
        contexts (gpuRenderTargets s g) !! i = Some (first_context sb uid)
        ∧ ∀ e, configure_error (gpu sb) (first_context sb uid) = Some e →
               ConsoleError e ∈ trace s).
  assert (I (0 + length l)%nat s') as (Hq & HI).
  { apply (forEach_from_ok I _ l 0%nat sb s' Hrun).
    - split; [done|]. intros i t Hi. lia.
    - intros k x s s1 Hk (Hq & HI) Hbody. simpl in *.
      pose proof (quiet_step _ _ _ _ (initGpuRenderTarget_attachment_quiet uid g x k) Hbody)
        as Hq1.
      apply initGpuRenderTarget_attachment_ok in Hbody as (Hg & _ & Htr).
      split; [by etrans|].
      intros i t Hi Hl Hc. rewrite Hg, attachment_setup_contexts, Htr.
      rewrite (quiet_source_of _ _ _ Hq), (quiet_first_context _ _ _ Hq).
      destruct (decide (i = k)) as [->|].
      + assert (t = x) as -> by congruence. rewrite Hc. split; [done|].
        intros e He. apply elem_of_app. right.
        unfold attachment_events.
        rewrite (quiet_source_of _ _ _ Hq), (quiet_first_context _ _ _ Hq),
          (q_gpu _ _ Hq), Hc.
        unfold configure_error in He.
        destruct (first_context sb uid) as [c|], (gpu sb) as [dev|].
        * destruct (configure_throws c); [|done]. injection He as <-.
          right. left.
        * injection He as <-. left.
        * injection He as <-. left.
        * injection He as <-. left.
      + destruct (HI i t) as (Hctx & Herr); [lia|done|done|].
        split; [done|]. intros e He. apply elem_of_app. left. by apply Herr. }
  intros i t Hl Hc. apply (HI i t); [|done|done].
  simpl. by apply lookup_lt_Some in Hl.
Qed.

Lemma initGpuRenderTarget_loop_total uid g l sb :
  (∀ t, t ∈ l → is_canvas (resource (source_of sb t)) = true →
        ∃ t0, head (colorTextures (renderTargets sb uid)) = Some t0
              ∧ resource (source_of sb t0) ≠ PlainResource) →
  ∃ s', forEach l (initGpuRenderTarget_attachment uid g) sb = (Ok (), s').
Proof.
  intros Hfirst.
  destruct (forEach_from_total (quiet sb) (initGpuRenderTarget_attachment uid g) l)
    with (i := 0%nat) (st := sb) as (s' & Hs' & _); [|done|by exists s'].
  intros x i s Hx Hq.
  destruct (initGpuRenderTarget_attachment_total uid g x i s) as [s1 Hs1].
  - rewrite (quiet_source_of _ _ _ Hq), (q_renderTargets _ _ Hq). intros Hc.
    destruct (Hfirst x Hx Hc) as (t0 & Hh & Hr). exists t0.
    by rewrite (quiet_source_of _ _ _ Hq).
  - exists s1. split; [done|]. etrans; [exact Hq|].
    apply (quiet_step _ _ _ _ (initGpuRenderTarget_attachment_quiet uid g x i) Hs1).
Qed.

(** ** The loop of [resizeGpuRenderTarget] *)

Lemma resizeGpuRenderTarget_attachment_run g t i s :
  ∃ s', resizeGpuRenderTarget_attachment g t i s = (Ok (), s')
    ∧ gpu_rest (gpuRenderTargets s' g) = gpu_rest (gpuRenderTargets s g)
    ∧ gpu_width (gpuRenderTargets s' g) = gpu_width (gpuRenderTargets s g)
    ∧ gpu_height (gpuRenderTargets s' g) = gpu_height (gpuRenderTargets s g)
    ∧ ∀ j, msaaTextures (gpuRenderTargets s' g) !! j =
           if decide (j = i)
           then TextureSource_resize (src_width (source_of s t)) (src_height (source_of s t))
                  (resolution (source_of s t)) <$> msaaTextures (gpuRenderTargets s g) !! i
           else msaaTextures (gpuRenderTargets s g) !! j.
Proof.
  unfold resizeGpuRenderTarget_attachment, source_of. munfold.
  destruct (msaaTextures (gpuRenderTargets s g) !! i) as [m|] eqn:E; simpl.
  - eexists. split; [done|]. simpl. rewrite fn_lookup_insert. simpl.
    repeat split. intros j. case_decide; subst.
    + by rewrite lookup_insert_eq.
    + by rewrite lookup_insert_ne.
  - eexists. split; [done|]. repeat split. intros j. by case_decide; subst.
Qed.

Lemma resizeGpuRenderTarget_loop g l sb :
  ∃ s', forEach l (resizeGpuRenderTarget_attachment g) sb = (Ok (), s')
    ∧ quiet sb s'
    ∧ gpu_rest (gpuRenderTargets s' g) = gpu_rest (gpuRenderTargets sb g)
    ∧ gpu_width (gpuRenderTargets s' g) = gpu_width (gpuRenderTargets sb g)
    ∧ gpu_height (gpuRenderTargets s' g) = gpu_height (gpuRenderTargets sb g)
    ∧ ∀ i, msaaTextures (gpuRenderTargets s' g) !! i =
           resized_msaaTexture sb l (msaaTextures (gpuRenderTargets sb g)) i.
Proof.
  destruct (forEach_from_total (λ _, True) (resizeGpuRenderTarget_attachment g) l)
    with (i := 0%nat) (st := sb) as (s' & Hrun & _); [|done|].
  { intros x i s _ _. destruct (resizeGpuRenderTarget_attachment_run g x i s) as (s1 & ? & _).
    by exists s1. }
  exists s'. split; [done|].
  pose (I := λ (k : nat) (s : State),
    quiet sb s
    ∧ gpu_rest (gpuRenderTargets s g) = gpu_rest (gpuRenderTargets sb g)
    ∧ gpu_width (gpuRenderTargets s g) = gpu_width (gpuRenderTargets sb g)
    ∧ gpu_height (gpuRenderTargets s g) = gpu_height (gpuRenderTargets sb g)
    ∧ ∀ i, msaaTextures (gpuRenderTargets s g) !! i =
           if decide (i < k)%nat
           then resized_msaaTexture sb l (msaaTextures (gpuRenderTargets sb g)) i
           else msaaTextures (gpuRenderTargets sb g) !! i).
  assert (I (0 + length l)%nat s') as (Hq & Hr & Hw & Hh & Ht).
  { apply (forEach_from_ok I _ l 0%nat sb s' Hrun).
    - do 4 (split; [done|]). intros i. by case_decide; [lia|].
    - intros k x s s1 Hk (Hq & Hr & Hw & Hh & Ht) Hbody. simpl in *.
      pose proof (quiet_step _ _ _ _ (resizeGpuRenderTarget_attachment_quiet g x k) Hbody)
        as Hq1.
      destruct (resizeGpuRenderTarget_attachment_run g x k s)
        as (s1' & Hbody' & Hr1 & Hw1 & Hh1 & Ht1).
      assert (s1' = s1) as -> by congruence.
      split; [by etrans|]. split; [congruence|]. split; [congruence|]. split; [congruence|].
      intros i. rewrite Ht1, !Ht, (quiet_source_of _ _ _ Hq).
      unfold resized_msaaTexture.
      repeat case_decide; subst; try lia; rewrite ?Hk; try done.
      all: by destruct (msaaTextures (gpuRenderTargets sb g) !! k). }
  simpl in *. do 4 (split; [done|]).
  intros i. rewrite Ht. case_decide; [done|].
  unfold resized_msaaTexture. by rewrite lookup_ge_None_2 by lia.
Qed.

(** ** [resizeGpuRenderTarget] and [bind], step by step *)

Lemma resizeGpuRenderTarget_run uid g st :
  gpuRenderTargetHash st !! uid = Some g →
  ∃ st', resizeGpuRenderTarget uid st = (Ok (), st')
    ∧ quiet st st'
    ∧ gpu_rest (gpuRenderTargets st' g) = gpu_rest (gpuRenderTargets st g)
    ∧ gpu_width (gpuRenderTargets st' g) = Some (width (renderTargets st uid))
    ∧ gpu_height (gpuRenderTargets st' g) = Some (height (renderTargets st uid))
    ∧ ∀ i, msaaTextures (gpuRenderTargets st' g) !! i =
           if msaa (gpuRenderTargets st g)
           then resized_msaaTexture st (colorTextures (renderTargets st uid))
                  (msaaTextures (gpuRenderTargets st g)) i
           else msaaTextures (gpuRenderTargets st g) !! i.
Proof.
  intros Hg. unfold resizeGpuRenderTarget.
  rewrite mbind_unfold, (getGpuRenderTarget_hit _ _ _ Hg). munfold. simpl.
  set (st1 := upd_gpuRenderTargets _ st).
  assert (quiet st st1) as Hq1 by (split; try done; exists []; by rewrite app_nil_r).
  destruct (msaa (gpuRenderTargets st g)) eqn:Em.
  - destruct (resizeGpuRenderTarget_loop g (colorTextures (renderTargets st uid)) st1)
      as (s' & Hrun & Hq & Hr & Hw & Hh & Ht).
    exists s'. split; [done|]. split; [by etrans|].
    subst st1. simpl in *. rewrite fn_lookup_insert in Hr, Hw, Hh, Ht. simpl in *.
    by do 3 (split; [done|]).
  - exists st1. split; [done|]. split; [done|]. subst st1. simpl.
    rewrite fn_lookup_insert. simpl. by do 3 (split; [done|]).
Qed.

Lemma bind_unfold s cl cc st :
  bind s cl cc st =
  match getRenderTarget s st with
  | (Ok r, st1) =>
      match getGpuRenderTarget r (upd_renderTarget (λ _, Some r) st1) with
      | (Ok g, st2) =>
          match (if decide (size_differs st2 r g)
                 then resizeGpuRenderTarget r st2 else (Ok (), st2)) with
          | (Ok _, st3) =>
              match getDescriptor r (default true cl) cc st3 with
              | (Ok d, st4) => (Ok r, bind_end r g d st4)
              | (Throw e, st4) => (Throw e, st4)
              end
          | (Throw e, st3) => (Throw e, st3)
          end
      | (Throw e, st2) => (Throw e, st2)
      end
  | (Throw e, st1) => (Throw e, st1)
  end.
Proof.
  unfold bind, bind_end, size_differs. munfold.
  destruct (getRenderTarget s st) as [[r|e] st1]; [|done]. simpl.
  destruct (getGpuRenderTarget r _) as [[g|e] st2]; [|done].
  destruct (decide _); [destruct (resizeGpuRenderTarget r st2) as [[[]|e] st3]|]; try done.
  all: destruct (getDescriptor r _ cc _) as [[d|e] st4]; [|done].
  all: unfold upd_trace, upd_gpuRenderTargets; simpl.
  all: by rewrite fn_lookup_insert, <- !app_assoc.
Qed.

(** A [bind] that returns, taken apart: [st1] is the store once the
    surface is resolved, [st2] the store in which the sizes are compared,
    [st3] the store the descriptor is built in. *)
Lemma bind_inv s cl cc st r st' :
  bind s cl cc st = (Ok r, st') →
  ∃ st1 g st2 st3,
    getRenderTarget s st = (Ok r, st1)
    ∧ getGpuRenderTarget r (upd_renderTarget (λ _, Some r) st1) = (Ok g, st2)
    ∧ (if decide (size_differs st2 r g)
       then resizeGpuRenderTarget r st2 = (Ok (), st3) else st3 = st2)
    ∧ gpuRenderTargetHash st3 !! r = Some g
    ∧ quiet st2 st3
    ∧ st' = bind_end r g (descriptor_of st3 r g (default true cl) cc) st3.
Proof.
  rewrite bind_unfold.
  destruct (getRenderTarget s st) as [[r0|e] st1] eqn:E1; [|done].
  destruct (getGpuRenderTarget r0 _) as [[g|e] st2] eqn:E2; [|done].
  pose proof (getGpuRenderTarget_ok _ _ _ _ E2) as Hg.
  assert (∃ st3, (if decide (size_differs st2 r0 g)
                  then resizeGpuRenderTarget r0 st2 else (Ok (), st2)) = (Ok (), st3)
                 ∧ quiet st2 st3
                 ∧ (if decide (size_differs st2 r0 g)
                    then resizeGpuRenderTarget r0 st2 = (Ok (), st3) else st3 = st2))
    as (st3 & -> & Hq & Hif).
  { destruct (decide _).
    - destruct (resizeGpuRenderTarget_run _ _ _ Hg) as (st3 & ? & ? & _). by exists st3.
    - by exists st2. }
  assert (gpuRenderTargetHash st3 !! r0 = Some g) as Hg3
    by (by rewrite (q_gpuHash _ _ Hq)).
  rewrite (getDescriptor_hit _ _ _ _ _ Hg3). intros [= <- <-].
  by exists st1, g, st2, st3.
Qed.

(** ** Binding, and the stack *)

Lemma bind_evolves s cl cc : respects evolves (bind s cl cc).
Proof. unfold bind, emit, modify_gpu. respects_auto evolves_leaf. Qed.

Global Instance keeps_stack_preorder : PreOrder keeps_stack.
Proof. split; [by intros st|]. intros st1 st2 st3 H1 H2. unfold keeps_stack in *. congruence. Qed.

Lemma stable_keeps_stack {A} (m : M A) : respects stable m → respects keeps_stack m.
Proof. intros H st. apply (st_stack _ _ (H st)). Qed.

Lemma getRenderTarget_keeps_stack s : respects keeps_stack (getRenderTarget s).
Proof. intros st. by destruct (getRenderTarget_frame s st) as (? & _). Qed.

(** [bind] leaves the stack alone, also when it throws. *)
Lemma bind_keeps_stack s cl cc : respects keeps_stack (bind s cl cc).
Proof.
  unfold bind, emit, modify_gpu.
  respects_with ltac:(reflexivity);
    first [ apply getRenderTarget_keeps_stack
          | apply stable_keeps_stack; eauto with respects ].
Qed.

Lemma bind_end_frame r g d st :
  let st' := bind_end r g d st in
  gpuRenderTargetHash st' = gpuRenderTargetHash st
  ∧ renderSurfaceToRenderTargetHash st' = renderSurfaceToRenderTargetHash st
  ∧ renderTargetStack st' = renderTargetStack st
  ∧ renderTargets st' = renderTargets st
  ∧ textures st' = textures st
  ∧ sources st' = sources st
  ∧ rootRenderTarget st' = rootRenderTarget st
  ∧ renderTarget st' = renderTarget st
  ∧ gpuRenderTargets st' g = set_descriptor d (gpuRenderTargets st g).
Proof. simpl. rewrite fn_lookup_insert. by repeat split. Qed.

Lemma bind_ok s cl cc st r st' :
  bind s cl cc st = (Ok r, st') →
  is_Some (gpuRenderTargetHash st' !! r).
Proof.
  intros (st1 & g & st2 & st3 & _ & _ & _ & Hg & _ & ->)%bind_inv.
  destruct (bind_end_frame r g (descriptor_of st3 r g (default true cl) cc) st3) as (-> & _).
  eauto.
Qed.

(** What [bind] leaves of the fields a caller of [bind] goes on with. *)
Lemma bind_frame s cl cc st r st' :
  bind s cl cc st = (Ok r, st') →
  renderTargetStack st' = renderTargetStack st
  ∧ rootRenderTarget st' = rootRenderTarget st
  ∧ renderTarget st' = Some r
  ∧ renderSurfaceToRenderTargetHash st' !! s = Some r.
Proof.
  intros (st1 & g & st2 & st3 & H1 & H2 & _ & _ & Hq & ->)%bind_inv.
  destruct (bind_end_frame r g (descriptor_of st3 r g (default true cl) cc) st3)
    as (_ & -> & -> & _ & _ & _ & -> & -> & _).
  pose proof (getGpuRenderTarget_stable r (upd_renderTarget (λ _, Some r) st1)) as Hst.
  rewrite H2 in Hst. simpl in Hst.
  destruct Hst as [_ _ _ Hh Hs Hr Hroot]. simpl in *.
  rewrite (q_stack _ _ Hq), (q_rootRenderTarget _ _ Hq), (q_renderTarget _ _ Hq),
    (q_hash _ _ Hq), Hh, Hs, Hr, Hroot.
  pose proof (getRenderTarget_ok _ _ _ _ H1) as Hok.
  pose proof (getRenderTarget_frame s st) as (Hs1 & Hroot1 & _). rewrite H1 in Hs1, Hroot1.
  done.
Qed.

Lemma push_evolves s cl cc : respects evolves (push s cl cc).
Proof.
  intros st. unfold push. apply respects_bind_at; [apply _|apply bind_evolves|].
  intros r st1 Hb%bind_ok. munfold. simpl.
  split; simpl; eauto using no_events.
  intros r' [H| ->%list_elem_of_singleton]%elem_of_app; [by left | by right].
Qed.

Lemma removelast_elem_of {A} (l : list A) x : x ∈ removelast l → x ∈ l.
Proof.
  induction l as [|y [|z l] IH]; simpl; [done| |].
  - intros H. inversion H.
  - intros [->|H]%elem_of_cons; [left | right; by apply IH].
Qed.

Lemma pop_unfold st :
  pop st =
  let st1 := upd_renderTargetStack (λ s, removelast s) st in
  match bind (top_surface (renderTargetStack st1)) (Some false) None st1 with
  | (Ok _, st') => (Ok (), st')
  | (Throw e, st') => (Throw e, st')
  end.
Proof. reflexivity. Qed.

Lemma pop_evolves : respects evolves pop.
Proof.
  unfold pop. respects_auto evolves_leaf; try apply bind_evolves.
  split; simpl; eauto using removelast_elem_of, no_events.
Qed.

Lemma start_evolves s cl cc : respects evolves (start s cl cc).
Proof.
  unfold start, emit. respects_auto evolves_leaf; try apply push_evolves.
  split; simpl; eauto using no_events.
  intros r H. inversion H.
Qed.

Lemma restart_evolves : respects evolves restart.
Proof. unfold restart. respects_auto evolves_leaf; apply bind_evolves. Qed.

(** ** Every call, and every store the system can be in *)

Lemma call_evolves c st : evolves st (call c st).
Proof.
  destruct c; simpl.
  - apply start_evolves.
  - apply bind_evolves.
  - apply push_evolves.
  - apply pop_evolves.
  - apply restart_evolves.
  - apply getRenderTarget_evolves.
  - apply getGpuRenderTarget_evolves.
  - apply getDescriptor_evolves.
  - split; simpl; eauto using no_events.
    intros r ->. done.
  - by apply evolves_same.
Qed.

Lemma calls_evolves cs st : evolves st (calls cs st).
Proof.
  revert st. induction cs as [|c cs IH]; intros st; simpl; [done|].
  etrans; [apply call_evolves | apply IH].
Qed.

Lemma evolves_invariant st st' : evolves st st' → invariant st → invariant st'.
Proof.
  intros [h g r hn gn s (evs & Ht & c & n & u)] [ih ig ik it iu].
  split.
  - intros s0 r0 H. destruct (hn s0 r0 H) as [H'|H']; [|done].
    destruct (ih s0 r0 H'). eauto.
  - intros r0 g0 H. destruct (gn r0 g0 H) as [H'|H']; [|done]. eauto.
  - intros r0 H. destruct (s r0 H) as [H'|H']; [|done].
    destruct (ik r0 H') as [g0 Hg0]. eauto.
  - intros s0. rewrite Ht, constructions_app.
    pose proof (it s0). pose proof (n s0).
    destruct (constructions s0 evs) as [|k] eqn:E; [lia|].
    destruct (constructions_pos s0 evs) as [r0 Hr0]; [lia|].
    destruct (c s0 r0 Hr0) as [Hnone _]. rewrite (iu s0 Hnone). lia.
  - intros s0 Hnone. rewrite Ht, constructions_app.
    rewrite iu, constructions_none; [done| |].
    + intros r0 Hr0. destruct (c s0 r0 Hr0) as [_ [r' Hr']]. congruence.
    + destruct (renderSurfaceToRenderTargetHash st !! s0) as [r0|] eqn:E; [|done].
      apply h in E. congruence.
Qed.

Lemma reachable_invariant st : reachable st → invariant st.
Proof.
  induction 1 as [srcs texs rts uid|c st _ IH].
  - split; simpl; try done.
    + intros r H. inversion H.
    + intros s. unfold constructions. simpl. lia.
  - apply (evolves_invariant st); [apply call_evolves | exact IH].
Qed.

Lemma reachable_calls cs st : reachable st → reachable (calls cs st).
Proof.
  revert st. induction cs as [|c cs IH]; intros st H; simpl; [done|].
  apply IH. by constructor.
Qed.

(** ** Facts the properties share *)

(** No canvas and no [undefined] is ever a key of the surface cache. *)
Lemma unresolvable_uncached st s :
  invariant st → (∀ r, ¬ resolves s r) →
  renderSurfaceToRenderTargetHash st !! s = None.
Proof.
  intros Hinv Hs.
  destruct (renderSurfaceToRenderTargetHash st !! s) as [r|] eqn:E; [|done].
  destruct (inv_hash _ Hinv s r E) as [_ Hr]. by destruct (Hs r).
Qed.

(** Resolving a render target gives the render target itself. *)
Lemma getRenderTarget_renderTarget st r :
  invariant st →
  ∃ st1, getRenderTarget (SurfRenderTarget r) st = (Ok r, st1)
         ∧ gpuRenderTargetHash st1 = gpuRenderTargetHash st
         ∧ renderTargetStack st1 = renderTargetStack st.
Proof.
  intros Hinv.
  destruct (renderSurfaceToRenderTargetHash st !! SurfRenderTarget r) as [r0|] eqn:E.
  - destruct (inv_hash _ Hinv _ _ E) as [_ Hr]. simpl in Hr. subst r0.
    exists st. by rewrite (getRenderTarget_hit _ _ _ E).
  - rewrite (getRenderTarget_miss _ _ E). eexists. split; [reflexivity|done].
Qed.

(** [bind] returns once the surface resolves to a target that has its
    backend target. *)
Lemma bind_run s cl cc st r st1 g :
  getRenderTarget s st = (Ok r, st1) →
  gpuRenderTargetHash st1 !! r = Some g →
  ∃ st', bind s cl cc st = (Ok r, st').
Proof.
  intros H1 Hg. rewrite bind_unfold, H1.
  rewrite (getGpuRenderTarget_hit r g) by done.
  set (st2 := upd_renderTarget _ st1).
  assert (gpuRenderTargetHash st2 !! r = Some g) as Hg2 by done.
  destruct (decide _).
  - destruct (resizeGpuRenderTarget_run _ _ _ Hg2) as (st3 & -> & Hq & _).
    rewrite (getDescriptor_hit _ g) by (by rewrite (q_gpuHash _ _ Hq)). eauto.
  - rewrite (getDescriptor_hit _ g) by done. eauto.
Qed.

(** The colour attachments of a descriptor: one per colour texture, each
    with the load operation, the store operation and the clear value the
    call asks for. *)
Lemma descriptor_of_colorAttachments st r g cl cv :
  length (colorAttachments (descriptor_of st r g cl cv))
  = length (colorTextures (renderTargets st r))
  ∧ Forall (λ a, loadOp a = (if cl then LoadOp_clear else LoadOp_load)
                 ∧ storeOp a = StoreOp_store
                 ∧ clearValue a = default DEFAULT_CLEAR_COLOR cv)
      (colorAttachments (descriptor_of st r g cl cv)).
Proof.
  unfold descriptor_of. simpl. split; [apply length_imap|].
  apply Forall_forall. intros a (i & t & -> & _)%elem_of_lookup_imap.
  unfold colorAttachment. by destruct (msaaTextures _ !! i).
Qed.

(** The descriptor a [bind] that returns leaves on the backend target. *)
Lemma bind_descriptor s cl cc st r st' :
  bind s cl cc st = (Ok r, st') →
  ∃ g d,
    gpuRenderTargetHash st' !! r = Some g
    ∧ descriptor (gpuRenderTargets st' g) = Some d
    ∧ length (colorAttachments d) = length (colorTextures (renderTargets st' r))
    ∧ Forall (λ a, loadOp a = (if default true cl then LoadOp_clear else LoadOp_load)
                   ∧ storeOp a = StoreOp_store
                   ∧ clearValue a = default DEFAULT_CLEAR_COLOR cc)
        (colorAttachments d)
    ∧ ∃ evs, trace st' = evs ++ [BeginRenderPass r g;
                                 SetMultisampleCount (msaaSamples (gpuRenderTargets st' g));
                                 OnRenderTargetChange r].
Proof.
  intros (st1 & g & st2 & st3 & _ & _ & _ & Hg & _ & ->)%bind_inv.
  set (d := descriptor_of st3 r g (default true cl) cc).
  destruct (bind_end_frame r g d st3) as (Hh & _ & _ & Hr & _ & _ & _ & _ & HG).
  exists g, d. rewrite Hh, HG, Hr.
  destruct (descriptor_of_colorAttachments st3 r g (default true cl) cc) as [Hlen Hall].
  repeat (split; [done|]). by exists (trace st3).
Qed.

(** * Properties of the specification *)

(** A canvas never resolves: in every store the system can be in, [start]
    on a canvas surface throws in [initRenderTarget], at the write of
    [isRoot] to [null], and leaves the store as it found it. *)
Lemma start_canvas_throws_everywhere st c cl cc :
  reachable st → start (SurfCanvas c) cl cc st = (Throw TypeError, st).
Proof.
  intros Hinv%reachable_invariant. unfold start.
  rewrite mbind_unfold, getRenderTarget_miss; [done|].
  apply unresolvable_uncached; [done|]. intros r Hr. exact Hr.
Qed.

(** C1 (as the code has it): on a fresh system, whatever the world holds,
    [start(canvas, true, [1, 0, 0, 1])] throws a TypeError and so does
    [getRenderTarget(canvas)]; both leave the store untouched: no root
    target is resolved, nothing is cached or pushed and no pass begins. *)
Theorem start_canvas_throws srcs texs rts uid c :
  let st := GpuRenderTargetSystem_new srcs texs rts uid in
  start (SurfCanvas c) (Some true) (Some red) st = (Throw TypeError, st)
  ∧ getRenderTarget (SurfCanvas c) st = (Throw TypeError, st).
Proof.
  intros st. split.
  - apply start_canvas_throws_everywhere. constructor.
  - rewrite getRenderTarget_miss; [done|].
    apply unresolvable_uncached; [|intros r Hr; exact Hr]. apply reachable_invariant. constructor.
Qed.

(** C2: in every store the system can be in whose stack holds at least two
    targets, [pop] returns, removes the top of the stack, and rebinds the
    new top: the new top is the current target, a pass begins on it, and
    every colour attachment of its descriptor has load operation 'load'. *)
Theorem pop_rebinds_with_load st rest below top :
  reachable st →
  renderTargetStack st = rest ++ [below; top] →
  ∃ g d st',
    pop st = (Ok (), st')
    ∧ renderTargetStack st' = rest ++ [below]
    ∧ renderTarget st' = Some below
    ∧ gpuRenderTargetHash st' !! below = Some g
    ∧ descriptor (gpuRenderTargets st' g) = Some d
    ∧ length (colorAttachments d) = length (colorTextures (renderTargets st' below))
    ∧ Forall (λ a, loadOp a = LoadOp_load) (colorAttachments d)
    ∧ ∃ evs, trace st' = evs ++ [BeginRenderPass below g;
                                 SetMultisampleCount (msaaSamples (gpuRenderTargets st' g));
                                 OnRenderTargetChange below].
Proof.
  intros Hinv%reachable_invariant Hstack.
  set (st1 := upd_renderTargetStack (λ s, removelast s) st).
  assert (renderTargetStack st1 = rest ++ [below]) as Hstack1.
  { simpl. rewrite Hstack.
    change [below; top] with ([below] ++ [top]).
    by rewrite app_assoc, removelast_last. }
  assert (invariant st1) as Hinv1.
  { destruct Hinv as [ih ig ik it iu]. split; simpl; try done.
    intros r Hr%removelast_elem_of. by apply ik. }
  assert (top_surface (renderTargetStack st1) = SurfRenderTarget below) as Htop.
  { unfold top_surface. by rewrite Hstack1, last_snoc. }
  destruct (getRenderTarget_renderTarget st1 below Hinv1) as (st1' & Hget & Hgh & _).
  destruct (inv_stack _ Hinv1 below) as [g0 Hg0].
  { rewrite Hstack1. apply elem_of_app. right. left. }
  destruct (bind_run (SurfRenderTarget below) (Some false) None st1 below st1' g0)
    as [st' Hbind]; [done|by rewrite Hgh|].
  destruct (bind_descriptor _ _ _ _ _ _ Hbind) as (g & d & Hg & Hd & Hlen & Hall & Hev).
  destruct (bind_frame _ _ _ _ _ _ Hbind) as (Hs & _ & Hr & _).
  exists g, d, st'. split.
  { rewrite pop_unfold. cbv zeta. fold st1. by rewrite Htop, Hbind. }
  rewrite Hs. repeat (split; [done|]). split; [|done].
  eapply Forall_impl; [exact Hall|]. by intros a (? & _).
Qed.

(** C5: whenever [bind] returns, the descriptor it leaves on the backend
    target has one colour attachment per colour texture, each with load
    operation 'clear' when [clear] is true or omitted and 'load' when it
    is false, store operation 'store', and the supplied clear colour, or
    [0, 0, 0, 0] when none is supplied. *)
Theorem bind_pass_descriptor s cl cc st r st' :
  bind s cl cc st = (Ok r, st') →
  ∃ g d,
    gpuRenderTargetHash st' !! r = Some g
    ∧ descriptor (gpuRenderTargets st' g) = Some d
    ∧ length (colorAttachments d) = length (colorTextures (renderTargets st' r))
    ∧ Forall (λ a,
        loadOp a = match cl with
                   | Some false => LoadOp_load
                   | _ => LoadOp_clear
                   end
        ∧ storeOp a = StoreOp_store
        ∧ clearValue a = match cc with
                         | Some color => color
                         | None => DEFAULT_CLEAR_COLOR
                         end)
        (colorAttachments d).
Proof.
  intros (g & d & Hg & Hd & Hlen & Hall & _)%bind_descriptor.
  exists g, d. repeat (split; [done|]).
  eapply Forall_impl; [exact Hall|].
  intros a (Hl & Hs & Hc). by destruct cl as [[]|], cc.
Qed.

(** When [start] throws, either the surface did not resolve and the store is
    as it was, or the stack has been emptied. *)
Lemma start_throws_stack s cl cc st e st' :
  start s cl cc st = (Throw e, st') →
  getRenderTarget s st = (Throw e, st') ∨ renderTargetStack st' = [].
Proof.
  unfold start. rewrite mbind_unfold.
  destruct (getRenderTarget s st) as [[r|e0] st1] eqn:Hget; [|intros [= <- <-]; by left].
  intros H. right. munfold. simpl in H.
  match type of H with
  | context [push s ?c cc ?st3] =>
      unfold push in H; rewrite mbind_unfold in H;
      pose proof (bind_keeps_stack s c cc st3) as Hs;
      destruct (bind s c cc st3) as [[r1|e1] st4]; [done|]
  end.
  injection H as <- <-. exact Hs.
Qed.

(** C6: whatever the store was, when [start] returns the stack is exactly
    the root render target the surface resolves to; nothing of an earlier
    stack is left. *)
Theorem start_resets_stack s cl cc st st' :
  start s cl cc st = (Ok (), st') →
  ∃ r,
    renderTargetStack st' = [r]
    ∧ rootRenderTarget st' = Some r
    ∧ renderTarget st' = Some r
    ∧ getRenderTarget s st' = (Ok r, st').
Proof.
  unfold start. intros H.
  apply mbind_ok in H as (r & st1 & Hget & H).
  munfold. simpl in H.
  match type of H with
  | context [push s ?c cc ?st3] =>
      destruct (push s c cc st3) as [[r'|e] st4] eqn:Hpush; [|done]
  end.
  injection H as <-.
  unfold push in Hpush. apply mbind_ok in Hpush as (r2 & st5 & Hbind & Hpush).
  munfold. injection Hpush as <- <-.
  destruct (bind_frame _ _ _ _ _ _ Hbind) as (Hs & Hroot & Hr & Hh). simpl in *.
  assert (r2 = r) as ->.
  { apply bind_inv in Hbind as (? & ? & ? & ? & Hget2 & _).
    rewrite getRenderTarget_hit with (r := r) in Hget2; [by injection Hget2|].
    simpl. by apply getRenderTarget_ok in Hget. }
  exists r. rewrite Hs, Hroot, Hr. repeat (split; [done|]).
  by apply getRenderTarget_hit.
Qed.

(** What first-time backend setup leaves on the backend target, whatever
    the antialiasing flags of the colour sources are: a multisample texture
    exactly at the indices whose source asks for antialiasing, and the
    [msaa] flag and the sample count of the last colour source. *)
Lemma initGpuRenderTarget_msaa uid st g st' :
  initGpuRenderTarget uid st = (Ok g, st') →
  let colors := colorTextures (renderTargets st uid) in
  let G := gpuRenderTargets st' g in
  colorTextures (renderTargets st' uid) = colors
  ∧ msaa G = init_msaa st colors
  ∧ msaaSamples G = (if init_msaa st colors then 4 else 1)
  ∧ (∀ i, msaaTextures G !! i = init_msaaTextures st colors i)
  ∧ (init_msaa st colors = true →
     ∀ d, depthTexture (renderTargets st uid) = Some d →
          sampleCount (source_of st' d) = 4).
Proof.
  rewrite initGpuRenderTarget_unfold.
  destruct (forEach _ _ _) as [[[]|e] s4] eqn:Hloop; [|done].
  intros [= <- <-].
  pose proof (initGpuRenderTarget_loop_quiet uid (next_gpu st)
    (colorTextures (renderTargets st uid)) (initGpuRenderTarget_begin uid st)) as Hq.
  rewrite Hloop in Hq. simpl in Hq.
  destruct (initGpuRenderTarget_loop_msaa _ _ _ _ _ Hloop) as (Hs & Hm & Ht).
  { simpl. by rewrite fn_lookup_insert. }
  simpl in Hs, Hm. rewrite fn_lookup_insert in Hs, Hm. simpl in Hs, Hm.
  assert (msaa (gpuRenderTargets s4 (next_gpu st))
          = init_msaa st (colorTextures (renderTargets st uid))) as Hm'.
  { rewrite Hm. by destruct (colorTextures _). }
  assert (renderTargets s4 uid = set_isRoot true (renderTargets st uid)) as Hrt.
  { rewrite (q_renderTargets _ _ Hq). simpl. by rewrite fn_lookup_insert. }
  assert (textures s4 = textures st) as Htex by (by rewrite (q_textures _ _ Hq)).
  unfold initGpuRenderTarget_end. rewrite Hm'.
  destruct (init_msaa st _) eqn:Emsaa.
  - rewrite Hrt. simpl.
    destruct (depthTexture (renderTargets st uid)) as [d|] eqn:Ed; simpl;
      rewrite fn_lookup_insert; simpl; rewrite ?Hrt; simpl.
    + do 3 (split; [done|]). split; [exact Ht|].
      intros _ d' [= <-]. unfold source_of. simpl.
      by rewrite Htex, fn_lookup_insert.
    + do 3 (split; [done|]). split; [exact Ht|]. by intros _ d'.
  - simpl. rewrite Hrt. simpl. do 2 (split; [done|]). split; [by rewrite Hs|].
    split; [exact Ht|]. done.
Qed.

(** C3 (fails where the colour sources disagree): render target 0
    of the sample world has an antialiased first and a plain second colour
    source.  First-time setup leaves sample count 1 and a multisample
    texture for the first attachment only: neither four samples with a
    multisample texture per attachment, nor one sample with none. *)
Lemma initGpuRenderTarget_mixed_antialias :
  ∃ g st',
    initGpuRenderTarget 0 sample = (Ok g, st')
    ∧ let G := gpuRenderTargets st' g in
      ¬ (msaaSamples G = 4
         ∧ ∀ i, (i < length (colorTextures (renderTargets st' 0%nat)))%nat →
                is_Some (msaaTextures G !! i))
      ∧ ¬ (msaaSamples G = 1 ∧ ∀ i, msaaTextures G !! i = None).
Proof.
  exists 0%nat, (initGpuRenderTarget 0 sample).2.
  split; [by vm_compute|]. split.
  - intros [H _]. vm_compute in H. discriminate.
  - intros [_ H]. specialize (H 0%nat). vm_compute in H. discriminate.
Qed.

(** C3 (amended): after first-time backend setup of a render target whose
    colour sources agree on antialiasing: if they all ask for it and there
    is at least one, the backend target has sample count 4, a multisample
    texture with 4 samples for every colour attachment and for no other
    index, and a depth texture with 4 samples; if none asks for it, the
    backend target has sample count 1 and no multisample texture. *)
Theorem initGpuRenderTarget_uniform_antialias uid st g st' aa :
  initGpuRenderTarget uid st = (Ok g, st') →
  Forall (λ t, antialias (source_of st t) = aa) (colorTextures (renderTargets st uid)) →
  let colors := colorTextures (renderTargets st' uid) in
  let G := gpuRenderTargets st' g in
  (aa = true → colors ≠ [] →
     msaaSamples G = 4
     ∧ (∀ i, (i < length colors)%nat →
             ∃ m, msaaTextures G !! i = Some m ∧ sampleCount m = 4)
     ∧ (∀ i, (length colors ≤ i)%nat → msaaTextures G !! i = None)
     ∧ ∀ d, depthTexture (renderTargets st uid) = Some d →
            sampleCount (source_of st' d) = 4)
  ∧ (aa = false → msaaSamples G = 1 ∧ ∀ i, msaaTextures G !! i = None).
Proof.
  intros (Hc & Hm & Hs & Ht & Hd)%initGpuRenderTarget_msaa Hall. simpl in *.
  rewrite Hc.
  assert (∀ i t, colorTextures (renderTargets st uid) !! i = Some t →
                 antialias (source_of st t) = aa) as Haa.
  { intros i t Hi. by apply (Forall_lookup_1 _ _ _ _ Hall Hi). }
  split.
  - intros -> Hne.
    assert (init_msaa st (colorTextures (renderTargets st uid)) = true) as E.
    { unfold init_msaa.
      destruct (last (colorTextures (renderTargets st uid))) as [t|] eqn:El.
      - simpl. apply last_Some in El as [l' El].
        apply (Haa (length l') t). rewrite El. by apply list_lookup_middle.
      - by apply last_None in El. }
    rewrite E in Hs. split; [done|]. split; [|split].
    + intros i (t & Hi)%lookup_lt_is_Some_2. rewrite Ht. unfold init_msaaTextures.
      rewrite Hi, (Haa i t Hi). eauto.
    + intros i Hi. rewrite Ht. unfold init_msaaTextures.
      by rewrite lookup_ge_None_2.
    + by apply Hd.
  - intros ->.
    assert (init_msaa st (colorTextures (renderTargets st uid)) = false) as E.
    { unfold init_msaa.
      destruct (last (colorTextures (renderTargets st uid))) as [t|] eqn:El; [|done].
      simpl. apply last_Some in El as [l' El].
      apply (Haa (length l') t). rewrite El. by apply list_lookup_middle. }
    rewrite E in Hs. split; [done|].
    intros i. rewrite Ht. unfold init_msaaTextures.
    destruct (colorTextures (renderTargets st uid) !! i) as [t|] eqn:Hi; [|done].
    by rewrite (Haa i t Hi).
Qed.

(** C7: whenever [bind] returns, let [st2] be the store in which it compares
    the size of the target with the cached size of its backend target, and
    [st3] the store from which it builds the descriptor.  If the sizes
    differ in [st2], then [st3] is what [resizeGpuRenderTarget] makes of
    [st2]: the cached size is the size of the target and, if the backend
    target is multisampled, every multisample texture that sits at the
    index of a colour attachment is resized to the width, height and
    resolution of that attachment's source.  In any case the cached size
    is the size of the target when [bind] returns. *)
Theorem bind_resizes s cl cc st r st' :
  bind s cl cc st = (Ok r, st') →
  ∃ g st2 st3,
    getGpuRenderTarget r (upd_renderTarget (λ _, Some r) (getRenderTarget s st).2)
      = (Ok g, st2)
    ∧ st' = bind_end r g (descriptor_of st3 r g (default true cl) cc) st3
    ∧ (size_differs st2 r g →
       resizeGpuRenderTarget r st2 = (Ok (), st3)
       ∧ gpu_width (gpuRenderTargets st3 g) = Some (width (renderTargets st2 r))
       ∧ gpu_height (gpuRenderTargets st3 g) = Some (height (renderTargets st2 r))
       ∧ (msaa (gpuRenderTargets st2 g) = true →
          ∀ i t m,
            colorTextures (renderTargets st2 r) !! i = Some t →
            msaaTextures (gpuRenderTargets st2 g) !! i = Some m →
            msaaTextures (gpuRenderTargets st3 g) !! i =
            Some (TextureSource_resize (src_width (source_of st2 t))
                    (src_height (source_of st2 t)) (resolution (source_of st2 t)) m)))
    ∧ gpu_width (gpuRenderTargets st' g) = Some (width (renderTargets st' r))
    ∧ gpu_height (gpuRenderTargets st' g) = Some (height (renderTargets st' r)).
Proof.
  intros (st1 & g & st2 & st3 & H1 & H2 & Hif & Hg & Hq & ->)%bind_inv.
  exists g, st2, st3. rewrite H1. simpl. split; [done|]. split; [done|].
  assert (gpuRenderTargetHash st2 !! r = Some g) as Hg2
    by (by rewrite <- (q_gpuHash _ _ Hq)).
  destruct (resizeGpuRenderTarget_run _ _ _ Hg2) as (st3' & Hrun & _ & _ & Hw & Hh & Ht).
  split.
  - intros Hdiff. rewrite decide_True in Hif by done.
    assert (st3' = st3) as -> by congruence.
    do 3 (split; [done|]).
    intros Hm i t m Hi Hold. rewrite Ht, Hm. unfold resized_msaaTexture.
    by rewrite Hi, Hold.
  - rewrite fn_lookup_insert. simpl. rewrite (q_renderTargets _ _ Hq).
    destruct (decide (size_differs st2 r g)) as [Hdiff|Hsame].
    + assert (st3' = st3) as -> by congruence. done.
    + subst st3. unfold size_differs in Hsame.
      apply Decidable.not_or in Hsame as [Hw1%dec_stable Hh1%dec_stable]. done.
Qed.

Lemma initGpuRenderTarget_end_contexts uid g st :
  contexts (gpuRenderTargets (initGpuRenderTarget_end uid g st) g)
  = contexts (gpuRenderTargets st g).
Proof.
  unfold initGpuRenderTarget_end.
  destruct (msaa _); [|done].
  destruct (depthTexture _); simpl; by rewrite fn_lookup_insert.
Qed.

(** C9: take a render target whose first colour texture wraps something
    [getContext] can be called on, and let [configure] throw [e] on the
    context that call answers (a TypeError when it answered [null], or
    while [this.gpu] is not set).
    Then first-time backend setup still returns: for every colour
    attachment that wraps a canvas the error is handed to
    [console.error] and the context is recorded at the index of the
    attachment, the backend target is registered, and the lookup that ran
    the setup returns it.  (The context is the one of the first colour
    texture, which is the attachment's own at index 0.) *)
Theorem configure_failure_is_swallowed uid st t0 rest i t c e :
  colorTextures (renderTargets st uid) = t0 :: rest →
  resource (source_of st t0) ≠ PlainResource →
  (t0 :: rest) !! i = Some t →
  resource (source_of st t) = HTMLCanvasElement c →
  configure_error (gpu st) (first_context st uid) = Some e →
  ∃ g st',
    initGpuRenderTarget uid st = (Ok g, st')
    ∧ gpuRenderTargetHash st' !! uid = Some g
    ∧ contexts (gpuRenderTargets st' g) !! i = Some (first_context st uid)
    ∧ (i = 0%nat → first_context st uid = c)
    ∧ ConsoleError e ∈ trace st'
    ∧ (gpuRenderTargetHash st !! uid = None →
       getGpuRenderTarget uid st = (Ok g, st')).
Proof.
  intros Hcolors Hplain Hi Hres Herr.
  set (sb := initGpuRenderTarget_begin uid st).
  assert (renderTargets sb uid = set_isRoot true (renderTargets st uid)) as Hrt
    by (simpl; by rewrite fn_lookup_insert).
  assert (∀ t, source_of sb t = source_of st t) as Hsrc by done.
  assert (head (colorTextures (renderTargets sb uid)) = Some t0) as Hhead
    by (by rewrite Hrt; simpl; rewrite Hcolors).
  assert (first_context sb uid = first_context st uid) as Hfirst.
  { unfold first_context. by rewrite Hhead, Hcolors. }
  destruct (initGpuRenderTarget_loop_total uid (next_gpu st)
              (colorTextures (renderTargets st uid)) sb) as [s4 Hloop].
  { intros t' _ _. exists t0. split; [done|]. by rewrite Hsrc. }
  destruct (initGpuRenderTarget_loop_contexts _ _ _ _ _ Hloop i t) as [Hctx Hlog].
  { by rewrite Hcolors. }
  { by rewrite Hsrc, Hres. }
  rewrite Hfirst in Hctx, Hlog. change (gpu sb) with (gpu st) in Hlog.
  assert (initGpuRenderTarget uid st
          = (Ok (next_gpu st), initGpuRenderTarget_end uid (next_gpu st) s4)) as Hinit.
  { rewrite initGpuRenderTarget_unfold. fold sb. by rewrite Hloop. }
  exists (next_gpu st), (initGpuRenderTarget_end uid (next_gpu st) s4).
  destruct (initGpuRenderTarget_end_frame uid (next_gpu st) s4) as (Hg & _ & _ & Ht & _).
  split; [done|]. split; [by apply initGpuRenderTarget_ok in Hinit|].
  split; [by rewrite initGpuRenderTarget_end_contexts|].
  split.
  { intros ->. assert (t = t0) as -> by (simpl in Hi; congruence).
    unfold first_context. rewrite Hcolors. simpl. by rewrite Hres. }
  split; [rewrite Ht; by apply Hlog|].
  intros Hmiss. by rewrite getGpuRenderTarget_miss.
Qed.

Lemma initRenderTarget_root s st r st' :
  initRenderTarget s st = (Ok r, st') → isRoot (renderTargets st' r) = true.
Proof.
  destruct s as [c|t|r0|]; unfold initRenderTarget, RenderTarget_new; munfold; simpl;
    intros [= <- <-]; simpl; by rewrite fn_lookup_insert.
Qed.

Lemma initGpuRenderTarget_root uid st g st' :
  initGpuRenderTarget uid st = (Ok g, st') → isRoot (renderTargets st' uid) = true.
Proof.
  rewrite initGpuRenderTarget_unfold.
  destruct (forEach _ _ _) as [[[]|e] s4] eqn:Hloop; [|done].
  intros [= <- <-].
  pose proof (initGpuRenderTarget_loop_quiet uid (next_gpu st)
    (colorTextures (renderTargets st uid)) (initGpuRenderTarget_begin uid st)) as Hq.
  rewrite Hloop in Hq. simpl in Hq.
  destruct (initGpuRenderTarget_end_frame uid (next_gpu st) s4) as (_ & _ & _ & _ & -> & _).
  rewrite (q_renderTargets _ _ Hq). simpl. by rewrite fn_lookup_insert.
Qed.

(** C10: every render target the system hands out is marked as root.
    [initRenderTarget] marks the target it returns, for a texture surface
    as for a render-target surface, and [initGpuRenderTarget] marks its
    target again; and in every store the system can be in, the target
    [getRenderTarget] returns and the target [getGpuRenderTarget] returns a
    backend target for are roots, also when they come from the caches. *)
Theorem targets_are_roots st :
  reachable st →
  (∀ s r st', initRenderTarget s st = (Ok r, st') → isRoot (renderTargets st' r) = true)
  ∧ (∀ r g st', initGpuRenderTarget r st = (Ok g, st') →
                isRoot (renderTargets st' r) = true)
  ∧ (∀ s r st', getRenderTarget s st = (Ok r, st') → isRoot (renderTargets st' r) = true)
  ∧ (∀ r g st', getGpuRenderTarget r st = (Ok g, st') →
                isRoot (renderTargets st' r) = true).
Proof.
  intros Hreach.
  split; [intros s r st'; apply initRenderTarget_root|].
  split; [intros r g st'; apply initGpuRenderTarget_root|].
  split.
  - intros s r st' Hget.
    assert (invariant st') as Hinv.
    { apply reachable_invariant.
      replace st' with (call (CallGetRenderTarget s) st) by (simpl; by rewrite Hget).
      by constructor. }
    by destruct (inv_hash _ Hinv s r (getRenderTarget_ok _ _ _ _ Hget)).
  - intros r g st' Hget.
    assert (invariant st') as Hinv.
    { apply reachable_invariant.
      replace st' with (call (CallGetGpuRenderTarget r) st) by (simpl; by rewrite Hget).
      by constructor. }
    apply (inv_gpuHash _ Hinv r g (getGpuRenderTarget_ok _ _ _ _ Hget)).
Qed.

(** C4: in every store the system can be in, the trace holds at most one
    construction of a render target for a surface; and once
    [getRenderTarget] has returned a render target for a surface, it
    returns the same render target for that surface after any further
    calls, from the cache, leaving the store as it is. *)
Theorem getRenderTarget_reference_stable st s :
  reachable st →
  (constructions s (trace st) ≤ 1)%nat
  ∧ ∀ r st1,
      getRenderTarget s st = (Ok r, st1) →
      ∀ cs, getRenderTarget s (calls cs st1) = (Ok r, calls cs st1)
            ∧ (constructions s (trace (calls cs st1)) ≤ 1)%nat.
Proof.
  intros Hreach. split; [apply inv_trace; by apply reachable_invariant|].
  intros r st1 Hget cs. split.
  - apply getRenderTarget_hit.
    apply (ev_hash _ _ (calls_evolves cs st1)).
    by apply getRenderTarget_ok in Hget.
  - apply inv_trace, reachable_invariant, reachable_calls.
    replace st1 with (call (CallGetRenderTarget s) st) by (simpl; by rewrite Hget).
    by constructor.
Qed.

Lemma setups_singleton r g : setups r [NewGpuRenderTarget r g] = 1%nat.
Proof.
  unfold setups. rewrite filter_cons_True; [done|].
  simpl. by rewrite bool_decide_true.
Qed.

Lemma initGpuRenderTarget_attachment_throws uid g t i s :
  is_canvas (resource (source_of s t)) = true →
  (∀ t0, head (colorTextures (renderTargets s uid)) = Some t0 →
         resource (source_of s t0) = PlainResource) →
  initGpuRenderTarget_attachment uid g t i s = (Throw TypeError, s).
Proof.
  unfold initGpuRenderTarget_attachment, source_of, colorTexture_source, getContext.
  munfold. intros Hc Hplain.
  destruct (resource (sources s (source (textures s t)))) as [c|c|]; try done. simpl.
  destruct (head _) as [t0|]; [|done].
  by rewrite (Hplain t0 eq_refl).
Qed.

Lemma initGpuRenderTarget_loop_throws uid g l :
  ∀ i sb,
    Exists (λ t, is_canvas (resource (source_of sb t)) = true) l →
    (∀ t0, head (colorTextures (renderTargets sb uid)) = Some t0 →
           resource (source_of sb t0) = PlainResource) →
    ∃ s', forEach_from i l (initGpuRenderTarget_attachment uid g) sb = (Throw TypeError, s')
          ∧ quiet sb s'.
Proof.
  induction l as [|x l IH]; intros i sb Hex Hplain; [by apply Exists_nil in Hex|].
  simpl. rewrite mbind_unfold.
  destruct (is_canvas (resource (source_of sb x))) eqn:Hx.
  - rewrite initGpuRenderTarget_attachment_throws by done. by exists sb.
  - destruct (initGpuRenderTarget_attachment_total uid g x i sb) as [s1 Hs1];
      [by rewrite Hx|].
    pose proof (quiet_step _ _ _ _ (initGpuRenderTarget_attachment_quiet uid g x i) Hs1)
      as Hq.
    rewrite Hs1.
    destruct (IH (S i) s1) as (s' & Hrun & Hq').
    + apply Exists_cons in Hex as [Hex|Hex]; [congruence|].
      eapply Exists_impl; [exact Hex|]. intros t Ht. by rewrite (quiet_source_of _ _ _ Hq).
    + intros t0. rewrite (q_renderTargets _ _ Hq), (quiet_source_of _ _ _ Hq). apply Hplain.
    + exists s'. split; [done|]. by etrans.
Qed.

(** A lookup whose setup fails at [getContext] throws, and what it leaves
    differs from the store in which the loop began only in what the loop
    told canvas contexts and the console. *)
Lemma getGpuRenderTarget_failed_setup uid st :
  gpuRenderTargetHash st !! uid = None →
  Exists (λ t, is_canvas (resource (source_of st t)) = true)
    (colorTextures (renderTargets st uid)) →
  (∃ t0, head (colorTextures (renderTargets st uid)) = Some t0
         ∧ resource (source_of st t0) = PlainResource) →
  ∃ st', getGpuRenderTarget uid st = (Throw TypeError, st')
         ∧ quiet (initGpuRenderTarget_begin uid st) st'.
Proof.
  intros Hmiss Hex (t0 & Hhead & Hres).
  set (sb := initGpuRenderTarget_begin uid st).
  destruct (initGpuRenderTarget_loop_throws uid (next_gpu st)
              (colorTextures (renderTargets st uid)) 0%nat sb) as (s' & Hrun & Hq).
  - exact Hex.
  - intros t1. simpl. rewrite fn_lookup_insert. simpl. rewrite Hhead.
    intros [= <-]. exact Hres.
  - exists s'. split; [|done].
    rewrite (getGpuRenderTarget_miss _ _ Hmiss), initGpuRenderTarget_unfold.
    fold sb. unfold forEach. by rewrite Hrun.
Qed.

(** C8: the lookup of the backend target caches what a setup that returns
    has made, and nothing else.  Take a render target without a backend
    target that has an HTML canvas among its colour textures while its
    first colour texture wraps nothing [getContext] can be called on: the
    loop of [initGpuRenderTarget] asks the first colour texture for the
    context of every canvas ([renderTarget.colorTexture], not
    [colorTexture]).  Then every lookup throws a TypeError and registers
    nothing, and each of them has run the setup anew: after [n] lookups
    the constructor of the backend target has run [n] times for this
    render target, and the next lookup throws again. *)
Theorem getGpuRenderTarget_failed_setup_repeats st r (n : nat) :
  gpuRenderTargetHash st !! r = None →
  Exists (λ t, is_canvas (resource (source_of st t)) = true)
    (colorTextures (renderTargets st r)) →
  (∃ t0, head (colorTextures (renderTargets st r)) = Some t0
         ∧ resource (source_of st t0) = PlainResource) →
  let st' := calls (replicate n (CallGetGpuRenderTarget r)) st in
  (getGpuRenderTarget r st').1 = Throw TypeError
  ∧ gpuRenderTargetHash st' !! r = None
  ∧ setups r (trace st') = (setups r (trace st) + n)%nat
  ∧ next_gpu st' = (next_gpu st + n)%nat.
Proof.
  revert st. induction n as [|n IH]; intros st Hmiss Hex Hfirst; cbv zeta; simpl.
  - destruct (getGpuRenderTarget_failed_setup r st Hmiss Hex Hfirst) as (st' & -> & _).
    by rewrite !Nat.add_0_r.
  - destruct (getGpuRenderTarget_failed_setup r st Hmiss Hex Hfirst) as (st1 & Hrun & Hq).
    rewrite Hrun. simpl.
    assert (∀ t, source_of st1 t = source_of st t) as Hsrc
      by (intros t; by rewrite (quiet_source_of _ _ _ Hq)).
    assert (colorTextures (renderTargets st1 r) = colorTextures (renderTargets st r))
      as Hcol by (rewrite (q_renderTargets _ _ Hq); simpl; by rewrite fn_lookup_insert).
    destruct (IH st1) as (H1 & H2 & H3 & H4).
    + by rewrite (q_gpuHash _ _ Hq).
    + rewrite Hcol. eapply Exists_impl; [exact Hex|]. intros t Ht. by rewrite Hsrc.
    + destruct Hfirst as (t0 & Hhead & Hres). exists t0. by rewrite Hcol, Hsrc.
    + split; [done|]. split; [done|]. split.
      * rewrite H3. destruct (q_trace _ _ Hq) as (evs & -> & Hsilent). simpl.
        rewrite !setups_app, setups_singleton, (silent_setups r evs) by done. lia.
      * rewrite H4, (q_next_gpu _ _ Hq). simpl. lia.
Qed.

(** A lookup that returns has run the constructor of the backend target
    once on a miss and not at all on a hit, and no later call runs it for
    that render target again. *)
Lemma getGpuRenderTarget_setups st r g st1 :
  getGpuRenderTarget r st = (Ok g, st1) →
  setups r (trace st1) =
    (if gpuRenderTargetHash st !! r is Some _
     then setups r (trace st) else S (setups r (trace st)))
  ∧ ∀ cs,
      getGpuRenderTarget r (calls cs st1) = (Ok g, calls cs st1)
      ∧ setups r (trace (calls cs st1)) = setups r (trace st1).
Proof.
  intros Hget. pose proof (getGpuRenderTarget_ok _ _ _ _ Hget) as Hg. split.
  - destruct (gpuRenderTargetHash st !! r) as [g0|] eqn:E.
    + rewrite (getGpuRenderTarget_hit _ _ _ E) in Hget. by injection Hget as <- <-.
    + rewrite (getGpuRenderTarget_miss _ _ E), initGpuRenderTarget_unfold in Hget.
      destruct (forEach _ _ _) as [[[]|e] s4] eqn:Hloop; [|done].
      injection Hget as <- <-.
      pose proof (initGpuRenderTarget_loop_quiet r (next_gpu st)
        (colorTextures (renderTargets st r)) (initGpuRenderTarget_begin r st)) as Hq.
      rewrite Hloop in Hq. simpl in Hq.
      destruct (initGpuRenderTarget_end_frame r (next_gpu st) s4) as (_ & _ & _ & -> & _).
      destruct (q_trace _ _ Hq) as (evs & -> & Hsilent). simpl.
      rewrite !setups_app, setups_singleton, (silent_setups r evs) by done. lia.
  - intros cs. pose proof (calls_evolves cs st1) as Hev. split.
    + apply getGpuRenderTarget_hit. by apply (ev_gpuHash _ _ Hev).
    + destruct (ev_trace _ _ Hev) as (evs & -> & _ & _ & Hu).
      rewrite setups_app, (setups_none r evs); [lia|].
      intros g' Hg'. apply Hu in Hg'. congruence.
Qed.

(** * The properties on the sample world *)

Lemma pop_rebinds_with_load_witness :
  let st := calls [CallStart (SurfTexture 0) None None;
                   CallPush (SurfTexture 1) None None] sample in
  reachable st
  ∧ renderTargetStack st = [] ++ [10; 11]%nat
  ∧ ∃ g d st',
      pop st = (Ok (), st')
      ∧ renderTargetStack st' = [] ++ [10%nat]
      ∧ renderTarget st' = Some 10%nat
      ∧ gpuRenderTargetHash st' !! 10%nat = Some g
      ∧ descriptor (gpuRenderTargets st' g) = Some d
      ∧ length (colorAttachments d) = length (colorTextures (renderTargets st' 10%nat))
      ∧ Forall (λ a, loadOp a = LoadOp_load) (colorAttachments d)
      ∧ ∃ evs, trace st' = evs ++ [BeginRenderPass 10 g;
                                   SetMultisampleCount (msaaSamples (gpuRenderTargets st' g));
                                   OnRenderTargetChange 10].
Proof.
  intros st.
  assert (reachable st) as Hreach by (apply reachable_calls; constructor).
  assert (renderTargetStack st = [] ++ [10; 11]%nat) as Hstack by (vm_compute; reflexivity).
  split; [exact Hreach|]. split; [exact Hstack|].
  exact (pop_rebinds_with_load st [] 10%nat 11%nat Hreach Hstack).
Defined.

Lemma bind_pass_descriptor_witness :
  let st' := (bind (SurfTexture 1) (Some false) (Some red) sample).2 in
  bind (SurfTexture 1) (Some false) (Some red) sample = (Ok 10%nat, st')
  ∧ ∃ g d,
      gpuRenderTargetHash st' !! 10%nat = Some g
      ∧ descriptor (gpuRenderTargets st' g) = Some d
      ∧ length (colorAttachments d) = length (colorTextures (renderTargets st' 10%nat))
      ∧ Forall (λ a, loadOp a = LoadOp_load
                     ∧ storeOp a = StoreOp_store
                     ∧ clearValue a = red) (colorAttachments d).
Proof.
  intros st'.
  assert (bind (SurfTexture 1) (Some false) (Some red) sample = (Ok 10%nat, st')) as H
    by (vm_compute; reflexivity).
  split; [exact H|].
  exact (bind_pass_descriptor (SurfTexture 1) (Some false) (Some red) sample 10%nat st' H).
Defined.

Lemma start_resets_stack_witness :
  let st := calls [CallStart (SurfTexture 0) None None;
                   CallPush (SurfTexture 1) None None] sample in
  let st' := (start (SurfTexture 1) None None st).2 in
  renderTargetStack st = [10; 11]%nat
  ∧ start (SurfTexture 1) None None st = (Ok (), st')
  ∧ ∃ r,
      renderTargetStack st' = [r]
      ∧ rootRenderTarget st' = Some r
      ∧ renderTarget st' = Some r
      ∧ getRenderTarget (SurfTexture 1) st' = (Ok r, st').
Proof.
  intros st st'.
  assert (start (SurfTexture 1) None None st = (Ok (), st')) as H
    by (vm_compute; reflexivity).
  split; [vm_compute; reflexivity|]. split; [exact H|].
  exact (start_resets_stack (SurfTexture 1) None None st st' H).
Defined.

Lemma bind_resizes_witness :
  let st' := (bind (SurfRenderTarget 1) None None sample).2 in
  bind (SurfRenderTarget 1) None None sample = (Ok 1%nat, st')
  ∧ ∃ g st2 st3,
      getGpuRenderTarget 1
        (upd_renderTarget (λ _, Some 1%nat) (getRenderTarget (SurfRenderTarget 1) sample).2)
        = (Ok g, st2)
      ∧ st' = bind_end 1 g (descriptor_of st3 1 g (default true None) None) st3
      ∧ (size_differs st2 1 g →
         resizeGpuRenderTarget 1 st2 = (Ok (), st3)
         ∧ gpu_width (gpuRenderTargets st3 g) = Some (width (renderTargets st2 1%nat))
         ∧ gpu_height (gpuRenderTargets st3 g) = Some (height (renderTargets st2 1%nat))
         ∧ (msaa (gpuRenderTargets st2 g) = true →
            ∀ i t m,
              colorTextures (renderTargets st2 1%nat) !! i = Some t →
              msaaTextures (gpuRenderTargets st2 g) !! i = Some m →
              msaaTextures (gpuRenderTargets st3 g) !! i =
              Some (TextureSource_resize (src_width (source_of st2 t))
                      (src_height (source_of st2 t)) (resolution (source_of st2 t)) m)))
      ∧ gpu_width (gpuRenderTargets st' g) = Some (width (renderTargets st' 1%nat))
      ∧ gpu_height (gpuRenderTargets st' g) = Some (height (renderTargets st' 1%nat)).
Proof.
  intros st'.
  assert (bind (SurfRenderTarget 1) None None sample = (Ok 1%nat, st')) as H
    by (vm_compute; reflexivity).
  split; [exact H|].
  exact (bind_resizes (SurfRenderTarget 1) None None sample 1%nat st' H).
Defined.

Lemma initGpuRenderTarget_uniform_antialias_witness :
  let st' := (initGpuRenderTarget 1 sample).2 in
  let colors := colorTextures (renderTargets st' 1%nat) in
  let G := gpuRenderTargets st' 0%nat in
  initGpuRenderTarget 1 sample = (Ok 0%nat, st')
  ∧ Forall (λ t, antialias (source_of sample t) = true)
      (colorTextures (renderTargets sample 1%nat))
  ∧ (true = true → colors ≠ [] →
       msaaSamples G = 4
       ∧ (∀ i, (i < length colors)%nat →
               ∃ m, msaaTextures G !! i = Some m ∧ sampleCount m = 4)
       ∧ (∀ i, (length colors ≤ i)%nat → msaaTextures G !! i = None)
       ∧ ∀ d, depthTexture (renderTargets sample 1%nat) = Some d →
              sampleCount (source_of st' d) = 4)
  ∧ (true = false → msaaSamples G = 1 ∧ ∀ i, msaaTextures G !! i = None).
Proof.
  intros st' colors G.
  assert (initGpuRenderTarget 1 sample = (Ok 0%nat, st')) as H
    by (vm_compute; reflexivity).
  assert (Forall (λ t, antialias (source_of sample t) = true)
            (colorTextures (renderTargets sample 1%nat))) as Hall
    by (repeat constructor).
  split; [exact H|]. split; [exact Hall|].
  exact (initGpuRenderTarget_uniform_antialias 1 sample 0 st' true H Hall).
Defined.

Lemma configure_failure_is_swallowed_witness :
  colorTextures (renderTargets sample_ready 3%nat) = 2%nat :: []
  ∧ resource (source_of sample_ready 2) ≠ PlainResource
  ∧ [2%nat] !! 0%nat = Some 2%nat
  ∧ resource (source_of sample_ready 2) = HTMLCanvasElement (Some (sample_context true))
  ∧ configure_error (gpu sample_ready) (first_context sample_ready 3) = Some DOMException
  ∧ ∃ g st',
      initGpuRenderTarget 3 sample_ready = (Ok g, st')
      ∧ gpuRenderTargetHash st' !! 3%nat = Some g
      ∧ contexts (gpuRenderTargets st' g) !! 0%nat = Some (first_context sample_ready 3)
      ∧ (0%nat = 0%nat → first_context sample_ready 3 = Some (sample_context true))
      ∧ ConsoleError DOMException ∈ trace st'
      ∧ (gpuRenderTargetHash sample_ready !! 3%nat = None →
         getGpuRenderTarget 3 sample_ready = (Ok g, st')).
Proof.
  assert (resource (source_of sample_ready 2) ≠ PlainResource) as Hplain
    by (vm_compute; discriminate).
  split; [reflexivity|]. split; [exact Hplain|]. do 3 (split; [reflexivity|]).
  exact (configure_failure_is_swallowed 3 sample_ready 2 [] 0 2 (Some (sample_context true))
           DOMException eq_refl Hplain eq_refl eq_refl eq_refl).
Defined.

Lemma targets_are_roots_witness :
  reachable sample
  ∧ (∀ s r st', initRenderTarget s sample = (Ok r, st') →
                isRoot (renderTargets st' r) = true)
  ∧ (∀ r g st', initGpuRenderTarget r sample = (Ok g, st') →
                isRoot (renderTargets st' r) = true)
  ∧ (∀ s r st', getRenderTarget s sample = (Ok r, st') →
                isRoot (renderTargets st' r) = true)
  ∧ (∀ r g st', getGpuRenderTarget r sample = (Ok g, st') →
                isRoot (renderTargets st' r) = true).
Proof.
  split; [constructor|].
  exact (targets_are_roots sample (reachable_new _ _ _ _)).
Defined.

Lemma getRenderTarget_reference_stable_witness :
  reachable sample
  ∧ (constructions (SurfTexture 1) (trace sample) ≤ 1)%nat
  ∧ ∀ r st1,
      getRenderTarget (SurfTexture 1) sample = (Ok r, st1) →
      ∀ cs, getRenderTarget (SurfTexture 1) (calls cs st1) = (Ok r, calls cs st1)
            ∧ (constructions (SurfTexture 1) (trace (calls cs st1)) ≤ 1)%nat.
Proof.
  split; [constructor|].
  exact (getRenderTarget_reference_stable sample (SurfTexture 1) (reachable_new _ _ _ _)).
Defined.

Lemma getGpuRenderTarget_failed_setup_repeats_witness :
  let st' := calls (replicate 2 (CallGetGpuRenderTarget 4)) sample in
  gpuRenderTargetHash sample !! 4%nat = None
  ∧ Exists (λ t, is_canvas (resource (source_of sample t)) = true)
      (colorTextures (renderTargets sample 4%nat))
  ∧ (∃ t0, head (colorTextures (renderTargets sample 4%nat)) = Some t0
           ∧ resource (source_of sample t0) = PlainResource)
  ∧ (getGpuRenderTarget 4 st').1 = Throw TypeError
  ∧ gpuRenderTargetHash st' !! 4%nat = None
  ∧ setups 4 (trace st') = (setups 4 (trace sample) + 2)%nat
  ∧ next_gpu st' = (next_gpu sample + 2)%nat.
Proof.
  intros st'.
  assert (gpuRenderTargetHash sample !! 4%nat = None) as Hmiss by reflexivity.
  assert (Exists (λ t, is_canvas (resource (source_of sample t)) = true)
            (colorTextures (renderTargets sample 4%nat))) as Hex
    by (right; left; reflexivity).
  assert (∃ t0, head (colorTextures (renderTargets sample 4%nat)) = Some t0
                ∧ resource (source_of sample t0) = PlainResource) as Hfirst
    by (exists 3%nat; split; reflexivity).
  split; [exact Hmiss|]. split; [exact Hex|]. split; [exact Hfirst|].
  exact (getGpuRenderTarget_failed_setup_repeats sample 4 2 Hmiss Hex Hfirst).
Defined.

(** * More of the system: the stack, the root and the accessors *)

(** ** Facts the further properties share *)

(** Dropping the top of the stack keeps what holds in every store. *)
Lemma invariant_removelast st :
  invariant st → invariant (upd_renderTargetStack (λ s, removelast s) st).
Proof.
  intros [ih ig ik it iu]. split; simpl; try done.
  intros r Hr%removelast_elem_of. by apply ik.
Qed.

(** Rebinding a render target that has its backend target, without
    clearing: [bind] returns, and every colour attachment loads. *)
Lemma rebind_load st r :
  invariant st → is_Some (gpuRenderTargetHash st !! r) →
  ∃ g d st',
    bind (SurfRenderTarget r) (Some false) None st = (Ok r, st')
    ∧ renderTargetStack st' = renderTargetStack st
    ∧ rootRenderTarget st' = rootRenderTarget st
    ∧ renderTarget st' = Some r
    ∧ gpuRenderTargetHash st' !! r = Some g
    ∧ descriptor (gpuRenderTargets st' g) = Some d
    ∧ length (colorAttachments d) = length (colorTextures (renderTargets st' r))
    ∧ Forall (λ a, loadOp a = LoadOp_load) (colorAttachments d).
Proof.
  intros Hinv [g0 Hg0].
  destruct (getRenderTarget_renderTarget st r Hinv) as (st1 & Hget & Hgh & _).
  destruct (bind_run (SurfRenderTarget r) (Some false) None st r st1 g0)
    as [st' Hbind]; [done|by rewrite Hgh|].
  destruct (bind_descriptor _ _ _ _ _ _ Hbind) as (g & d & Hg & Hd & Hlen & Hall & _).
  destruct (bind_frame _ _ _ _ _ _ Hbind) as (Hs & Hroot & Hr & _).
  exists g, d, st'. do 7 (split; [done|]).
  eapply Forall_impl; [exact Hall|]. by intros a (? & _).
Qed.

(** [pop] on a stack of two or more. *)
Lemma pop_returns st rest below top :
  invariant st →
  renderTargetStack st = rest ++ [below; top] →
  ∃ g d st',
    pop st = (Ok (), st')
    ∧ renderTargetStack st' = rest ++ [below]
    ∧ renderTarget st' = Some below
    ∧ gpuRenderTargetHash st' !! below = Some g
    ∧ descriptor (gpuRenderTargets st' g) = Some d
    ∧ Forall (λ a, loadOp a = LoadOp_load) (colorAttachments d).
Proof.
  intros Hinv Hstack.
  set (st1 := upd_renderTargetStack (λ s, removelast s) st).
  assert (renderTargetStack st1 = rest ++ [below]) as Hstack1.
  { simpl. rewrite Hstack. change [below; top] with ([below] ++ [top]).
    by rewrite app_assoc, removelast_last. }
  pose proof (invariant_removelast st Hinv) as Hinv1. fold st1 in Hinv1.
  assert (top_surface (renderTargetStack st1) = SurfRenderTarget below) as Htop.
  { unfold top_surface. by rewrite Hstack1, last_snoc. }
  destruct (rebind_load st1 below Hinv1)
    as (g & d & st' & Hbind & Hs & _ & Hr & Hg & Hd & _ & Hall).
  { apply (inv_stack _ Hinv1). rewrite Hstack1. apply elem_of_app. right. left. }
  exists g, d, st'. split.
  { rewrite pop_unfold. cbv zeta. fold st1. by rewrite Htop, Hbind. }
  rewrite Hs. by do 4 (split; [done|]).
Qed.

Lemma push_unfold s cl cc st :
  push s cl cc st =
  match bind s cl cc st with
  | (Ok r, st') => (Ok r, upd_renderTargetStack (λ t, t ++ [r]) st')
  | (Throw e, st') => (Throw e, st')
  end.
Proof. reflexivity. Qed.

Lemma restart_unfold st :
  restart st =
  match bind (from_option SurfRenderTarget SurfUndefined (rootRenderTarget st))
          (Some false) None st with
  | (Ok _, st') => (Ok (), st')
  | (Throw e, st') => (Throw e, st')
  end.
Proof. reflexivity. Qed.

(** A surface that resolves to nothing stops [bind] at its first
    statement. *)
Lemma bind_unresolvable st s cl cc :
  invariant st → (∀ r, ¬ resolves s r) →
  getRenderTarget s st = (Throw TypeError, st)
  ∧ bind s cl cc st = (Throw TypeError, st).
Proof.
  intros Hinv Hs.
  assert (getRenderTarget s st = (Throw TypeError, st)) as Hget.
  { rewrite getRenderTarget_miss by (by apply unresolvable_uncached).
    destruct s as [c|t|r0|]; try done.
    - by destruct (Hs 0%nat).
    - by destruct (Hs r0). }
  split; [done|]. by rewrite bind_unfold, Hget.
Qed.

(** ** The stack *)

(** X1: in every store the system can be in, [pop] on a stack of at most
    one target throws a TypeError: the stack is left empty, and nothing
    else of the store changes: no target is bound and no pass begins. *)
Theorem pop_underflow st :
  reachable st →
  (length (renderTargetStack st) ≤ 1)%nat →
  pop st = (Throw TypeError, upd_renderTargetStack (λ s, removelast s) st)
  ∧ removelast (renderTargetStack st) = [].
Proof.
  intros Hinv%reachable_invariant Hlen.
  assert (removelast (renderTargetStack st) = []) as Hempty.
  { destruct (renderTargetStack st) as [|x [|y l]]; simpl in *; [done|done|lia]. }
  split; [|done].
  rewrite pop_unfold. cbv zeta.
  set (st1 := upd_renderTargetStack (λ s, removelast s) st).
  assert (top_surface (renderTargetStack st1) = SurfUndefined) as ->.
  { unfold top_surface. simpl. by rewrite Hempty. }
  destruct (bind_unresolvable st1 SurfUndefined (Some false) None) as [_ ->];
    [by apply invariant_removelast|intros r Hr; exact Hr|done].
Qed.

Lemma push_result s cl cc st :
  match push s cl cc st with
  | (Ok r, st') =>
      renderTargetStack st' = renderTargetStack st ++ [r]
      ∧ renderTarget st' = Some r
      ∧ renderSurfaceToRenderTargetHash st' !! s = Some r
      ∧ is_Some (gpuRenderTargetHash st' !! r)
  | (Throw e, st') => renderTargetStack st' = renderTargetStack st
  end.
Proof.
  rewrite push_unfold.
  pose proof (bind_keeps_stack s cl cc st) as Hks.
  destruct (bind s cl cc st) as [[r|e] st1] eqn:Hbind; [|exact Hks].
  destruct (bind_frame _ _ _ _ _ _ Hbind) as (Hs & _ & Hr & Hh).
  simpl. rewrite Hs. do 3 (split; [done|]). by apply bind_ok in Hbind.
Qed.

(** X2: what [push] does to the stack: when it returns, the target it
    bound is appended, is the current target, is what the surface resolves
    to and has its backend target; when it throws, the stack is as it
    was. *)
Theorem push_outcome s cl cc st :
  match push s cl cc st with
  | (Ok r, st') =>
      renderTargetStack st' = renderTargetStack st ++ [r]
      ∧ renderTarget st' = Some r
      ∧ renderSurfaceToRenderTargetHash st' !! s = Some r
      ∧ is_Some (gpuRenderTargetHash st' !! r)
  | (Throw e, st') => renderTargetStack st' = renderTargetStack st
  end.
Proof. apply push_result. Qed.

(** X3: push then pop is a round trip on the stack.  In every store the
    system can be in whose stack is not empty, after a [push] that
    returns, [pop] returns, the stack is what it was before the push, the
    target that was on top is the current target again, and every colour
    attachment of its new descriptor loads. *)
Theorem push_pop_round_trip st rest top s cl cc r st1 :
  reachable st →
  renderTargetStack st = rest ++ [top] →
  push s cl cc st = (Ok r, st1) →
  ∃ g d st2,
    pop st1 = (Ok (), st2)
    ∧ renderTargetStack st2 = renderTargetStack st
    ∧ renderTarget st2 = Some top
    ∧ gpuRenderTargetHash st2 !! top = Some g
    ∧ descriptor (gpuRenderTargets st2 g) = Some d
    ∧ Forall (λ a, loadOp a = LoadOp_load) (colorAttachments d).
Proof.
  intros Hreach Hstack Hpush.
  assert (invariant st1) as Hinv1.
  { apply reachable_invariant.
    replace st1 with (call (CallPush s cl cc) st) by (simpl; by rewrite Hpush).
    by constructor. }
  pose proof (push_result s cl cc st) as Hout. rewrite Hpush in Hout.
  destruct Hout as (Hs1 & _).
  destruct (pop_returns st1 rest top r Hinv1) as (g & d & st2 & Hpop & Hs2 & Hrest).
  { by rewrite Hs1, Hstack, <- app_assoc. }
  exists g, d, st2. split; [done|]. split; [by rewrite Hs2, Hstack|done].
Qed.

(** ** The root target *)

Global Instance keeps_root_preorder : PreOrder keeps_root.
Proof.
  split; [by intros st|]. intros st1 st2 st3 H1 H2. unfold keeps_root in *. congruence.
Qed.

Lemma stable_keeps_root {A} (m : M A) : respects stable m → respects keeps_root m.
Proof. intros H st. apply (st_rootRenderTarget _ _ (H st)). Qed.

Lemma getRenderTarget_keeps_root s : respects keeps_root (getRenderTarget s).
Proof. intros st. by destruct (getRenderTarget_frame s st) as (_ & ? & _). Qed.

Lemma bind_keeps_root s cl cc : respects keeps_root (bind s cl cc).
Proof.
  unfold bind, emit, modify_gpu.
  respects_with ltac:(reflexivity);
    first [ apply getRenderTarget_keeps_root
          | apply stable_keeps_root; eauto with respects ].
Qed.

Lemma push_keeps_root s cl cc : respects keeps_root (push s cl cc).
Proof. unfold push. respects_with ltac:(reflexivity). apply bind_keeps_root. Qed.

Lemma pop_keeps_root : respects keeps_root pop.
Proof. unfold pop. respects_with ltac:(reflexivity). apply bind_keeps_root. Qed.

Lemma restart_keeps_root : respects keeps_root restart.
Proof. unfold restart. respects_with ltac:(reflexivity). apply bind_keeps_root. Qed.

(** Only [start] chooses a root target. *)
Lemma call_keeps_root c st : not_start c = true → keeps_root st (call c st).
Proof.
  destruct c; simpl; try done; intros _.
  - apply bind_keeps_root.
  - apply push_keeps_root.
  - apply pop_keeps_root.
  - apply restart_keeps_root.
  - apply getRenderTarget_keeps_root.
  - apply stable_keeps_root. eauto with respects.
  - apply stable_keeps_root. eauto with respects.
Qed.

Lemma calls_keep_root cs st :
  Forall (λ c, not_start c = true) cs → keeps_root st (calls cs st).
Proof.
  revert st. induction cs as [|c cs IH]; intros st Hall; simpl; [done|].
  apply Forall_cons in Hall as [Hc Hcs].
  etrans; [by apply call_keeps_root | by apply IH].
Qed.

(** What a [start] that returns leaves behind. *)
Lemma start_returns s cl cc st st' :
  start s cl cc st = (Ok (), st') →
  ∃ r,
    renderTargetStack st' = [r]
    ∧ rootRenderTarget st' = Some r
    ∧ renderTarget st' = Some r
    ∧ renderSurfaceToRenderTargetHash st' !! s = Some r
    ∧ is_Some (gpuRenderTargetHash st' !! r).
Proof.
  unfold start. intros H.
  apply mbind_ok in H as (r & st1 & Hget & H).
  munfold. simpl in H.
  match type of H with
  | context [push s ?c cc ?st3] =>
      pose proof (push_result s c cc st3) as Hout;
      pose proof (bind_keeps_root s c cc st3) as Hroot;
      rewrite push_unfold in H, Hout;
      destruct (bind s c cc st3) as [[r'|e] st4] eqn:Hbind; [|done]
  end.
  injection H as <-. simpl in *.
  destruct Hout as (Hs & Hr & Hh & Hg).
  assert (r' = r) as ->.
  { apply bind_inv in Hbind as (? & ? & ? & ? & Hget2 & _).
    rewrite getRenderTarget_hit with (r := r) in Hget2; [by injection Hget2|].
    simpl. by apply getRenderTarget_ok in Hget. }
  exists r. unfold keeps_root in Hroot. simpl in Hroot. by rewrite Hroot.
Qed.

(** X4: in every store the system can be in that has no root target yet,
    [restart] throws a TypeError and leaves the store as it found it. *)
Theorem restart_before_start st :
  reachable st →
  rootRenderTarget st = None →
  restart st = (Throw TypeError, st).
Proof.
  intros Hinv%reachable_invariant Hroot.
  rewrite restart_unfold, Hroot. simpl.
  destruct (bind_unresolvable st SurfUndefined (Some false) None Hinv) as [_ ->];
    [intros r Hr; exact Hr|done].
Qed.

(** X5: [restart] resumes the root.  After a [start] that returned, and
    after any further calls but another [start] and any changes of the
    world, [restart] returns: the root target of that [start] is the
    current target, the stack is left as it is, and every colour
    attachment of the root's new descriptor loads. *)
Theorem restart_resumes_root st s cl cc st1 cs :
  reachable st →
  start s cl cc st = (Ok (), st1) →
  Forall (λ c, not_start c = true) cs →
  ∃ r g d st',
    restart (calls cs st1) = (Ok (), st')
    ∧ rootRenderTarget st1 = Some r
    ∧ rootRenderTarget st' = Some r
    ∧ renderTarget st' = Some r
    ∧ renderTargetStack st' = renderTargetStack (calls cs st1)
    ∧ gpuRenderTargetHash st' !! r = Some g
    ∧ descriptor (gpuRenderTargets st' g) = Some d
    ∧ Forall (λ a, loadOp a = LoadOp_load) (colorAttachments d).
Proof.
  intros Hreach Hstart Hcs.
  destruct (start_returns _ _ _ _ _ Hstart) as (r & _ & Hroot & _ & _ & [g0 Hg0]).
  set (st2 := calls cs st1).
  assert (reachable st2) as Hreach2.
  { apply reachable_calls.
    replace st1 with (call (CallStart s cl cc) st) by (simpl; by rewrite Hstart).
    by constructor. }
  assert (rootRenderTarget st2 = Some r) as Hroot2.
  { rewrite <- Hroot. by apply calls_keep_root. }
  destruct (rebind_load st2 r) as (g & d & st' & Hbind & Hs & Hr0 & Hr & Hg & Hd & _ & Hall).
  { by apply reachable_invariant. }
  { exists g0. by apply (ev_gpuHash _ _ (calls_evolves cs st1)). }
  exists r, g, d, st'. split.
  { rewrite restart_unfold, Hroot2. simpl. by rewrite Hbind. }
  rewrite Hr0. by do 6 (split; [done|]).
Qed.

(** ** Surfaces *)

(** X6: in every store the system can be in, a canvas and [undefined]
    resolve to nothing: [getRenderTarget], [bind] and [push] throw a
    TypeError on them and leave the store as they found it: nothing is
    cached, the current target stays, nothing is pushed, no pass
    begins. *)
Theorem unresolvable_surface_throws st s cl cc :
  reachable st →
  (∃ c, s = SurfCanvas c) ∨ s = SurfUndefined →
  getRenderTarget s st = (Throw TypeError, st)
  ∧ bind s cl cc st = (Throw TypeError, st)
  ∧ push s cl cc st = (Throw TypeError, st).
Proof.
  intros Hinv%reachable_invariant Hs.
  destruct (bind_unresolvable st s cl cc Hinv) as [Hget Hbind].
  { intros r Hr. destruct Hs as [[c ->]| ->]; exact Hr. }
  do 2 (split; [done|]). by rewrite push_unfold, Hbind.
Qed.

(** X7: in every store the system can be in, a render target passed as a
    surface resolves to itself: [getRenderTarget] returns it, marked as
    root, constructs nothing, and leaves every render target's
    attachments, size and matrix, every texture and every texture source
    as they were. *)
Theorem renderTarget_surface_resolves_to_itself st r :
  reachable st →
  ∃ st1,
    getRenderTarget (SurfRenderTarget r) st = (Ok r, st1)
    ∧ isRoot (renderTargets st1 r) = true
    ∧ trace st1 = trace st
    ∧ next_uid st1 = next_uid st
    ∧ (∀ r', rt_shape (renderTargets st1 r') = rt_shape (renderTargets st r'))
    ∧ textures st1 = textures st
    ∧ sources st1 = sources st.
Proof.
  intros Hinv%reachable_invariant.
  destruct (renderSurfaceToRenderTargetHash st !! SurfRenderTarget r) as [r0|] eqn:E.
  - destruct (inv_hash _ Hinv _ _ E) as [Hroot Hr]. simpl in Hr. subst r0.
    exists st. by rewrite (getRenderTarget_hit _ _ _ E).
  - rewrite (getRenderTarget_miss _ _ E). eexists. split; [reflexivity|].
    simpl. rewrite fn_lookup_insert. do 3 (split; [done|]). split; [|done].
    intros r'. unfold insert, fn_insert. by case_decide; subst.
Qed.

(** X8: in every store the system can be in, every render target on the
    stack has been bound: it is marked as root, and the lookup of its
    backend target is a cache hit that leaves the store as it is. *)
Theorem stack_targets_are_bound st r :
  reachable st →
  r ∈ renderTargetStack st →
  isRoot (renderTargets st r) = true
  ∧ ∃ g, getGpuRenderTarget r st = (Ok g, st).
Proof.
  intros Hinv%reachable_invariant Hr.
  destruct (inv_stack _ Hinv r Hr) as [g Hg].
  split; [by apply (inv_gpuHash _ Hinv r g)|].
  exists g. by apply getGpuRenderTarget_hit.
Qed.

(** ** Backend targets are not shared *)

Global Instance keeps_fresh_preorder : PreOrder keeps_fresh.
Proof. split; [intros st H; exact H|]. intros st1 st2 st3 H1 H2 H. by apply H2, H1. Qed.

Lemma gpu_fresh_same st st' :
  gpuRenderTargetHash st' = gpuRenderTargetHash st → next_gpu st' = next_gpu st →
  keeps_fresh st st'.
Proof. intros Hg Hn [Hb Hi]. split; rewrite ?Hg, ?Hn; done. Qed.

Ltac fresh_leaf := apply gpu_fresh_same; reflexivity.

Lemma quiet_keeps_fresh {A} (m : M A) : respects quiet m → respects keeps_fresh m.
Proof.
  intros H st. apply gpu_fresh_same; [apply (q_gpuHash _ _ (H st))|apply (q_next_gpu _ _ (H st))].
Qed.

Lemma initGpuRenderTarget_end_next_gpu uid g st :
  next_gpu (initGpuRenderTarget_end uid g st) = next_gpu st.
Proof.
  unfold initGpuRenderTarget_end. destruct (msaa _); [|done]. by destruct (depthTexture _).
Qed.

Lemma initGpuRenderTarget_keeps_fresh uid : respects keeps_fresh (initGpuRenderTarget uid).
Proof.
  intros st [Hb Hi]. rewrite initGpuRenderTarget_unfold.
  pose proof (initGpuRenderTarget_loop_quiet uid (next_gpu st)
    (colorTextures (renderTargets st uid)) (initGpuRenderTarget_begin uid st)) as Hq.
  destruct (forEach _ _ _) as [[[]|e] s4]; simpl in *.
  - destruct (initGpuRenderTarget_end_frame uid (next_gpu st) s4) as (Hg & _).
    split; rewrite ?Hg, ?initGpuRenderTarget_end_next_gpu,
      ?(q_gpuHash _ _ Hq), ?(q_next_gpu _ _ Hq); simpl.
    + intros r g. destruct (decide (r = uid)) as [->|].
      * rewrite lookup_insert_eq. intros [= <-]. lia.
      * rewrite lookup_insert_ne by done. intros H%Hb. lia.
    + intros r1 r2 g.
      destruct (decide (r1 = uid)) as [->|], (decide (r2 = uid)) as [->|];
        rewrite ?lookup_insert_eq, ?lookup_insert_ne by done; try done.
      * intros [= <-] H%Hb. lia.
      * intros H%Hb [= <-]. lia.
      * apply Hi.
  - split; rewrite ?(q_gpuHash _ _ Hq), ?(q_next_gpu _ _ Hq); simpl; [|done].
    intros r g H%Hb. lia.
Qed.

Lemma getGpuRenderTarget_keeps_fresh uid : respects keeps_fresh (getGpuRenderTarget uid).
Proof.
  intros st. destruct (gpuRenderTargetHash st !! uid) as [g|] eqn:E.
  - by rewrite (getGpuRenderTarget_hit _ _ _ E).
  - rewrite (getGpuRenderTarget_miss _ _ E). apply initGpuRenderTarget_keeps_fresh.
Qed.

Lemma getRenderTarget_next_gpu s st : next_gpu (getRenderTarget s st).2 = next_gpu st.
Proof.
  unfold getRenderTarget, initRenderTarget, RenderTarget_new. munfold.
  destruct (renderSurfaceToRenderTargetHash st !! s); [done|]. by destruct s.
Qed.

Lemma getRenderTarget_keeps_fresh s : respects keeps_fresh (getRenderTarget s).
Proof.
  intros st. apply gpu_fresh_same; [|apply getRenderTarget_next_gpu].
  by destruct (getRenderTarget_frame s st) as (_ & _ & _ & ? & _).
Qed.

Create HintDb fresh.
#[local] Hint Resolve getGpuRenderTarget_keeps_fresh getRenderTarget_keeps_fresh : fresh.

Lemma resizeGpuRenderTarget_keeps_fresh uid : respects keeps_fresh (resizeGpuRenderTarget uid).
Proof.
  unfold resizeGpuRenderTarget, forEach, modify_gpu.
  respects_with fresh_leaf; try (by eauto with fresh).
  apply quiet_keeps_fresh, resizeGpuRenderTarget_attachment_quiet.
Qed.

Lemma getDescriptor_keeps_fresh uid cl cv : respects keeps_fresh (getDescriptor uid cl cv).
Proof. unfold getDescriptor. respects_with fresh_leaf; by eauto with fresh. Qed.

#[local] Hint Resolve resizeGpuRenderTarget_keeps_fresh getDescriptor_keeps_fresh : fresh.

Lemma bind_keeps_fresh s cl cc : respects keeps_fresh (bind s cl cc).
Proof. unfold bind, emit, modify_gpu. respects_with fresh_leaf; by eauto with fresh. Qed.

#[local] Hint Resolve bind_keeps_fresh : fresh.

Lemma push_keeps_fresh s cl cc : respects keeps_fresh (push s cl cc).
Proof. unfold push. respects_with fresh_leaf; by eauto with fresh. Qed.

#[local] Hint Resolve push_keeps_fresh : fresh.

Lemma call_keeps_fresh c st : keeps_fresh st (call c st).
Proof.
  destruct c; simpl.
  - revert st. change (respects keeps_fresh (start rootRenderSurface clear clearColor)).
    unfold start, emit. respects_with fresh_leaf; by eauto with fresh.
  - apply bind_keeps_fresh.
  - apply push_keeps_fresh.
  - revert st. change (respects keeps_fresh pop).
    unfold pop. respects_with fresh_leaf; by eauto with fresh.
  - revert st. change (respects keeps_fresh restart).
    unfold restart. respects_with fresh_leaf; by eauto with fresh.
  - apply getRenderTarget_keeps_fresh.
  - apply getGpuRenderTarget_keeps_fresh.
  - apply getDescriptor_keeps_fresh.
  - by apply gpu_fresh_same.
  - by apply gpu_fresh_same.
Qed.

Lemma reachable_gpu_fresh st : reachable st → gpu_fresh st.
Proof.
  induction 1 as [srcs texs rts uid|c st _ IH].
  - split; simpl; intros *; by rewrite lookup_empty.
  - by apply (call_keeps_fresh c st).
Qed.

(** X9: in every store the system can be in, no two render targets share a
    backend target. *)
Theorem backend_targets_are_not_shared st r1 r2 g :
  reachable st →
  gpuRenderTargetHash st !! r1 = Some g →
  gpuRenderTargetHash st !! r2 = Some g →
  r1 = r2.
Proof. intros Hfresh%reachable_gpu_fresh. apply (gf_inj _ Hfresh). Qed.

(** ** What a bind writes to *)

Global Instance only_writes_preorder g : PreOrder (only_writes g).
Proof.
  split; [by intros st g'|].
  intros st1 st2 st3 H1 H2 g' Hg'. by rewrite (H2 g' Hg'), (H1 g' Hg').
Qed.

Lemma only_writes_same g (st st' : State) :
  gpuRenderTargets st' = gpuRenderTargets st → only_writes g st st'.
Proof. intros H g' _. by rewrite H. Qed.

Ltac writes_leaf :=
  first [ apply only_writes_same; reflexivity
        | intros ? ?; simpl; by rewrite fn_lookup_insert_ne ].

Lemma configure_only_writes g context : respects (only_writes g) (configure context).
Proof. unfold configure, emit. respects_with writes_leaf. Qed.

Lemma initGpuRenderTarget_attachment_only_writes uid g t i :
  respects (only_writes g) (initGpuRenderTarget_attachment uid g t i).
Proof.
  unfold initGpuRenderTarget_attachment, emit, modify_gpu.
  respects_with writes_leaf;
    try (intros st; rewrite ?getContext_same, ?colorTexture_source_same; reflexivity);
    try apply configure_only_writes.
Qed.

Lemma resizeGpuRenderTarget_attachment_only_writes g t i :
  respects (only_writes g) (resizeGpuRenderTarget_attachment g t i).
Proof.
  unfold resizeGpuRenderTarget_attachment, modify_gpu. respects_with writes_leaf.
Qed.

(** First-time setup writes to the backend target it creates, and to no
    other. *)
Lemma initGpuRenderTarget_only_writes uid st :
  only_writes (next_gpu st) st (initGpuRenderTarget uid st).2.
Proof.
  rewrite initGpuRenderTarget_unfold.
  pose proof (respects_forEach_from (only_writes (next_gpu st)) _
    (colorTextures (renderTargets st uid))
    (initGpuRenderTarget_attachment_only_writes uid (next_gpu st)) 0%nat
    (initGpuRenderTarget_begin uid st)) as Hloop.
  assert (only_writes (next_gpu st) st (initGpuRenderTarget_begin uid st)) as Hb.
  { intros g' Hg'. simpl. by rewrite fn_lookup_insert_ne. }
  unfold forEach. destruct (forEach_from _ _ _ _) as [[[]|e] s4]; simpl in *.
  - etrans; [exact Hb|]. etrans; [exact Hloop|].
    intros g' Hg'. unfold initGpuRenderTarget_end.
    destruct (msaa _); [|done].
    destruct (depthTexture _); simpl; by rewrite fn_lookup_insert_ne.
  - by etrans.
Qed.

Lemma getGpuRenderTarget_only_writes uid st g st' :
  getGpuRenderTarget uid st = (Ok g, st') → only_writes g st st'.
Proof.
  destruct (gpuRenderTargetHash st !! uid) as [g0|] eqn:E.
  - rewrite (getGpuRenderTarget_hit _ _ _ E). by intros [= <- <-].
  - rewrite (getGpuRenderTarget_miss _ _ E). intros H.
    pose proof (initGpuRenderTarget_only_writes uid st) as Hw.
    rewrite H in Hw. simpl in Hw.
    rewrite initGpuRenderTarget_unfold in H.
    destruct (forEach _ _ _) as [[[]|e] s4]; [|done]. by injection H as <- _.
Qed.

Lemma resizeGpuRenderTarget_only_writes uid g st :
  gpuRenderTargetHash st !! uid = Some g →
  only_writes g st (resizeGpuRenderTarget uid st).2.
Proof.
  intros Hg. unfold resizeGpuRenderTarget.
  rewrite mbind_unfold, (getGpuRenderTarget_hit _ _ _ Hg). munfold. simpl.
  set (st1 := upd_gpuRenderTargets _ st).
  assert (only_writes g st st1) as H1.
  { intros g' Hg'. simpl. by rewrite fn_lookup_insert_ne. }
  destruct (msaa _); [|done].
  etrans; [exact H1|].
  apply (respects_forEach_from (only_writes g)).
  apply resizeGpuRenderTarget_attachment_only_writes.
Qed.

(** A [bind] that returns writes to the backend target of the render target
    it binds, and to no other. *)
Lemma bind_only_writes s cl cc st r st' :
  bind s cl cc st = (Ok r, st') →
  ∃ g, gpuRenderTargetHash st' !! r = Some g ∧ only_writes g st st'.
Proof.
  intros (st1 & g & st2 & st3 & H1 & H2 & Hif & Hg & Hq & ->)%bind_inv.
  exists g. destruct (bind_end_frame r g (descriptor_of st3 r g (default true cl) cc) st3)
    as (-> & _). split; [done|].
  assert (only_writes g st st1) as Hw1.
  { apply only_writes_same.
    destruct (getRenderTarget_frame s st) as (_ & _ & _ & _ & Hgp & _). by rewrite H1 in Hgp. }
  assert (only_writes g st1 st2) as Hw2.
  { etrans; [|exact (getGpuRenderTarget_only_writes _ _ _ _ H2)]. by apply only_writes_same. }
  assert (only_writes g st2 st3) as Hw3.
  { destruct (decide (size_differs st2 r g)); [|by subst].
    pose proof (resizeGpuRenderTarget_only_writes r g st2) as Hw.
    rewrite Hif in Hw. apply Hw. by rewrite <- (q_gpuHash _ _ Hq). }
  etrans; [exact Hw1|]. etrans; [exact Hw2|]. etrans; [exact Hw3|].
  intros g' Hg'. simpl. by rewrite fn_lookup_insert_ne.
Qed.

(** X10: binding a render target leaves every other render target's backend
    target alone.  In every store the system can be in, when [bind]
    returns [r], a render target other than [r] that had a backend target
    still has the same one, with the same contexts, multisample textures,
    sample count, cached size and descriptor. *)
Theorem bind_leaves_other_backend_targets st s cl cc r st' r' g' :
  reachable st →
  bind s cl cc st = (Ok r, st') →
  gpuRenderTargetHash st !! r' = Some g' →
  r' ≠ r →
  gpuRenderTargetHash st' !! r' = Some g'
  ∧ gpuRenderTargets st' g' = gpuRenderTargets st g'.
Proof.
  intros Hreach Hbind Hg' Hne.
  assert (gpuRenderTargetHash st' !! r' = Some g') as Hg1.
  { pose proof (bind_evolves s cl cc st) as Hev. rewrite Hbind in Hev.
    by apply (ev_gpuHash _ _ Hev). }
  split; [done|].
  destruct (bind_only_writes _ _ _ _ _ _ Hbind) as (g & Hg & Hw).
  apply Hw. intros ->. apply Hne.
  assert (reachable st') as Hreach'.
  { replace st' with (call (CallBind s cl cc) st) by (simpl; by rewrite Hbind).
    by constructor. }
  apply (gf_inj _ (reachable_gpu_fresh _ Hreach') r' r g); done.
Qed.

(** ** First-time setup: what it tells whom, and when it throws *)

Lemma initGpuRenderTarget_loop_tells uid g l sb s' :
  forEach l (initGpuRenderTarget_attachment uid g) sb = (Ok (), s') →
  contexts (gpuRenderTargets sb g) = ∅ →
  trace s' = trace sb ++ flat_map (attachment_events sb uid) l
  ∧ ∀ i, contexts (gpuRenderTargets s' g) !! i =
         match l !! i with
         | Some t =>
             if is_canvas (resource (source_of sb t))
             then Some (first_context sb uid) else None
         | None => None
         end.
Proof.
  intros Hrun Hempty.
  pose (I := λ (k : nat) (s : State),
    quiet sb s
    ∧ trace s = trace sb ++ flat_map (attachment_events sb uid) (take k l)
    ∧ ∀ i, contexts (gpuRenderTargets s g) !! i =
           if decide (i < k)%nat then
             match l !! i with
             | Some t =>
                 if is_canvas (resource (source_of sb t))
                 then Some (first_context sb uid) else None
             | None => None
             end
           else None).
  assert (I (0 + length l)%nat s') as (Hq & Ht & Hc).
  { apply (forEach_from_ok I _ l 0%nat sb s' Hrun).
    - split; [done|]. rewrite take_0. cbn [flat_map]. rewrite app_nil_r. split; [done|].
      intros i. rewrite Hempty, lookup_empty. by destruct (decide _); [lia|].
    - intros k x s s1 Hk (Hq & Ht & Hc) Hbody. simpl in *.
      pose proof (quiet_step _ _ _ _ (initGpuRenderTarget_attachment_quiet uid g x k) Hbody)
        as Hq1.
      apply initGpuRenderTarget_attachment_ok in Hbody as (Hg & _ & Htr).
      split; [by etrans|]. split.
      + rewrite Htr, Ht, (take_S_r _ _ _ Hk), flat_map_app. simpl.
        rewrite app_nil_r, <- app_assoc. f_equal. f_equal.
        unfold attachment_events.
        by rewrite (quiet_source_of _ _ _ Hq), (quiet_first_context _ _ _ Hq),
          (q_gpu _ _ Hq).
      + intros i. rewrite Hg, attachment_setup_contexts, Hc.
        rewrite (quiet_source_of _ _ _ Hq), (quiet_first_context _ _ _ Hq).
        repeat case_decide; subst; try lia; rewrite ?Hk; try done.
        all: by destruct (is_canvas _). }
  simpl in *. rewrite firstn_all in Ht. split; [done|].
  intros i. rewrite Hc. case_decide; [done|].
  by rewrite lookup_ge_None_2 by lia.
Qed.

Lemma initGpuRenderTarget_begin_first_context uid st :
  first_context (initGpuRenderTarget_begin uid st) uid = first_context st uid.
Proof. unfold first_context. simpl. by rewrite fn_lookup_insert. Qed.

(** What a first-time setup that returns has told its collaborators, and
    the contexts it has recorded. *)
Lemma initGpuRenderTarget_effects uid st g st' :
  initGpuRenderTarget uid st = (Ok g, st') →
  let colors := colorTextures (renderTargets st uid) in
  trace st' = trace st ++ NewGpuRenderTarget uid g :: flat_map (attachment_events st uid) colors
  ∧ ∀ i, contexts (gpuRenderTargets st' g) !! i =
         match colors !! i with
         | Some t =>
             if is_canvas (resource (source_of st t))
             then Some (first_context st uid) else None
         | None => None
         end.
Proof.
  rewrite initGpuRenderTarget_unfold.
  destruct (forEach _ _ _) as [[[]|e] s4] eqn:Hloop; [|done].
  intros [= <- <-]. cbv zeta.
  destruct (initGpuRenderTarget_loop_tells _ _ _ _ _ Hloop) as [Ht Hc].
  { simpl. by rewrite fn_lookup_insert. }
  destruct (initGpuRenderTarget_end_frame uid (next_gpu st) s4) as (_ & _ & _ & -> & _).
  rewrite initGpuRenderTarget_end_contexts.
  split.
  - rewrite Ht. simpl. rewrite <- app_assoc. simpl. f_equal. f_equal.
    apply flat_map_ext. intros t. unfold attachment_events.
    by rewrite initGpuRenderTarget_begin_first_context.
  - intros i. rewrite Hc, initGpuRenderTarget_begin_first_context. done.
Qed.

(** X11: what a first-time setup that returns has told its collaborators,
    in order.  For every colour attachment that wraps an HTML canvas the
    guarded statement runs on the context of the FIRST colour texture of
    the target: if that context is [null], or while [contextChange] has
    not set [this.gpu], no [configure] call is made and a TypeError goes
    to [console.error]; otherwise [configure] is called once, and what it
    throws, if it throws, goes to [console.error].  Nothing is told for
    the other attachments.  That context is recorded at the indices of the
    attachments that wrap a canvas, and no context elsewhere. *)
Theorem initGpuRenderTarget_tells uid st g st' :
  initGpuRenderTarget uid st = (Ok g, st') →
  let colors := colorTextures (renderTargets st uid) in
  trace st' = trace st ++ NewGpuRenderTarget uid g :: flat_map (attachment_events st uid) colors
  ∧ ∀ i, contexts (gpuRenderTargets st' g) !! i =
         match colors !! i with
         | Some t =>
             if is_canvas (resource (source_of st t))
             then Some (first_context st uid) else None
         | None => None
         end.
Proof. apply initGpuRenderTarget_effects. Qed.

(** X12: first-time setup throws exactly when a colour texture wraps a
    canvas while the first colour texture wraps nothing [getContext] can
    be called on.  It then throws a TypeError and registers nothing, but
    the render target is already marked as root and a backend target has
    been created. *)
Theorem initGpuRenderTarget_throws_iff uid st :
  let colors := colorTextures (renderTargets st uid) in
  ((∃ e st', initGpuRenderTarget uid st = (Throw e, st'))
   ↔ Exists (λ t, is_canvas (resource (source_of st t)) = true) colors
     ∧ ∃ t0, head colors = Some t0 ∧ resource (source_of st t0) = PlainResource)
  ∧ ∀ e st',
      initGpuRenderTarget uid st = (Throw e, st') →
      e = TypeError
      ∧ gpuRenderTargetHash st' = gpuRenderTargetHash st
      ∧ isRoot (renderTargets st' uid) = true
      ∧ next_gpu st' = S (next_gpu st).
Proof.
  intros colors.
  set (sb := initGpuRenderTarget_begin uid st).
  assert (∀ t, source_of sb t = source_of st t) as Hsrc by done.
  assert (colorTextures (renderTargets sb uid) = colors) as Hcol
    by (simpl; by rewrite fn_lookup_insert).
  pose proof (initGpuRenderTarget_loop_quiet uid (next_gpu st) colors sb) as Hq.
  split; [split|].
  - intros (e & st' & Hthrow).
    destruct (decide (Exists (λ t, is_canvas (resource (source_of st t)) = true) colors))
      as [Hex|Hnex].
    + split; [done|].
      destruct (head colors) as [t0|] eqn:Hhead;
        [|apply head_None in Hhead; rewrite Hhead in Hex; by apply Exists_nil in Hex].
      exists t0. split; [done|].
      destruct (resource (source_of st t0)) eqn:Hres; [| |done].
      all: exfalso; rewrite initGpuRenderTarget_unfold in Hthrow; fold sb colors in Hthrow.
      all: destruct (initGpuRenderTarget_loop_total uid (next_gpu st) colors sb) as [s4 Hs4];
        [intros t _ _; exists t0; rewrite Hcol, Hsrc, Hres; by split|].
      all: by rewrite Hs4 in Hthrow.
    + exfalso. rewrite initGpuRenderTarget_unfold in Hthrow. fold sb colors in Hthrow.
      destruct (initGpuRenderTarget_loop_total uid (next_gpu st) colors sb) as [s4 Hs4].
      { intros t Ht Hc. destruct Hnex. apply Exists_exists. exists t.
        split; [done|]. by rewrite <- Hsrc. }
      by rewrite Hs4 in Hthrow.
  - intros (Hex & t0 & Hhead & Hres).
    destruct (initGpuRenderTarget_loop_throws uid (next_gpu st) colors 0%nat sb)
      as (s' & Hrun & _).
    + eapply Exists_impl; [exact Hex|]. intros t Ht. by rewrite Hsrc.
    + intros t1. rewrite Hcol, Hhead. intros [= <-]. by rewrite Hsrc.
    + exists TypeError, s'. rewrite initGpuRenderTarget_unfold. fold sb colors.
      unfold forEach. by rewrite Hrun.
  - intros e st' Hthrow. rewrite initGpuRenderTarget_unfold in Hthrow.
    fold sb colors in Hthrow.
    destruct (forEach colors _ sb) as [[[]|e'] s4] eqn:Hloop; [done|].
    injection Hthrow as -> ->. simpl in Hq.
    rewrite (q_gpuHash _ _ Hq), (q_renderTargets _ _ Hq), (q_next_gpu _ _ Hq). simpl.
    rewrite fn_lookup_insert. split; [|done].
    destruct (decide (Exists (λ t, is_canvas (resource (source_of sb t)) = true) colors))
      as [Hex|Hnex].
    + destruct (head colors) as [t0|] eqn:Hhead;
        [|apply head_None in Hhead; rewrite Hhead in Hex; by apply Exists_nil in Hex].
      destruct (resource (source_of sb t0)) eqn:Hres.
      1,2: destruct (initGpuRenderTarget_loop_total uid (next_gpu st) colors sb) as [s5 Hs5];
        [intros t _ _; exists t0; rewrite Hcol, Hres; by split|congruence].
      destruct (initGpuRenderTarget_loop_throws uid (next_gpu st) colors 0%nat sb)
        as (s5 & Hrun & _); [done| |].
      * intros t1. rewrite Hcol, Hhead. by intros [= <-].
      * unfold forEach in Hloop. congruence.
    + destruct (initGpuRenderTarget_loop_total uid (next_gpu st) colors sb) as [s5 Hs5];
        [|congruence].
      intros t Ht Hc. destruct Hnex. apply Exists_exists. exists t.
      by split.
Qed.

(** X21: the backend target of a render target is set up once, if the
    setup returns.  The first lookup that returns has run the setup in
    full: the trace gained the construction and then what the loop told
    contexts and console, a context is recorded for every canvas
    attachment and a multisample texture made for every antialiased one.
    After it, through any further calls and changes of the world, the
    lookup returns the same backend target and leaves the store as it
    is, so it acquires, configures and allocates nothing, and the
    constructor has still run once for this render target. *)
Theorem getGpuRenderTarget_sets_up_once st r g st1 :
  gpuRenderTargetHash st !! r = None →
  getGpuRenderTarget r st = (Ok g, st1) →
  let colors := colorTextures (renderTargets st r) in
  trace st1 = trace st ++ NewGpuRenderTarget r g :: flat_map (attachment_events st r) colors
  ∧ (∀ i, contexts (gpuRenderTargets st1 g) !! i =
          match colors !! i with
          | Some t =>
              if is_canvas (resource (source_of st t))
              then Some (first_context st r) else None
          | None => None
          end)
  ∧ (∀ i, msaaTextures (gpuRenderTargets st1 g) !! i = init_msaaTextures st colors i)
  ∧ ∀ cs,
      getGpuRenderTarget r (calls cs st1) = (Ok g, calls cs st1)
      ∧ setups r (trace (calls cs st1)) = S (setups r (trace st)).
Proof.
  intros Hmiss Hget colors.
  destruct (getGpuRenderTarget_setups _ _ _ _ Hget) as [Hone Hlater].
  rewrite Hmiss in Hone.
  rewrite (getGpuRenderTarget_miss _ _ Hmiss) in Hget.
  destruct (initGpuRenderTarget_effects _ _ _ _ Hget) as [Htr Hctx].
  destruct (initGpuRenderTarget_msaa _ _ _ _ Hget) as (_ & _ & _ & Hms & _).
  split; [done|]. split; [done|]. split; [done|].
  intros cs. destruct (Hlater cs) as [Hhit Hsame]. split; [done|]. congruence.
Qed.

(** ** What the lookups leave alone *)

Global Instance no_pass_preorder : PreOrder no_pass.
Proof.
  split.
  - intros st. split; try done. exists []. by rewrite app_nil_r.
  - intros st1 st2 st3 [] []. split; try (etrans; eauto).
    destruct np_trace0 as (evs1 & E1 & H1). destruct np_trace1 as (evs2 & E2 & H2).
    exists (evs1 ++ evs2). rewrite E2, E1, app_assoc. split; [done|]. by apply Forall_app.
Qed.

Ltac pass_leaf :=
  split; try reflexivity; simpl;
  first [ by (exists []; rewrite app_nil_r)
        | by (eexists [_]; split; [reflexivity | by repeat constructor]) ].

Lemma RenderTarget_new_no_pass colors depth : respects no_pass (RenderTarget_new colors depth).
Proof. intros st. pass_leaf. Qed.

Lemma getRenderTarget_no_pass s : respects no_pass (getRenderTarget s).
Proof.
  unfold getRenderTarget, initRenderTarget, emit.
  respects_with pass_leaf; apply RenderTarget_new_no_pass.
Qed.

Lemma configure_no_pass context : respects no_pass (configure context).
Proof. unfold configure, emit. respects_with pass_leaf. Qed.

Lemma initGpuRenderTarget_attachment_no_pass uid g t i :
  respects no_pass (initGpuRenderTarget_attachment uid g t i).
Proof.
  unfold initGpuRenderTarget_attachment, emit, modify_gpu.
  respects_with pass_leaf;
    try (intros st; rewrite ?getContext_same, ?colorTexture_source_same; reflexivity);
    try apply configure_no_pass.
Qed.

Lemma getGpuRenderTarget_no_pass uid : respects no_pass (getGpuRenderTarget uid).
Proof.
  unfold getGpuRenderTarget, initGpuRenderTarget, forEach, emit, modify_gpu.
  respects_with pass_leaf; apply initGpuRenderTarget_attachment_no_pass.
Qed.

Lemma getGpuColorTexture_no_pass uid : respects no_pass (getGpuColorTexture uid).
Proof.
  unfold getGpuColorTexture. respects_with pass_leaf; apply getGpuRenderTarget_no_pass.
Qed.

(** X14: the lookups and the copy begin no render pass, notify nobody of
    a change of target, and leave the stack, the current target and the
    root target as they are, whether they return or throw, and also when
    they construct a render target or set up a backend target on the
    way. *)
Theorem lookups_begin_no_pass :
  (∀ s, respects no_pass (getRenderTarget s))
  ∧ (∀ uid, respects no_pass (getGpuRenderTarget uid))
  ∧ (∀ uid cl cv, respects no_pass (getDescriptor uid cl cv))
  ∧ (∀ uid, respects no_pass (getGpuColorTexture uid))
  ∧ (∀ r t o sz enc, respects no_pass (copyToTexture r t o sz enc)).
Proof.
  split; [|split; [|split; [|split]]]; intros.
  - apply getRenderTarget_no_pass.
  - apply getGpuRenderTarget_no_pass.
  - unfold getDescriptor. respects_with pass_leaf; apply getGpuRenderTarget_no_pass.
  - apply getGpuColorTexture_no_pass.
  - unfold copyToTexture. respects_with pass_leaf; apply getGpuColorTexture_no_pass.
Qed.

(** ** The first colour texture of a target, and the copy *)

Lemma initGpuRenderTarget_contexts uid st g st' :
  initGpuRenderTarget uid st = (Ok g, st') →
  ∀ i, contexts (gpuRenderTargets st' g) !! i =
       match colorTextures (renderTargets st uid) !! i with
       | Some t =>
           if is_canvas (resource (source_of st t))
           then Some (first_context st uid) else None
       | None => None
       end.
Proof.
  rewrite initGpuRenderTarget_unfold.
  destruct (forEach _ _ _) as [[[]|e] s4] eqn:Hloop; [|done].
  intros [= <- <-] i.
  destruct (initGpuRenderTarget_loop_tells _ _ _ _ _ Hloop) as [_ Hc].
  { simpl. by rewrite fn_lookup_insert. }
  by rewrite initGpuRenderTarget_end_contexts, Hc, initGpuRenderTarget_begin_first_context.
Qed.

Lemma initGpuRenderTarget_failure uid st e st' :
  initGpuRenderTarget uid st = (Throw e, st') →
  quiet (initGpuRenderTarget_begin uid st) st'.
Proof.
  rewrite initGpuRenderTarget_unfold.
  pose proof (initGpuRenderTarget_loop_quiet uid (next_gpu st)
                (colorTextures (renderTargets st uid)) (initGpuRenderTarget_begin uid st))
    as Hq.
  destruct (forEach _ _ _) as [[[]|e'] s4]; [done|]. by intros [= _ <-].
Qed.

(** X15: the first lookup of the GPU colour texture of a render target
    sets its backend target up.  If that returns, the answer is the
    current texture of the canvas context when the first colour texture
    wraps an HTML canvas with a context, and the GPU source of the first
    colour texture in every other case; a target without colour textures
    makes the lookup throw, after its backend target is registered. *)
Theorem getGpuColorTexture_first_lookup uid st g st' :
  gpuRenderTargetHash st !! uid = None →
  initGpuRenderTarget uid st = (Ok g, st') →
  getGpuColorTexture uid st =
  (match head (colorTextures (renderTargets st uid)) with
   | Some t0 =>
       Ok (match resource (source_of st t0) with
           | HTMLCanvasElement (Some c) => CurrentTexture c
           | _ => GpuSource (source (textures st t0))
           end)
   | None => Throw TypeError
   end, st').
Proof.
  intros Hmiss Hinit. unfold getGpuColorTexture.
  rewrite mbind_unfold, (getGpuRenderTarget_miss _ _ Hmiss), Hinit.
  munfold.
  rewrite (initGpuRenderTarget_contexts _ _ _ _ Hinit 0%nat).
  destruct (initGpuRenderTarget_msaa _ _ _ _ Hinit) as (-> & _).
  pose proof (initGpuRenderTarget_stable uid st) as Hst. rewrite Hinit in Hst.
  simpl in Hst. rewrite (st_textures _ _ Hst). unfold first_context.
  rewrite head_lookup.
  destruct (colorTextures (renderTargets st uid) !! 0%nat) as [t0|]; [|done].
  destruct (resource (source_of st t0)) as [[c|]|c|]; done.
Qed.

(** X16: a copy that returns hands back the destination texture and has
    recorded one copy, with the origin and the size it was given, from the
    GPU colour texture of the source render target into the GPU source the
    destination texture had before the call; if the source render target
    has a backend target already, the store is left as it was. *)
Theorem copyToTexture_outcome src dst origin size enc st d enc' st' :
  copyToTexture src dst origin size enc st = (Ok (d, enc'), st') →
  d = dst
  ∧ (∃ tex,
       getGpuColorTexture src st = (Ok tex, st')
       ∧ enc' = enc ++ [{| copy_texture := tex;
                           copy_origin := origin;
                           copy_destination := GpuSource (source (textures st dst));
                           copy_size := size |}])
  ∧ (is_Some (gpuRenderTargetHash st !! src) → st' = st).
Proof.
  unfold copyToTexture. rewrite mbind_unfold.
  destruct (getGpuColorTexture src st) as [[tex|e] st1] eqn:Hget; [|done].
  munfold. intros [= <- <- <-].
  assert (textures st1 = textures st ∧
          (is_Some (gpuRenderTargetHash st !! src) → st1 = st)) as [Ht Hsame].
  { revert Hget. unfold getGpuColorTexture. rewrite mbind_unfold.
    pose proof (getGpuRenderTarget_stable src st) as Hst.
    destruct (getGpuRenderTarget src st) as [[g|e] s1] eqn:Hg; [|done].
    munfold. intros Hget.
    assert (s1 = st1) as <-.
    { destruct (contexts _ !! 0%nat) as [[c|]|]; [by injection Hget| |].
      all: destruct (colorTextures _ !! 0%nat); [by injection Hget|done]. }
    split; [apply (st_textures _ _ Hst)|].
    intros [g' Hg']. rewrite (getGpuRenderTarget_hit _ _ _ Hg') in Hg. by injection Hg. }
  split; [done|]. split; [|done].
  exists tex. by rewrite Ht.
Qed.

(** ** Binding again, and binding in vain *)

Lemma upd_renderTarget_same st r :
  renderTarget st = Some r → upd_renderTarget (λ _, Some r) st = st.
Proof. destruct st. simpl. by intros ->. Qed.

Lemma bind_size_cached s cl cc st r st' g :
  bind s cl cc st = (Ok r, st') →
  gpuRenderTargetHash st' !! r = Some g →
  ¬ size_differs st' r g.
Proof.
  intros Hbind Hg.
  destruct (bind_inv _ _ _ _ _ _ Hbind) as (st1 & g0 & st2 & st3 & _ & Hgpu & Hsize & Hg3 & Hq & ->).
  destruct (bind_end_frame r g0 (descriptor_of st3 r g0 (default true cl) cc) st3)
    as (Hh & _ & _ & Hr & _ & _ & _ & _ & HG).
  rewrite Hh, Hg3 in Hg. injection Hg as <-.
  unfold size_differs. rewrite Hr, HG. simpl.
  destruct (decide (size_differs st2 r g0)) as [Hd|Hd].
  - apply getGpuRenderTarget_ok in Hgpu.
    destruct (resizeGpuRenderTarget_run r g0 st2 Hgpu) as (s3 & Hs & _ & _ & Hw & Hh' & _).
    rewrite Hs in Hsize. injection Hsize as <-.
    rewrite Hw, Hh', (q_renderTargets _ _ Hq). by intros [|].
  - by subst st3.
Qed.

(** X17: binding has no fast path.  Binding a surface again right after
    it was bound looks everything up, constructs and resizes nothing,
    writes a new descriptor and then begins another render pass and
    notifies [onRenderTargetChange] once more, although the target did not
    change. *)
Theorem bind_again s cl cc st r st1 :
  bind s cl cc st = (Ok r, st1) →
  ∃ g,
    gpuRenderTargetHash st1 !! r = Some g
    ∧ ∀ cl' cc',
        bind s cl' cc' st1
        = (Ok r, bind_end r g (descriptor_of st1 r g (default true cl') cc') st1).
Proof.
  intros Hbind.
  destruct (bind_ok _ _ _ _ _ _ Hbind) as [g Hg]. exists g. split; [done|].
  intros cl' cc'.
  destruct (bind_frame _ _ _ _ _ _ Hbind) as (_ & _ & Hcur & Hhash).
  rewrite bind_unfold, (getRenderTarget_hit _ _ _ Hhash), (upd_renderTarget_same _ _ Hcur),
    (getGpuRenderTarget_hit _ _ _ Hg).
  destruct (decide (size_differs st1 r g)) as [Hd|_];
    [by apply (bind_size_cached _ _ _ _ _ _ _ Hbind Hg) in Hd|].
  by rewrite (getDescriptor_hit _ _ _ _ _ Hg).
Qed.

(** X19: where the lookups of [bind] fail.  If the lookup of the render
    target throws, [bind] throws the same, the surface stands for no
    render target and the store is untouched.  If that lookup returns and
    the lookup of the backend target throws, [bind] throws the same: no
    render pass has begun and nobody was notified, the stack and the root
    target are as before, but the render target is cached for the surface
    and is the current target already, without a backend target.  (What
    the encoder, the pipeline or a listener may throw later in [bind] is
    not in the model.) *)
Theorem bind_failure s cl cc st e st' :
  getRenderTarget s st = (Throw e, st')
  ∨ (∃ r st1, getRenderTarget s st = (Ok r, st1)
              ∧ getGpuRenderTarget r (upd_renderTarget (λ _, Some r) st1) = (Throw e, st')) →
  bind s cl cc st = (Throw e, st')
  ∧ renderTargetStack st' = renderTargetStack st
  ∧ rootRenderTarget st' = rootRenderTarget st
  ∧ (∃ evs, trace st' = trace st ++ evs ∧ Forall (λ e, is_pass e = false) evs)
  ∧ ((¬ (∃ r, resolves s r) ∧ st' = st)
     ∨ ∃ r, renderSurfaceToRenderTargetHash st' !! s = Some r
            ∧ renderTarget st' = Some r
            ∧ gpuRenderTargetHash st' !! r = None).
Proof.
  intros [Hget|(r & st1 & Hget & Hgpu)]; rewrite bind_unfold, Hget.
  - split; [done|].
    unfold getRenderTarget, initRenderTarget in Hget. revert Hget. munfold.
    destruct (renderSurfaceToRenderTargetHash st !! s) as [r|]; [done|].
    destruct s as [c|t|r|]; simpl; try done.
    all: intros [= _ <-]; split; [done|]; split; [done|]; split;
      [exists []; by rewrite app_nil_r|]; left; (split; [|done]); by intros [r Hr].
  - rewrite Hgpu. split; [done|].
    pose proof (getRenderTarget_no_pass s st) as Hnp1. rewrite Hget in Hnp1.
    pose proof (getGpuRenderTarget_no_pass r (upd_renderTarget (λ _, Some r) st1)) as Hnp2.
    pose proof (getGpuRenderTarget_stable r (upd_renderTarget (λ _, Some r) st1)) as Hst.
    rewrite Hgpu in Hnp2, Hst. simpl in *.
    destruct Hnp1 as [Hs1 _ Hr1 (evs1 & Ht1 & Hp1)].
    destruct Hnp2 as [Hs2 Hc2 Hr2 (evs2 & Ht2 & Hp2)]. simpl in *.
    split; [congruence|]. split; [congruence|]. split.
    { exists (evs1 ++ evs2). rewrite Ht2, Ht1, app_assoc. split; [done|].
      by apply Forall_app. }
    right. exists r. split; [|split; [done|]].
    + rewrite (st_hash _ _ Hst). simpl. by apply getRenderTarget_ok in Hget.
    + destruct (gpuRenderTargetHash (upd_renderTarget (λ _, Some r) st1) !! r)
        as [g|] eqn:Hhit.
      * by rewrite (getGpuRenderTarget_hit _ _ _ Hhit) in Hgpu.
      * rewrite (getGpuRenderTarget_miss _ _ Hhit) in Hgpu.
        apply initGpuRenderTarget_failure in Hgpu.
        rewrite (q_gpuHash _ _ Hgpu). exact Hhit.
Qed.

(** ** The views of a first bind *)

Lemma stable_source_of st st' t :
  stable st st' →
  resource (source_of st' t) = resource (source_of st t)
  ∧ antialias (source_of st' t) = antialias (source_of st t).
Proof.
  intros H. unfold source_of. rewrite (st_textures _ _ H).
  pose proof (st_sources _ _ H (source (textures st t))) as Hs.
  unfold src_shape in Hs. by injection Hs.
Qed.

Lemma stable_colorTextures st st' r :
  stable st st' →
  colorTextures (renderTargets st' r) = colorTextures (renderTargets st r)
  ∧ depthTexture (renderTargets st' r) = depthTexture (renderTargets st r).
Proof.
  intros H. pose proof (st_renderTargets _ _ H r) as Hr.
  unfold rt_shape in Hr. by injection Hr.
Qed.

Lemma stable_first_context st st' uid :
  stable st st' → first_context st' uid = first_context st uid.
Proof.
  intros H. unfold first_context.
  destruct (stable_colorTextures _ _ uid H) as [-> _].
  destruct (head _) as [t|]; [|done].
  by destruct (stable_source_of _ _ t H) as [-> _].
Qed.

Lemma stable_own_view st st' uid t :
  stable st st' → own_view st' uid t = own_view st uid t.
Proof.
  intros H. unfold own_view.
  destruct (stable_source_of _ _ t H) as [-> _].
  by rewrite (stable_first_context _ _ _ H).
Qed.

Lemma resized_msaaTexture_is_Some st colors old i :
  is_Some (resized_msaaTexture st colors old i) ↔ is_Some (old !! i).
Proof.
  unfold resized_msaaTexture.
  destruct (colors !! i), (old !! i); split; intros [x Hx]; eauto; done.
Qed.

(** X18: how the first bind of a render target wires its colour
    attachments.  An attachment whose texture does not ask for
    antialiasing renders into its own view; one that does renders into the
    view of the multisample texture made for it and resolves into its own
    view.  The own view is the view of the texture, unless the texture
    wraps an HTML canvas and a context was found on the first colour
    texture of the target: then it is a view of that context's current
    texture.  The depth/stencil attachment is there exactly when the
    target has a depth texture; it stores, and loads or clears as the
    colour attachments do. *)
Theorem bind_first_views s cl cc st r st' :
  bind s cl cc st = (Ok r, st') →
  gpuRenderTargetHash st !! r = None →
  ∃ g d,
    gpuRenderTargetHash st' !! r = Some g
    ∧ descriptor (gpuRenderTargets st' g) = Some d
    ∧ (∀ i t,
         colorTextures (renderTargets st' r) !! i = Some t →
         ∃ a, colorAttachments d !! i = Some a
              ∧ view a = (if antialias (source_of st' t)
                          then MsaaTextureView g i else own_view st' r t)
              ∧ resolveTarget a = (if antialias (source_of st' t)
                                   then Some (own_view st' r t) else None))
    ∧ depthStencilAttachment d =
        (λ dt, {| ds_view := GpuSourceView (source (textures st' dt));
                  stencilStoreOp := StoreOp_store;
                  stencilLoadOp := if default true cl then LoadOp_clear else LoadOp_load |})
          <$> depthTexture (renderTargets st' r).
Proof.
  intros Hbind Hmiss.
  destruct (bind_inv _ _ _ _ _ _ Hbind)
    as (st1 & g & st2 & st3 & Hget & Hgpu & Hsize & Hg3 & Hq & ->).
  set (su := upd_renderTarget (λ _, Some r) st1) in *.
  assert (gpuRenderTargetHash su !! r = None) as Hmiss'.
  { destruct (getRenderTarget_frame s st) as (_ & _ & _ & Hh & _).
    rewrite Hget in Hh. simpl in Hh. by rewrite <- Hh in Hmiss. }
  pose proof (getGpuRenderTarget_ok _ _ _ _ Hgpu) as Hg2.
  rewrite (getGpuRenderTarget_miss _ _ Hmiss') in Hgpu.
  pose proof (initGpuRenderTarget_stable r su) as Hst. rewrite Hgpu in Hst. simpl in Hst.
  pose proof (initGpuRenderTarget_contexts _ _ _ _ Hgpu) as Hctx.
  destruct (initGpuRenderTarget_msaa _ _ _ _ Hgpu) as (Hcol & _ & _ & Hms & _).
  assert (stable su st3) as Hst3 by (etrans; [exact Hst|by apply quiet_stable]).
  assert (contexts (gpuRenderTargets st3 g) = contexts (gpuRenderTargets st2 g)
          ∧ ∀ i, is_Some (msaaTextures (gpuRenderTargets st3 g) !! i)
                 ↔ is_Some (msaaTextures (gpuRenderTargets st2 g) !! i)) as [Hc3 Hm3].
  { destruct (decide (size_differs st2 r g)); [|by subst st3].
    destruct (resizeGpuRenderTarget_run r g st2 Hg2) as (s3 & Hs & _ & Hrest & _ & _ & Hm).
    rewrite Hs in Hsize. injection Hsize as <-.
    unfold gpu_rest in Hrest. injection Hrest as Hc _ _ _. split; [done|].
    intros i. rewrite Hm. destruct (msaa _); [|done].
    apply resized_msaaTexture_is_Some. }
  set (d := descriptor_of st3 r g (default true cl) cc).
  destruct (bind_end_frame r g d st3) as (Hh & _ & _ & Hr & Ht & Hsrc & _ & _ & HG).
  assert (stable su (bind_end r g d st3)) as Hst'.
  { etrans; [exact Hst3|]. split; try done; intros; by rewrite ?Hr, ?Hsrc. }
  exists g, d. split; [by rewrite Hh|]. split; [by rewrite HG|]. split.
  - intros i t Hi.
    rewrite (stable_own_view _ _ _ _ Hst').
    destruct (stable_source_of _ _ t Hst') as [_ ->].
    destruct (stable_colorTextures _ _ r Hst') as [Hcol' _]. rewrite Hcol' in Hi.
    destruct (stable_colorTextures _ _ r Hst3) as [Hcol3 _].
    exists (colorAttachment st3 g (if default true cl then LoadOp_clear else LoadOp_load)
              cc i t).
    split.
    { unfold d, descriptor_of. simpl. by rewrite list_lookup_imap, Hcol3, Hi. }
    unfold colorAttachment, own_view.
    rewrite Hc3, Hctx, Hi.
    assert (is_Some (msaaTextures (gpuRenderTargets st3 g) !! i)
            ↔ antialias (source_of su t) = true) as Hiff.
    { rewrite Hm3, Hms. unfold init_msaaTextures. rewrite Hi.
      destruct (antialias _); split; intros H; try done; first [by eexists | by destruct H]. }
    destruct (msaaTextures (gpuRenderTargets st3 g) !! i) as [m|] eqn:Em.
    + rewrite (proj1 Hiff (mk_is_Some _ _ eq_refl)). simpl.
      destruct (is_canvas _); [|done]. by destruct (first_context su r).
    + destruct (antialias (source_of su t)); [by destruct (proj2 Hiff eq_refl)|].
      simpl. destruct (is_canvas _); [|done]. by destruct (first_context su r).
  - unfold d, descriptor_of. simpl.
    by destruct (depthTexture _).
Qed.

(** ** Sample counts *)

Global Instance keeps_samples_preorder : PreOrder keeps_samples.
Proof. split; [intros st H; exact H|]. intros st1 st2 st3 H1 H2 H. by apply H2, H1. Qed.

(** A step that tells the pipeline nothing and writes no sample count. *)
Lemma samples_ok_same st st' evs :
  (∀ g, msaaSamples (gpuRenderTargets st' g) = msaaSamples (gpuRenderTargets st g)) →
  trace st' = trace st ++ evs →
  Forall (λ e, is_pass e = false) evs →
  keeps_samples st st'.
Proof.
  intros Hg Ht Hevs [Hs Htr]. split.
  - intros g. rewrite Hg. apply Hs.
  - intros n. rewrite Ht. intros [H|H]%elem_of_app; [by apply Htr|].
    by apply (proj1 (Forall_forall _ _) Hevs) in H.
Qed.

Ltac samples_leaf :=
  first
    [ apply (samples_ok_same _ _ []);
      [ intros ?; simpl; unfold insert, fn_insert; try case_decide; subst; reflexivity
      | simpl; by rewrite app_nil_r
      | constructor ]
    | eapply (samples_ok_same _ _ [_]);
      [ intros ?; reflexivity | reflexivity | by repeat constructor ] ].

Lemma RenderTarget_new_keeps_samples colors depth :
  respects keeps_samples (RenderTarget_new colors depth).
Proof. intros st. simpl. samples_leaf. Qed.

Lemma getRenderTarget_keeps_samples s : respects keeps_samples (getRenderTarget s).
Proof.
  unfold getRenderTarget, initRenderTarget, emit.
  respects_with samples_leaf; apply RenderTarget_new_keeps_samples.
Qed.

Lemma configure_keeps_samples context : respects keeps_samples (configure context).
Proof. unfold configure, emit. respects_with samples_leaf. Qed.

Lemma initGpuRenderTarget_attachment_keeps_samples uid g t i :
  respects keeps_samples (initGpuRenderTarget_attachment uid g t i).
Proof.
  unfold initGpuRenderTarget_attachment, emit, modify_gpu.
  respects_with samples_leaf;
    try (intros st; rewrite ?getContext_same, ?colorTexture_source_same; reflexivity);
    try apply configure_keeps_samples.
Qed.

Lemma set_msaaSamples_keeps_samples g st :
  keeps_samples st (upd_gpuRenderTargets (λ h, <[g := set_msaaSamples 4 (h g)]> h) st).
Proof.
  intros [Hs Htr]. split; [|done].
  intros g'. simpl. unfold insert, fn_insert. case_decide; [by right|apply Hs].
Qed.

Lemma GpuRenderTarget_new_keeps_samples g st :
  keeps_samples st
    (upd_next_gpu S (upd_gpuRenderTargets (λ h, <[g := GpuRenderTarget_new]> h) st)).
Proof.
  intros [Hs Htr]. split; [|done].
  intros g'. simpl. unfold insert, fn_insert. case_decide; [by left|apply Hs].
Qed.

Lemma getGpuRenderTarget_keeps_samples uid : respects keeps_samples (getGpuRenderTarget uid).
Proof.
  unfold getGpuRenderTarget, initGpuRenderTarget, forEach, emit, modify_gpu.
  respects_with ltac:(first [ apply set_msaaSamples_keeps_samples
                            | apply GpuRenderTarget_new_keeps_samples
                            | samples_leaf ]);
    apply initGpuRenderTarget_attachment_keeps_samples.
Qed.

Lemma resizeGpuRenderTarget_keeps_samples uid :
  respects keeps_samples (resizeGpuRenderTarget uid).
Proof.
  unfold resizeGpuRenderTarget, resizeGpuRenderTarget_attachment, forEach, modify_gpu.
  respects_with samples_leaf; apply getGpuRenderTarget_keeps_samples.
Qed.

Lemma getDescriptor_keeps_samples uid cl cv :
  respects keeps_samples (getDescriptor uid cl cv).
Proof.
  unfold getDescriptor. respects_with samples_leaf; apply getGpuRenderTarget_keeps_samples.
Qed.

Lemma bind_end_keeps_samples r g d st : keeps_samples st (bind_end r g d st).
Proof.
  intros [Hs Htr]. split.
  - intros g'. simpl. unfold insert, fn_insert. case_decide; subst; apply Hs.
  - intros n. simpl. intros [H|H]%elem_of_app; [by apply Htr|].
    apply elem_of_cons in H as [H|H]; [done|].
    apply elem_of_cons in H as [[= ->]|H]; [apply Hs|].
    by apply list_elem_of_singleton in H.
Qed.

Lemma bind_keeps_samples s cl cc : respects keeps_samples (bind s cl cc).
Proof.
  intros st. rewrite bind_unfold.
  pose proof (getRenderTarget_keeps_samples s st) as H1.
  destruct (getRenderTarget s st) as [[r|e] st1]; [|done]. simpl in H1.
  assert (keeps_samples st (upd_renderTarget (λ _, Some r) st1)) as H1'
    by (intros H; by destruct (H1 H)).
  clear H1. rename H1' into H1.
  pose proof (getGpuRenderTarget_keeps_samples r (upd_renderTarget (λ _, Some r) st1)) as H2.
  destruct (getGpuRenderTarget r _) as [[g|e] st2]; simpl in H2;
    [|intros H; by apply H2, H1].
  assert (keeps_samples st2
            ((if decide (size_differs st2 r g)
              then resizeGpuRenderTarget r st2 else (Ok (), st2)).2)) as H3.
  { destruct (decide _); [apply resizeGpuRenderTarget_keeps_samples|by intros H]. }
  destruct (if decide (size_differs st2 r g) then _ else _) as [[[]|e] st3]; simpl in H3;
    [|intros H; by apply H3, H2, H1].
  pose proof (getDescriptor_keeps_samples r (default true cl) cc st3) as H4.
  destruct (getDescriptor r _ cc st3) as [[d|e] st4]; simpl in *;
    intros H; [apply bind_end_keeps_samples|]; by apply H4, H3, H2, H1.
Qed.

Create HintDb samples.
#[local] Hint Resolve bind_keeps_samples getRenderTarget_keeps_samples : samples.

Lemma push_keeps_samples s cl cc : respects keeps_samples (push s cl cc).
Proof. unfold push. respects_with samples_leaf; by eauto with samples. Qed.

#[local] Hint Resolve push_keeps_samples : samples.

Lemma call_keeps_samples c st : keeps_samples st (call c st).
Proof.
  destruct c; simpl.
  - revert st. change (respects keeps_samples (start rootRenderSurface clear clearColor)).
    unfold start, emit. respects_with samples_leaf; by eauto with samples.
  - apply bind_keeps_samples.
  - apply push_keeps_samples.
  - revert st. change (respects keeps_samples pop).
    unfold pop. respects_with samples_leaf; by eauto with samples.
  - revert st. change (respects keeps_samples restart).
    unfold restart. respects_with samples_leaf; by eauto with samples.
  - apply getRenderTarget_keeps_samples.
  - apply getGpuRenderTarget_keeps_samples.
  - apply getDescriptor_keeps_samples.
  - apply (samples_ok_same _ _ []); [done|simpl; by rewrite app_nil_r|constructor].
  - apply (samples_ok_same _ _ []); [done|simpl; by rewrite app_nil_r|constructor].
Qed.

(** X20: in every store the system can be in, the pipeline has only ever
    been told a multisample count of 1 or of 4, and every backend target
    records a sample count of 1 or of 4, whatever the rest of the renderer
    does to the textures in between. *)
Theorem sample_counts_are_1_or_4 st :
  reachable st →
  (∀ n, SetMultisampleCount n ∈ trace st → n = 1 ∨ n = 4)
  ∧ ∀ g, msaaSamples (gpuRenderTargets st g) = 1
         ∨ msaaSamples (gpuRenderTargets st g) = 4.
Proof.
  intros Hreach.
  assert (samples_ok st) as [Hs Ht].
  { induction Hreach as [srcs texs rts uid|c st _ IH].
    - split; simpl; [by left|]. intros n H. by apply elem_of_nil in H.
    - by apply (call_keeps_samples c st). }
  by split.
Qed.

(** * The further properties at work in the small world *)

Lemma pop_underflow_witness :
  let st := calls [CallStart (SurfTexture 0) None None] sample in
  reachable st
  ∧ (length (renderTargetStack st) ≤ 1)%nat
  ∧ pop st = (Throw TypeError, upd_renderTargetStack (λ s, removelast s) st)
  ∧ removelast (renderTargetStack st) = [].
Proof.
  intros st.
  assert (reachable st) as Hreach by (apply reachable_calls; constructor).
  assert (length (renderTargetStack st) ≤ 1)%nat as Hlen by (vm_compute; lia).
  split; [exact Hreach|]. split; [exact Hlen|].
  exact (pop_underflow st Hreach Hlen).
Defined.

Lemma push_pop_round_trip_witness :
  let st := calls [CallStart (SurfTexture 0) None None] sample in
  let st1 := (push (SurfTexture 1) None (Some red) st).2 in
  reachable st
  ∧ renderTargetStack st = [] ++ [10%nat]
  ∧ push (SurfTexture 1) None (Some red) st = (Ok 11%nat, st1)
  ∧ ∃ g d st2,
      pop st1 = (Ok (), st2)
      ∧ renderTargetStack st2 = renderTargetStack st
      ∧ renderTarget st2 = Some 10%nat
      ∧ gpuRenderTargetHash st2 !! 10%nat = Some g
      ∧ descriptor (gpuRenderTargets st2 g) = Some d
      ∧ Forall (λ a, loadOp a = LoadOp_load) (colorAttachments d).
Proof.
  intros st st1.
  assert (reachable st) as Hreach by (apply reachable_calls; constructor).
  assert (renderTargetStack st = [] ++ [10%nat]) as Hstack by (vm_compute; reflexivity).
  assert (push (SurfTexture 1) None (Some red) st = (Ok 11%nat, st1)) as Hpush
    by (vm_compute; reflexivity).
  split; [exact Hreach|]. split; [exact Hstack|]. split; [exact Hpush|].
  exact (push_pop_round_trip st [] 10%nat (SurfTexture 1) None (Some red) 11%nat st1
           Hreach Hstack Hpush).
Defined.

Lemma restart_before_start_witness :
  reachable sample
  ∧ rootRenderTarget sample = None
  ∧ restart sample = (Throw TypeError, sample).
Proof.
  split; [constructor|]. split; [reflexivity|].
  exact (restart_before_start sample (reachable_new _ _ _ _) eq_refl).
Defined.

Lemma restart_resumes_root_witness :
  let st1 := (start (SurfTexture 0) None None sample).2 in
  let cs := [CallPush (SurfTexture 1) None None;
             CallBind (SurfRenderTarget 2) (Some false) None] in
  reachable sample
  ∧ start (SurfTexture 0) None None sample = (Ok (), st1)
  ∧ Forall (λ c, not_start c = true) cs
  ∧ ∃ r g d st',
      restart (calls cs st1) = (Ok (), st')
      ∧ rootRenderTarget st1 = Some r
      ∧ rootRenderTarget st' = Some r
      ∧ renderTarget st' = Some r
      ∧ renderTargetStack st' = renderTargetStack (calls cs st1)
      ∧ gpuRenderTargetHash st' !! r = Some g
      ∧ descriptor (gpuRenderTargets st' g) = Some d
      ∧ Forall (λ a, loadOp a = LoadOp_load) (colorAttachments d).
Proof.
  intros st1 cs.
  assert (start (SurfTexture 0) None None sample = (Ok (), st1)) as Hstart
    by (vm_compute; reflexivity).
  assert (Forall (λ c, not_start c = true) cs) as Hcs by (repeat constructor).
  split; [constructor|]. split; [exact Hstart|]. split; [exact Hcs|].
  exact (restart_resumes_root sample (SurfTexture 0) None None st1 cs
           (reachable_new _ _ _ _) Hstart Hcs).
Defined.

Lemma unresolvable_surface_throws_witness :
  reachable sample
  ∧ ((∃ c, SurfUndefined = SurfCanvas c) ∨ SurfUndefined = SurfUndefined)
  ∧ getRenderTarget SurfUndefined sample = (Throw TypeError, sample)
  ∧ bind SurfUndefined None None sample = (Throw TypeError, sample)
  ∧ push SurfUndefined None None sample = (Throw TypeError, sample).
Proof.
  split; [constructor|]. split; [right; reflexivity|].
  exact (unresolvable_surface_throws sample SurfUndefined None None
           (reachable_new _ _ _ _) (or_intror eq_refl)).
Defined.

Lemma renderTarget_surface_resolves_to_itself_witness :
  reachable sample
  ∧ ∃ st1,
      getRenderTarget (SurfRenderTarget 2) sample = (Ok 2%nat, st1)
      ∧ isRoot (renderTargets st1 2%nat) = true
      ∧ trace st1 = trace sample
      ∧ next_uid st1 = next_uid sample
      ∧ (∀ r', rt_shape (renderTargets st1 r') = rt_shape (renderTargets sample r'))
      ∧ textures st1 = textures sample
      ∧ sources st1 = sources sample.
Proof.
  split; [constructor|].
  exact (renderTarget_surface_resolves_to_itself sample 2%nat (reachable_new _ _ _ _)).
Defined.

Lemma stack_targets_are_bound_witness :
  let st := calls [CallStart (SurfTexture 0) None None] sample in
  reachable st
  ∧ 10%nat ∈ renderTargetStack st
  ∧ isRoot (renderTargets st 10%nat) = true
  ∧ ∃ g, getGpuRenderTarget 10 st = (Ok g, st).
Proof.
  intros st.
  assert (reachable st) as Hreach by (apply reachable_calls; constructor).
  assert (renderTargetStack st = [10%nat]) as Hstack by (vm_compute; reflexivity).
  assert (10%nat ∈ renderTargetStack st) as Hin by (rewrite Hstack; left).
  split; [exact Hreach|]. split; [exact Hin|].
  exact (stack_targets_are_bound st 10%nat Hreach Hin).
Defined.

Lemma backend_targets_are_not_shared_witness :
  let st := calls [CallBind (SurfRenderTarget 1) None None;
                   CallBind (SurfRenderTarget 2) None None] sample in
  reachable st
  ∧ gpuRenderTargetHash st !! 2%nat = Some 1%nat
  ∧ 2%nat = 2%nat.
Proof.
  intros st.
  assert (reachable st) as Hreach by (apply reachable_calls; constructor).
  assert (gpuRenderTargetHash st !! 2%nat = Some 1%nat) as Hg by (vm_compute; reflexivity).
  split; [exact Hreach|]. split; [exact Hg|].
  exact (backend_targets_are_not_shared st 2%nat 2%nat 1%nat Hreach Hg Hg).
Defined.

Lemma bind_leaves_other_backend_targets_witness :
  let st := calls [CallBind (SurfRenderTarget 1) None None] sample in
  let st' := (bind (SurfRenderTarget 2) None None st).2 in
  reachable st
  ∧ bind (SurfRenderTarget 2) None None st = (Ok 2%nat, st')
  ∧ gpuRenderTargetHash st !! 1%nat = Some 0%nat
  ∧ 1%nat ≠ 2%nat
  ∧ gpuRenderTargetHash st' !! 1%nat = Some 0%nat
  ∧ gpuRenderTargets st' 0%nat = gpuRenderTargets st 0%nat.
Proof.
  intros st st'.
  assert (reachable st) as Hreach by (apply reachable_calls; constructor).
  assert (bind (SurfRenderTarget 2) None None st = (Ok 2%nat, st')) as Hbind
    by (vm_compute; reflexivity).
  assert (gpuRenderTargetHash st !! 1%nat = Some 0%nat) as Hg by (vm_compute; reflexivity).
  assert (1%nat ≠ 2%nat) as Hne by lia.
  split; [exact Hreach|]. split; [exact Hbind|]. split; [exact Hg|]. split; [exact Hne|].
  exact (bind_leaves_other_backend_targets st (SurfRenderTarget 2) None None 2%nat st'
           1%nat 0%nat Hreach Hbind Hg Hne).
Defined.

Lemma initGpuRenderTarget_tells_witness :
  let st' := (initGpuRenderTarget 3 sample_ready).2 in
  let st0' := (initGpuRenderTarget 3 sample).2 in
  initGpuRenderTarget 3 sample_ready = (Ok 0%nat, st')
  ∧ initGpuRenderTarget 3 sample = (Ok 0%nat, st0')
  ∧ flat_map (attachment_events sample_ready 3) (colorTextures (renderTargets sample_ready 3%nat))
    = [Configure (Some (sample_context true)); ConsoleError DOMException]
  ∧ flat_map (attachment_events sample 3) (colorTextures (renderTargets sample 3%nat))
    = [ConsoleError TypeError]
  ∧ (trace st' = trace sample_ready ++ NewGpuRenderTarget 3 0 ::
       flat_map (attachment_events sample_ready 3)
         (colorTextures (renderTargets sample_ready 3%nat))
     ∧ ∀ i, contexts (gpuRenderTargets st' 0%nat) !! i =
            match colorTextures (renderTargets sample_ready 3%nat) !! i with
            | Some t =>
                if is_canvas (resource (source_of sample_ready t))
                then Some (first_context sample_ready 3) else None
            | None => None
            end)
  ∧ (trace st0' = trace sample ++ NewGpuRenderTarget 3 0 ::
       flat_map (attachment_events sample 3) (colorTextures (renderTargets sample 3%nat))
     ∧ ∀ i, contexts (gpuRenderTargets st0' 0%nat) !! i =
            match colorTextures (renderTargets sample 3%nat) !! i with
            | Some t =>
                if is_canvas (resource (source_of sample t))
                then Some (first_context sample 3) else None
            | None => None
            end).
Proof.
  intros st' st0'.
  assert (initGpuRenderTarget 3 sample_ready = (Ok 0%nat, st')) as H
    by (vm_compute; reflexivity).
  assert (initGpuRenderTarget 3 sample = (Ok 0%nat, st0')) as H0
    by (vm_compute; reflexivity).
  split; [exact H|]. split; [exact H0|]. do 2 (split; [reflexivity|]).
  split.
  - exact (initGpuRenderTarget_tells 3 sample_ready 0%nat st' H).
  - exact (initGpuRenderTarget_tells 3 sample 0%nat st0' H0).
Defined.

Lemma getGpuColorTexture_first_lookup_witness :
  let st' := (initGpuRenderTarget 3 sample).2 in
  gpuRenderTargetHash sample !! 3%nat = None
  ∧ initGpuRenderTarget 3 sample = (Ok 0%nat, st')
  ∧ getGpuColorTexture 3 sample =
    (match head (colorTextures (renderTargets sample 3%nat)) with
     | Some t0 =>
         Ok (match resource (source_of sample t0) with
             | HTMLCanvasElement (Some c) => CurrentTexture c
             | _ => GpuSource (source (textures sample t0))
             end)
     | None => Throw TypeError
     end, st').
Proof.
  intros st'.
  assert (gpuRenderTargetHash sample !! 3%nat = None) as Hmiss by reflexivity.
  assert (initGpuRenderTarget 3 sample = (Ok 0%nat, st')) as H by (vm_compute; reflexivity).
  split; [exact Hmiss|]. split; [exact H|].
  exact (getGpuColorTexture_first_lookup 3 sample 0%nat st' Hmiss H).
Defined.

Lemma copyToTexture_outcome_witness :
  let origin := (0%Qc, 0%Qc) in
  let size := (Qc_of_Z 8, Qc_of_Z 6) in
  let enc' := [{| copy_texture := CurrentTexture (sample_context true);
                  copy_origin := origin;
                  copy_destination := GpuSource 1;
                  copy_size := size |}] in
  let st' := (copyToTexture 3 1 origin size [] sample).2 in
  copyToTexture 3 1 origin size [] sample = (Ok (1%nat, enc'), st')
  ∧ 1%nat = 1%nat
  ∧ (∃ tex,
       getGpuColorTexture 3 sample = (Ok tex, st')
       ∧ enc' = [] ++ [{| copy_texture := tex;
                          copy_origin := origin;
                          copy_destination := GpuSource (source (textures sample 1%nat));
                          copy_size := size |}])
  ∧ (is_Some (gpuRenderTargetHash sample !! 3%nat) → st' = sample).
Proof.
  intros origin size enc' st'.
  assert (copyToTexture 3 1 origin size [] sample = (Ok (1%nat, enc'), st')) as H
    by (vm_compute; reflexivity).
  split; [exact H|].
  exact (copyToTexture_outcome 3 1 origin size [] sample 1%nat enc' st' H).
Defined.

Lemma bind_again_witness :
  let st1 := (bind (SurfRenderTarget 1) None None sample).2 in
  bind (SurfRenderTarget 1) None None sample = (Ok 1%nat, st1)
  ∧ ∃ g,
      gpuRenderTargetHash st1 !! 1%nat = Some g
      ∧ ∀ cl' cc',
          bind (SurfRenderTarget 1) cl' cc' st1
          = (Ok 1%nat, bind_end 1 g (descriptor_of st1 1 g (default true cl') cc') st1).
Proof.
  intros st1.
  assert (bind (SurfRenderTarget 1) None None sample = (Ok 1%nat, st1)) as H
    by (vm_compute; reflexivity).
  split; [exact H|].
  exact (bind_again (SurfRenderTarget 1) None None sample 1%nat st1 H).
Defined.

Lemma bind_first_views_witness :
  let st' := (bind (SurfRenderTarget 0) None None sample).2 in
  bind (SurfRenderTarget 0) None None sample = (Ok 0%nat, st')
  ∧ gpuRenderTargetHash sample !! 0%nat = None
  ∧ ∃ g d,
      gpuRenderTargetHash st' !! 0%nat = Some g
      ∧ descriptor (gpuRenderTargets st' g) = Some d
      ∧ (∀ i t,
           colorTextures (renderTargets st' 0%nat) !! i = Some t →
           ∃ a, colorAttachments d !! i = Some a
                ∧ view a = (if antialias (source_of st' t)
                            then MsaaTextureView g i else own_view st' 0 t)
                ∧ resolveTarget a = (if antialias (source_of st' t)
                                     then Some (own_view st' 0 t) else None))
      ∧ depthStencilAttachment d =
          (λ dt, {| ds_view := GpuSourceView (source (textures st' dt));
                    stencilStoreOp := StoreOp_store;
                    stencilLoadOp := if default true None then LoadOp_clear else LoadOp_load |})
            <$> depthTexture (renderTargets st' 0%nat).
Proof.
  intros st'.
  assert (bind (SurfRenderTarget 0) None None sample = (Ok 0%nat, st')) as H
    by (vm_compute; reflexivity).
  assert (gpuRenderTargetHash sample !! 0%nat = None) as Hmiss by reflexivity.
  split; [exact H|]. split; [exact Hmiss|].
  exact (bind_first_views (SurfRenderTarget 0) None None sample 0%nat st' H Hmiss).
Defined.

Lemma bind_failure_witness :
  let st1 := (getRenderTarget (SurfRenderTarget 4) sample).2 in
  let st' := (bind (SurfRenderTarget 4) None None sample).2 in
  (getRenderTarget (SurfRenderTarget 4) sample = (Throw TypeError, st')
   ∨ ∃ r st1, getRenderTarget (SurfRenderTarget 4) sample = (Ok r, st1)
              ∧ getGpuRenderTarget r (upd_renderTarget (λ _, Some r) st1)
                = (Throw TypeError, st'))
  ∧ bind (SurfRenderTarget 4) None None sample = (Throw TypeError, st')
  ∧ renderTargetStack st' = renderTargetStack sample
  ∧ rootRenderTarget st' = rootRenderTarget sample
  ∧ (∃ evs, trace st' = trace sample ++ evs ∧ Forall (λ e, is_pass e = false) evs)
  ∧ ((¬ (∃ r, resolves (SurfRenderTarget 4) r) ∧ st' = sample)
     ∨ ∃ r, renderSurfaceToRenderTargetHash st' !! SurfRenderTarget 4 = Some r
            ∧ renderTarget st' = Some r
            ∧ gpuRenderTargetHash st' !! r = None).
Proof.
  intros st1 st'.
  assert (getRenderTarget (SurfRenderTarget 4) sample = (Throw TypeError, st')
          ∨ ∃ r st1, getRenderTarget (SurfRenderTarget 4) sample = (Ok r, st1)
                     ∧ getGpuRenderTarget r (upd_renderTarget (λ _, Some r) st1)
                       = (Throw TypeError, st')) as H.
  { right. exists 4%nat, st1. split; vm_compute; reflexivity. }
  split; [exact H|].
  exact (bind_failure (SurfRenderTarget 4) None None sample TypeError st' H).
Defined.

Lemma sample_counts_are_1_or_4_witness :
  let st := calls [CallBind (SurfRenderTarget 1) None None;
                   CallBind (SurfRenderTarget 2) None None] sample in
  reachable st
  ∧ (∀ n, SetMultisampleCount n ∈ trace st → n = 1 ∨ n = 4)
  ∧ ∀ g, msaaSamples (gpuRenderTargets st g) = 1
         ∨ msaaSamples (gpuRenderTargets st g) = 4.
Proof.
  intros st.
  assert (reachable st) as Hreach by (apply reachable_calls; constructor).
  split; [exact Hreach|].
  exact (sample_counts_are_1_or_4 st Hreach).
Defined.

Lemma getGpuRenderTarget_sets_up_once_witness :
  let st1 := (getGpuRenderTarget 3 sample_ready).2 in
  let colors := colorTextures (renderTargets sample_ready 3%nat) in
  gpuRenderTargetHash sample_ready !! 3%nat = None
  ∧ getGpuRenderTarget 3 sample_ready = (Ok 0%nat, st1)
  ∧ trace st1 = trace sample_ready ++ NewGpuRenderTarget 3 0 ::
                  flat_map (attachment_events sample_ready 3) colors
  ∧ (∀ i, contexts (gpuRenderTargets st1 0%nat) !! i =
          match colors !! i with
          | Some t =>
              if is_canvas (resource (source_of sample_ready t))
              then Some (first_context sample_ready 3) else None
          | None => None
          end)
  ∧ (∀ i, msaaTextures (gpuRenderTargets st1 0%nat) !! i
          = init_msaaTextures sample_ready colors i)
  ∧ ∀ cs,
      getGpuRenderTarget 3 (calls cs st1) = (Ok 0%nat, calls cs st1)
      ∧ setups 3 (trace (calls cs st1)) = S (setups 3 (trace sample_ready)).
Proof.
  intros st1 colors.
  assert (gpuRenderTargetHash sample_ready !! 3%nat = None) as Hmiss by reflexivity.
  assert (getGpuRenderTarget 3 sample_ready = (Ok 0%nat, st1)) as H
    by (vm_compute; reflexivity).
  split; [exact Hmiss|]. split; [exact H|].
  exact (getGpuRenderTarget_sets_up_once sample_ready 3 0 st1 Hmiss H).
Defined.
